(** * TETRAPOL physical channel receiver (lib/phys_ch.c)

    A shallow embedding of the physical-channel core: the bit buffer, the
    frame synchroniser, the frame pipeline (descrambling, differential
    precoding, deinterleaving, channel decoding) and the blind SCR detector,
    followed by the properties of the specification that concern them.

    Conventions of the embedding.
    - [uint8_t] values are numbers of type [N]; the only arithmetic the code
      does on them is XOR ([N.lxor]), comparison and summation.
    - [int] values are numbers of type [Z]; C's [%] is [Z.rem].  Signed
      overflow is undefined in C: the model describes the runs without it.
    - A C array is a list; [a[i]] is [ld a i], the store [a[i] = v] is
      [st a i v].  A pointer into an array ([data + offs]) is the array
      together with the offset.
    - A [for] loop with a fixed trip count is [for_loop]; the search loop of
      [find_frame_sync] and the frame loop of [tetrapol_phys_ch_process]
      carry a bound on their trip count, shown to be sufficient.
    - The collaborators of other compilation units (multiblock layer, CRC,
      printing) and the constants of the headers are the fields of the class
      [Externals]; calls and printed lines are recorded in a trace. *)

From Stdlib Require Import ZArith NArith List Lia Bool Permutation.
Import ListNotations.
Open Scope Z_scope.

(** ** Arrays and loops *)

Abbreviation uint8_t := N (only parsing).

Definition ld {A} (d : A) (a : list A) (i : Z) : A :=
  if i <? 0 then d else nth (Z.to_nat i) a d.

Fixpoint upd_nat {A} (a : list A) (n : nat) (v : A) : list A :=
  match a, n with
  | [], _ => []
  | _ :: t, O => v :: t
  | h :: t, S n' => h :: upd_nat t n' v
  end.

Definition st {A} (a : list A) (i : Z) (v : A) : list A :=
  if i <? 0 then a else upd_nat a (Z.to_nat i) v.

(** [a[i]] for a byte array and for an [int] array. *)
Abbreviation ld8 := (ld 0%N) (only parsing).
Abbreviation ldi := (ld 0) (only parsing).

(** [for (i = lo; i < lo + n; ++i) s = body i s]. *)
Fixpoint for_loop {T} (n : nat) (i : Z) (body : Z -> T -> T) (s : T) : T :=
  match n with
  | O => s
  | S n' => for_loop n' (i + 1) body (body i s)
  end.

(** [for (j = hi; j > hi - n; --j) s = body j s]. *)
Fixpoint for_loop_down {T} (n : nat) (j : Z) (body : Z -> T -> T) (s : T) : T :=
  match n with
  | O => s
  | S n' => for_loop_down n' (j - 1) body (body j s)
  end.

(** [memcpy(dst + dpos, src + spos, n)] and [memmove]: the [n] source bytes
    are read before any is written. *)
Definition memcpy (dst : list uint8_t) (dpos : Z) (src : list uint8_t) (spos n : Z)
  : list uint8_t :=
  firstn (Z.to_nat dpos) dst
  ++ firstn (Z.to_nat n) (skipn (Z.to_nat spos) src)
  ++ skipn (Z.to_nat (dpos + n)) dst.

Definition memmove := memcpy.

(** ** Constants and types of phys_ch.c *)

Definition MAX_FRAME_SYNC_ERR : Z := 1.
Definition FRAME_HDR_LEN : Z := 8.
Definition FRAME_DATA_LEN : Z := 152.
Definition FRAME_LEN : Z := FRAME_HDR_LEN + FRAME_DATA_LEN.

Record frame_t := mk_frame {
  f_frame_no : Z;
  f_data : list uint8_t          (* uint8_t data[FRAME_DATA_LEN] *)
}.

Record phys_ch_t := mk_phys_ch {
  band : Z;
  rch_type : Z;
  last_sync_err : Z;
  total_sync_err : Z;
  has_frame_sync : bool;
  frame_no : Z;
  scr : Z;
  scr_guess : Z;
  scr_confidence : Z;
  scr_stat : list Z;             (* int scr_stat[128] *)
  data_len : Z;
  data : list uint8_t            (* uint8_t data[10*FRAME_LEN] *)
}.

Definition DATA_SIZE : Z := 10 * FRAME_LEN.     (* sizeof(phys_ch->data) *)
Definition SCR_STAT_LEN : Z := 128.             (* ARRAY_LEN(phys_ch->scr_stat) *)

(** Modelled from the spec: the type [decoded_frame_t] of decoded_frame.h,
    which is not among the sources: "a record of 76 payload bits plus 76
    parallel erasure flags, plus a frame number". *)
Record decoded_frame_t := mk_decoded_frame {
  df_frame_no : Z;
  df_data : list uint8_t;
  df_err : list uint8_t
}.

(** A local [decoded_frame_t df;] or [frame_t frame;] before its first
    store; every cell is written before it is read. *)
Definition df_local : decoded_frame_t :=
  mk_decoded_frame 0 (repeat 0%N 76) (repeat 0%N 76).
Definition frame_local : frame_t :=
  mk_frame 0 (repeat 0%N (Z.to_nat FRAME_DATA_LEN)).

(** Field updates. *)
Definition set_sync_errs (p : phys_ch_t) (l t : Z) : phys_ch_t :=
  mk_phys_ch (band p) (rch_type p) l t (has_frame_sync p) (frame_no p) (scr p)
    (scr_guess p) (scr_confidence p) (scr_stat p) (data_len p) (data p).
Definition set_has_frame_sync (p : phys_ch_t) (b : bool) : phys_ch_t :=
  mk_phys_ch (band p) (rch_type p) (last_sync_err p) (total_sync_err p) b
    (frame_no p) (scr p) (scr_guess p) (scr_confidence p) (scr_stat p)
    (data_len p) (data p).
Definition set_frame_no (p : phys_ch_t) (n : Z) : phys_ch_t :=
  mk_phys_ch (band p) (rch_type p) (last_sync_err p) (total_sync_err p)
    (has_frame_sync p) n (scr p) (scr_guess p) (scr_confidence p) (scr_stat p)
    (data_len p) (data p).
Definition set_scr (p : phys_ch_t) (s : Z) : phys_ch_t :=
  mk_phys_ch (band p) (rch_type p) (last_sync_err p) (total_sync_err p)
    (has_frame_sync p) (frame_no p) s (scr_guess p) (scr_confidence p)
    (scr_stat p) (data_len p) (data p).
Definition set_scr_guess (p : phys_ch_t) (s : Z) : phys_ch_t :=
  mk_phys_ch (band p) (rch_type p) (last_sync_err p) (total_sync_err p)
    (has_frame_sync p) (frame_no p) (scr p) s (scr_confidence p) (scr_stat p)
    (data_len p) (data p).
Definition set_scr_confidence (p : phys_ch_t) (c : Z) : phys_ch_t :=
  mk_phys_ch (band p) (rch_type p) (last_sync_err p) (total_sync_err p)
    (has_frame_sync p) (frame_no p) (scr p) (scr_guess p) c (scr_stat p)
    (data_len p) (data p).
Definition set_scr_stat (p : phys_ch_t) (s : list Z) : phys_ch_t :=
  mk_phys_ch (band p) (rch_type p) (last_sync_err p) (total_sync_err p)
    (has_frame_sync p) (frame_no p) (scr p) (scr_guess p) (scr_confidence p) s
    (data_len p) (data p).
Definition set_buffer (p : phys_ch_t) (n : Z) (d : list uint8_t) : phys_ch_t :=
  mk_phys_ch (band p) (rch_type p) (last_sync_err p) (total_sync_err p)
    (has_frame_sync p) (frame_no p) (scr p) (scr_guess p) (scr_confidence p)
    (scr_stat p) n d.

(** The bits held by the buffer: the first [data_len] cells of [data]. *)
Definition buffer (p : phys_ch_t) : list uint8_t :=
  firstn (Z.to_nat (data_len p)) (data p).

(** ** Constant tables *)

Definition scramb_table : list uint8_t := [
    1; 1; 1; 1; 1; 1; 1; 0;
    1; 0; 1; 0; 1; 0; 0; 1;
    1; 0; 0; 1; 1; 1; 0; 1;
    1; 1; 0; 1; 0; 0; 1; 0;
    1; 1; 0; 0; 0; 1; 1; 0;
    1; 1; 1; 1; 0; 1; 1; 0;
    1; 0; 1; 1; 0; 1; 1; 0;
    0; 1; 0; 0; 1; 0; 0; 0;
    1; 1; 1; 0; 0; 0; 0; 1;
    0; 1; 1; 1; 1; 1; 0; 0;
    1; 0; 1; 0; 1; 1; 1; 0;
    0; 1; 1; 0; 1; 0; 0; 0;
    1; 0; 0; 1; 1; 1; 1; 0;
    0; 0; 1; 0; 1; 0; 0; 0;
    0; 1; 1; 0; 0; 0; 0; 0;
    1; 0; 0; 0; 0; 0; 0 ]%N.

Definition interleave_data_UHF : list uint8_t := [
    1; 77; 38; 114; 20; 96; 59; 135;
    3; 79; 41; 117; 23; 99; 62; 138;
    5; 81; 44; 120; 26; 102; 65; 141;
    8; 84; 47; 123; 29; 105; 68; 144;
    11; 87; 50; 126; 32; 108; 71; 147;
    14; 90; 53; 129; 35; 111; 74; 150;
    17; 93; 56; 132; 37; 112; 76; 148;
    2; 88; 40; 115; 19; 97; 58; 133;
    4; 75; 43; 118; 22; 100; 61; 136;
    7; 85; 46; 121; 25; 103; 64; 139;
    10; 82; 49; 124; 28; 106; 67; 142;
    13; 91; 52; 127; 31; 109; 73; 145;
    16; 94; 55; 130; 34; 113; 70; 151;
    0; 80; 39; 116; 21; 95; 57; 134;
    6; 78; 42; 119; 24; 98; 60; 137;
    9; 83; 45; 122; 27; 101; 63; 140;
    12; 86; 48; 125; 30; 104; 66; 143;
    15; 89; 51; 128; 33; 107; 69; 146;
    18; 92; 54; 131; 36; 110; 72; 149 ]%N.

Definition diff_precod_UHF : list Z := [
    1; 1; 1; 1; 1; 1; 1; 2;
    1; 1; 2; 1; 1; 2; 1; 1;
    2; 1; 1; 2; 1; 1; 2; 1;
    1; 2; 1; 1; 2; 1; 1; 2;
    1; 1; 2; 1; 1; 2; 1; 1;
    2; 1; 1; 2; 1; 1; 2; 1;
    1; 2; 1; 1; 2; 1; 1; 2;
    1; 1; 2; 1; 1; 2; 1; 1;
    2; 1; 1; 2; 1; 1; 2; 1;
    1; 2; 1; 1; 2; 1; 1; 1;
    1; 1; 1; 2; 1; 1; 2; 1;
    1; 2; 1; 1; 2; 1; 1; 2;
    1; 1; 2; 1; 1; 2; 1; 1;
    2; 1; 1; 2; 1; 1; 2; 1;
    1; 2; 1; 1; 2; 1; 1; 2;
    1; 1; 2; 1; 1; 2; 1; 1;
    2; 1; 1; 2; 1; 1; 2; 1;
    1; 2; 1; 1; 2; 1; 1; 2;
    1; 1; 2; 1; 1; 2; 1; 1 ].

(** The generator of the scrambling sequence, as the comment above
    [scramb_table] gives it: seven ones, then [s[k] = s[k-1] ^ s[k-7]].
    The sequence is built in reverse, most recent element first. *)
Fixpoint lfsr_extend (n : nat) (rev_s : list uint8_t) : list uint8_t :=
  match n with
  | O => rev_s
  | S n' => lfsr_extend n' (N.lxor (nth 0 rev_s 0%N) (nth 6 rev_s 0%N) :: rev_s)
  end.

Definition lfsr_sequence : list uint8_t :=
  rev (lfsr_extend 120 (repeat 1%N 7)).

(** ** Collaborators and header constants *)

(** What the code does to the outside: calls into the multiblock and
    segmentation layers, and the lines it prints. *)
Inductive event :=
| CallMultiblockReset
| CallSegmentationReset
| CallMultiblockProcess (df : decoded_frame_t) (fn : Z)
| PrintFrameSyncFound
| PrintFrameSyncLost
| PrintScrDetected (scr_max : Z)
| PrintErrDecode (frame_no : Z)
| PrintErrType (frame_no : Z)
| PrintErrCrc (frame_no : Z)
| PrintOk (frame_no fn1 fn0 asbx asby scr : Z) (payload : list uint8_t)
| PrintVhfNotImplemented
| PrintTrafficNotImplemented.

(** The constants of tetrapol.h, phys_ch.h and decoded_frame.h and the
    functions of multiblock.h, tpdu.h and decoded_frame.h used by phys_ch.c.
    The other layers keep state of their own ([world]);
    [multiblock_process] receives a pointer to the decoded frame and may
    write to it. *)
Class Externals := {
  FRAME_NO_UNKNOWN : Z;
  PHYS_CH_SCR_DETECT : Z;
  TETRAPOL_BAND_VHF : Z;
  TETRAPOL_BAND_UHF : Z;
  TETRAPOL_RCH_CONTROL : Z;
  TETRAPOL_RCH_TRAFFIC : Z;
  FRAME_TYPE_DATA : Z;
  world : Type;
  multiblock_reset : world -> world;
  segmentation_reset : world -> world;
  multiblock_process : world -> decoded_frame_t -> Z -> world * decoded_frame_t;
  decoded_frame_check_crc : decoded_frame_t -> Z -> bool
}.

Record env_t `{Externals} := mk_env {
  ext : world;
  trace : list event
}.

Definition emit `{Externals} (e : env_t) (ev : event) : env_t :=
  mk_env _ (ext e) (trace e ++ [ev]).

Definition call_multiblock_reset `{Externals} (e : env_t) : env_t :=
  mk_env _ (multiblock_reset (ext e)) (trace e ++ [CallMultiblockReset]).

Definition call_segmentation_reset `{Externals} (e : env_t) : env_t :=
  mk_env _ (segmentation_reset (ext e)) (trace e ++ [CallSegmentationReset]).

Definition call_multiblock_process `{Externals} (e : env_t) (df : decoded_frame_t)
  (fn : Z) : env_t * decoded_frame_t :=
  let '(w, df') := multiblock_process (ext e) df fn in
  (mk_env _ w (trace e ++ [CallMultiblockProcess df fn]), df').

(** ** Functions that need no collaborator *)

Definition set_last_sync_err (p : phys_ch_t) (l : Z) : phys_ch_t :=
  set_sync_errs p l (total_sync_err p).
Definition set_total_sync_err (p : phys_ch_t) (t : Z) : phys_ch_t :=
  set_sync_errs p (last_sync_err p) t.

Definition tetrapol_phys_ch_get_scr (p : phys_ch_t) : Z := scr p.

Definition tetrapol_phys_ch_set_scr (p : phys_ch_t) (s : Z) : phys_ch_t :=
  set_scr_stat (set_scr p s) (repeat 0 (Z.to_nat SCR_STAT_LEN)).

Definition tetrapol_phys_ch_get_scr_confidence (p : phys_ch_t) : Z :=
  scr_confidence p.

Definition tetrapol_phys_ch_set_scr_confidence (p : phys_ch_t) (c : Z) : phys_ch_t :=
  set_scr_confidence p c.

Fixpoint differential_dec (d : list uint8_t) (size : nat) (last_bit : uint8_t)
  : list uint8_t * uint8_t :=
  match size, d with
  | S size', x :: d' =>
      let last_bit := N.lxor x last_bit in
      let '(r, l) := differential_dec d' size' last_bit in
      (last_bit :: r, l)
  | _, _ => (d, last_bit)
  end.

Definition tetrapol_recv2 (p : phys_ch_t) (buf : list uint8_t) (len : Z)
  : phys_ch_t * Z :=
  let space := DATA_SIZE - data_len p in
  let len := if len >? space then space else len in
  (set_buffer p (data_len p + len) (memcpy (data p) (data_len p) buf 0 len), len).

Definition frame_dsync : list uint8_t := [1; 0; 1; 0; 0; 1; 1]%N.

(** [cmp_frame_sync(d + base)] *)
Definition cmp_frame_sync (d : list uint8_t) (base : Z) : Z :=
  for_loop 7 0
    (fun i sync_err =>
       if negb (N.eqb (ld8 frame_dsync i) (ld8 d (base + i + 1)))
       then sync_err + 1 else sync_err)
    0.

(** The [while] loop of [find_frame_sync]; [fuel] bounds its trip count. *)
Fixpoint find_frame_sync_loop (fuel : nat) (p : phys_ch_t) (offs sync_err : Z)
  : Z * Z :=
  match fuel with
  | O => (offs, sync_err)
  | S fuel' =>
      if offs + FRAME_LEN + FRAME_HDR_LEN <? data_len p then
        let sync_err :=
          cmp_frame_sync (data p) offs + cmp_frame_sync (data p) (offs + FRAME_LEN) in
        if sync_err <=? MAX_FRAME_SYNC_ERR then (offs, sync_err)
        else find_frame_sync_loop fuel' p (offs + 1) sync_err
      else (offs, sync_err)
  end.

Definition find_frame_sync (p : phys_ch_t) : phys_ch_t * Z :=
  let '(offs, sync_err) :=
    find_frame_sync_loop (Z.to_nat (data_len p)) p 0 (MAX_FRAME_SYNC_ERR + 1) in
  let n := data_len p - offs in
  let p := set_buffer p n (memmove (data p) 0 (data p) offs n) in
  if sync_err <=? MAX_FRAME_SYNC_ERR
  then (set_total_sync_err (set_last_sync_err p 0) 0, 1)
  else (p, 0).

(** [get_frame] from the store to [last_sync_err] onwards. *)
Definition get_frame_extract (p : phys_ch_t) (frame : frame_t) (sync_err : Z)
  : phys_ch_t * frame_t * Z :=
  let p := set_last_sync_err p sync_err in
  let fd := memcpy (f_data frame) 0 (data p) FRAME_HDR_LEN FRAME_DATA_LEN in
  let fd := fst (differential_dec fd (Z.to_nat FRAME_DATA_LEN) 0%N) in
  let n := data_len p - FRAME_LEN in
  let p := set_buffer p n (memmove (data p) 0 (data p) FRAME_LEN n) in
  (p, mk_frame (frame_no p) fd, 1).

Definition get_frame (p : phys_ch_t) (frame : frame_t) : phys_ch_t * frame_t * Z :=
  if data_len p <? FRAME_LEN then (p, frame, 0)
  else
    let sync_err := cmp_frame_sync (data p) 0 in
    if sync_err + last_sync_err p >? MAX_FRAME_SYNC_ERR then
      let p := set_total_sync_err p (1 + 2 * total_sync_err p) in
      if total_sync_err p >=? FRAME_LEN then (p, frame, -1)
      else get_frame_extract p frame sync_err
    else
      get_frame_extract (set_total_sync_err p 0) frame sync_err.

(** [channel_decoder(res + obase, err + obase, in + ibase, res_len)] *)
Definition channel_decoder (res err : list uint8_t) (obase : Z)
  (in_ : list uint8_t) (ibase res_len : Z) : list uint8_t * list uint8_t * Z :=
  let GET_IN_ x y := ld8 in_ (ibase + Z.rem (x + y) (2 * res_len)) in
  for_loop (Z.to_nat res_len) 0
    (fun i '(res, err, errs) =>
       let res := st res (obase + i) (N.lxor (GET_IN_ (2 * i) 2) (GET_IN_ (2 * i) 3)) in
       let err := st err (obase + i)
                    (N.lxor (N.lxor (GET_IN_ (2 * i) 5) (GET_IN_ (2 * i) 6))
                            (GET_IN_ (2 * i) 7)) in
       let err := st err (obase + i) (N.lxor (ld8 err (obase + i)) (ld8 res (obase + i))) in
       (res, err, errs + Z.of_N (ld8 err (obase + i))))
    (res, err, 0).

Definition frame_decode_data (f : frame_t) (df : decoded_frame_t)
  : decoded_frame_t * Z :=
  let '(d, e, errs) := channel_decoder (df_data df) (df_err df) 0 (f_data f) 0 26 in
  let '(d, e, errs') := channel_decoder d e 26 (f_data f) (2 * 26) 50 in
  (mk_decoded_frame (f_frame_no f) d e, errs + errs').

Definition frame_deinterleave (f : frame_t) (int_table : list uint8_t) : frame_t :=
  let tmp :=
    memcpy (repeat 0%N (Z.to_nat FRAME_DATA_LEN)) 0 (f_data f) 0 FRAME_DATA_LEN in
  mk_frame (f_frame_no f)
    (for_loop (Z.to_nat FRAME_DATA_LEN) 0
       (fun j d => st d j (ld8 tmp (Z.of_N (ld8 int_table j))))
       (f_data f)).

Definition frame_diff_dec (f : frame_t) : frame_t :=
  mk_frame (f_frame_no f)
    (for_loop_down (Z.to_nat (FRAME_DATA_LEN - 1)) (FRAME_DATA_LEN - 1)
       (fun j d => st d j (N.lxor (ld8 d j) (ld8 d (j - ldi diff_precod_UHF j))))
       (f_data f)).

Definition frame_descramble (f : frame_t) (scr : Z) : frame_t :=
  if scr =? 0 then f
  else
    mk_frame (f_frame_no f)
      (for_loop (Z.to_nat FRAME_DATA_LEN) 0
         (fun k d => st d k (N.lxor (ld8 d k) (ld8 scramb_table (Z.rem (k + scr) 127))))
         (f_data f)).

(** ** Functions that use the collaborators *)

Section Receiver.
Context `{E : Externals}.

(** [malloc] is taken to succeed: the [NULL] return on exhausted memory is
    not modelled, and the two messages on stderr are not recorded. *)
Definition tetrapol_phys_ch_create (band_ rch_type_ : Z) : option phys_ch_t :=
  if negb (band_ =? TETRAPOL_BAND_VHF) && negb (band_ =? TETRAPOL_BAND_UHF) then None
  else if negb (rch_type_ =? TETRAPOL_RCH_CONTROL)
          && negb (rch_type_ =? TETRAPOL_RCH_TRAFFIC) then None
  else
    Some (mk_phys_ch band_ rch_type_ 0 0 false FRAME_NO_UNKNOWN PHYS_CH_SCR_DETECT
            0 50 (repeat 0 (Z.to_nat SCR_STAT_LEN)) 0
            (repeat 0%N (Z.to_nat DATA_SIZE))).

(** The part of the body of the first loop of [detect_scr] that runs the
    pipeline on a copy of the frame, for the candidate [scr_]. *)
Definition scr_trial (band_ : Z) (f : frame_t) (scr_ : Z) : decoded_frame_t * Z :=
  let f_ := f in
  let f_ := frame_descramble f_ scr_ in
  let f_ :=
    if band_ =? TETRAPOL_BAND_VHF then f_
    else frame_deinterleave (frame_diff_dec f_) interleave_data_UHF in
  frame_decode_data f_ df_local.

(** [scr_stat[scr] -= 2; if (scr_stat[scr] < 0) scr_stat[scr] = 0;] *)
Definition scr_stat_penalise (stat : list Z) (scr_ : Z) : list Z :=
  let stat := st stat scr_ (ldi stat scr_ - 2) in
  if ldi stat scr_ <? 0 then st stat scr_ 0 else stat.

(** The first loop of [detect_scr]. *)
Definition detect_scr_stats (p : phys_ch_t) (f : frame_t) : list Z :=
  for_loop (Z.to_nat SCR_STAT_LEN) 0
    (fun scr_ stat =>
       let '(df, errs) := scr_trial (band p) f scr_ in
       if negb (errs =? 0) then scr_stat_penalise stat scr_
       else if negb (decoded_frame_check_crc df FRAME_TYPE_DATA)
            then scr_stat_penalise stat scr_
            else st stat scr_ (ldi stat scr_ + 1))
    (scr_stat p).

(** The search for the two best keys: [(scr_max, scr_max2)]. *)
Definition detect_scr_best (stat : list Z) : Z * Z :=
  let '(scr_max, scr_max2) := if ldi stat 0 <? ldi stat 1 then (1, 0) else (0, 1) in
  for_loop (Z.to_nat (SCR_STAT_LEN - 2)) 2
    (fun scr_ '(scr_max, scr_max2) =>
       if ldi stat scr_ >=? ldi stat scr_max then (scr_, scr_max)
       else (scr_max, scr_max2))
    (scr_max, scr_max2).

Definition detect_scr (p : phys_ch_t) (e : env_t) (f : frame_t) : phys_ch_t * env_t :=
  let p := set_scr_stat p (detect_scr_stats p f) in
  let '(scr_max, scr_max2) := detect_scr_best (scr_stat p) in
  let '(p, e) :=
    if ldi (scr_stat p) scr_max - scr_confidence p >? ldi (scr_stat p) scr_max2
    then (set_scr p scr_max, emit e (PrintScrDetected scr_max))
    else (p, e) in
  (set_scr_guess p scr_max, e).

Definition process_frame_traffic_ch (p : phys_ch_t) (e : env_t) (f : frame_t)
  : env_t * frame_t * Z :=
  (emit e PrintTrafficNotImplemented, f, -1).

Definition process_frame_cch (p : phys_ch_t) (e : env_t) (f : frame_t)
  : env_t * frame_t * Z :=
  let scr_ := if scr p =? PHYS_CH_SCR_DETECT then scr_guess p else scr p in
  let f := frame_descramble f scr_ in
  if band p =? TETRAPOL_BAND_VHF then
    (emit e PrintVhfNotImplemented, f, -1)
  else
    let f := frame_diff_dec f in
    let f := frame_deinterleave f interleave_data_UHF in
    let '(df, errs) := frame_decode_data f df_local in
    if negb (errs =? 0) then
      let e := emit e (PrintErrDecode (f_frame_no f)) in
      let e := call_multiblock_reset e in
      let e := call_segmentation_reset e in
      (e, f, 0)
    else if negb (Z.of_N (ld8 (df_data df) 0) =? FRAME_TYPE_DATA) then
      let e := emit e (PrintErrType (f_frame_no f)) in
      let e := call_multiblock_reset e in
      let e := call_segmentation_reset e in
      (e, f, 0)
    else if negb (decoded_frame_check_crc df FRAME_TYPE_DATA) then
      let e := emit e (PrintErrCrc (f_frame_no f)) in
      let e := call_multiblock_reset e in
      let e := call_segmentation_reset e in
      (e, f, 0)
    else
      let asbx := Z.of_N (ld8 (df_data df) 67) in
      let asby := Z.of_N (ld8 (df_data df) 68) in
      let fn0 := Z.of_N (ld8 (df_data df) 1) in
      let fn1 := Z.of_N (ld8 (df_data df) 2) in
      let e := emit e (PrintOk (df_frame_no df) fn1 fn0 asbx asby scr_
                         (firstn 64 (skipn 3 (df_data df)))) in
      let '(e, df) := call_multiblock_process e df (2 * fn1 + fn0) in
      (e, mk_frame (df_frame_no df) (f_data f), 0).

Definition process_frame (p : phys_ch_t) (e : env_t) (f : frame_t)
  : phys_ch_t * env_t * frame_t * Z :=
  let '(p, e) :=
    if scr p =? PHYS_CH_SCR_DETECT then detect_scr p e f else (p, e) in
  let '(e, f, r) :=
    if rch_type p =? TETRAPOL_RCH_CONTROL then process_frame_cch p e f
    else process_frame_traffic_ch p e f in
  (p, e, f, r).

(** One turn of the frame loop of [tetrapol_phys_ch_process]: the call of
    [get_frame] and, when it yields a frame, the loop body.  The last
    component is [r]. *)
Definition process_turn (p : phys_ch_t) (e : env_t) (frame : frame_t)
  : phys_ch_t * env_t * frame_t * Z :=
  let '(p, frame, r) := get_frame p frame in
  if r >? 0 then
    let '(p, e, frame, _) := process_frame p e frame in
    let p :=
      if negb (f_frame_no frame =? FRAME_NO_UNKNOWN)
      then set_frame_no p (Z.rem (f_frame_no frame + 1) 200)
      else p in
    (p, e, frame, r)
  else (p, e, frame, r).

(** The frame loop; it ends with [r <= 0].  [None]: the bound on the trip
    count was too small. *)
Fixpoint process_loop (fuel : nat) (p : phys_ch_t) (e : env_t) (frame : frame_t)
  : option (phys_ch_t * env_t * Z) :=
  match fuel with
  | O => None
  | S fuel' =>
      let '(p, e, frame, r) := process_turn p e frame in
      if r >? 0 then process_loop fuel' p e frame else Some (p, e, r)
  end.

(** [tetrapol_phys_ch_process] up to the frame loop: the acquisition of the
    frame synchronisation.  The last component tells whether the function
    goes on to the frame loop ([true]) or has returned 0 ([false]). *)
Definition process_acquire (p : phys_ch_t) (e : env_t) : phys_ch_t * env_t * bool :=
  if negb (has_frame_sync p) then
    let '(p, found) := find_frame_sync p in
    let p := set_has_frame_sync p (negb (found =? 0)) in
    if negb (has_frame_sync p) then (p, e, false)
    else
      let e := emit e PrintFrameSyncFound in
      let p := set_frame_no p FRAME_NO_UNKNOWN in
      let e := call_multiblock_reset e in
      let e := call_segmentation_reset e in
      (p, e, true)
  else (p, e, true).

(** The frame loop and what follows it. *)
Definition process_track (p : phys_ch_t) (e : env_t) : option (phys_ch_t * env_t * Z) :=
  match process_loop (S (Z.to_nat (data_len p))) p e frame_local with
  | None => None
  | Some (p, e, r) =>
      if r =? 0 then Some (p, e, 0)
      else Some (set_has_frame_sync p false, emit e PrintFrameSyncLost, 0)
  end.

Definition tetrapol_phys_ch_process (p : phys_ch_t) (e : env_t)
  : option (phys_ch_t * env_t * Z) :=
  let '(p, e, go) := process_acquire p e in
  if go then process_track p e else Some (p, e, 0).

End Receiver.

(** ** Notions used to state the properties *)

(** The layout of the struct: array sizes, and the fill level within the
    array. *)
Definition buffer_ok (p : phys_ch_t) : Prop :=
  length (data p) = Z.to_nat DATA_SIZE /\ 0 <= data_len p <= DATA_SIZE.

Definition scores_ok (p : phys_ch_t) : Prop :=
  length (scr_stat p) = Z.to_nat SCR_STAT_LEN /\
  forall k, 0 <= k < SCR_STAT_LEN -> 0 <= ldi (scr_stat p) k.

(** Combined error of the two synchronisation sequences at offset [o]. *)
Definition sync_err_at (p : phys_ch_t) (o : Z) : Z :=
  cmp_frame_sync (data p) o + cmp_frame_sync (data p) (o + FRAME_LEN).

(** [o] is an offset the scan visits and accepts. *)
Definition sync_at (p : phys_ch_t) (o : Z) : Prop :=
  0 <= o /\ o + FRAME_LEN + FRAME_HDR_LEN < data_len p /\
  sync_err_at p o <= MAX_FRAME_SYNC_ERR.

Definition first_sync_at (p : phys_ch_t) (o : Z) : Prop :=
  sync_at p o /\ forall o', 0 <= o' < o -> ~ sync_at p o'.

(** Synchronisation error of the [i]-th frame held by the buffer, and the
    test [get_frame] will make on it: its error plus the error of the frame
    before it (or [last_sync_err] for the first). *)
Definition frame_sync_err (p : phys_ch_t) (i : Z) : Z :=
  cmp_frame_sync (data p) (FRAME_LEN * i).

Definition frame_fails_sum_test (p : phys_ch_t) (i : Z) : Prop :=
  (if i =? 0 then last_sync_err p else frame_sync_err p (i - 1))
  + frame_sync_err p i > MAX_FRAME_SYNC_ERR.

(** The input cell [GET_IN_(2*i, y)] of a call of [channel_decoder] on
    [in_ + ibase], the decoded bit and the erasure flag at position [i]. *)
Definition get_in (in_ : list uint8_t) (ibase res_len i y : Z) : uint8_t :=
  ld8 in_ (ibase + Z.rem (2 * i + y) (2 * res_len)).
Definition res_at (in_ : list uint8_t) (ibase res_len i : Z) : uint8_t :=
  N.lxor (get_in in_ ibase res_len i 2) (get_in in_ ibase res_len i 3).
Definition err_at (in_ : list uint8_t) (ibase res_len i : Z) : uint8_t :=
  N.lxor (N.lxor (N.lxor (get_in in_ ibase res_len i 5) (get_in in_ ibase res_len i 6))
                 (get_in in_ ibase res_len i 7))
         (res_at in_ ibase res_len i).

(** The indices [0 .. n-1]. *)
Definition zrange (n : nat) : list Z := map Z.of_nat (seq 0 n).

(** [q] is what tracking makes of [p] after [n] frames that all failed the
    sum test: the counter has doubled [n] times, [n] frames have left the
    buffer. *)
Definition run_state (p : phys_ch_t) (n : Z) (q : phys_ch_t) : Prop :=
  total_sync_err q = 2 ^ n - 1 /\
  data_len q = data_len p - FRAME_LEN * n /\
  length (data q) = length (data p) /\
  (forall j, 0 <= j < data_len q -> ld8 (data q) j = ld8 (data p) (j + FRAME_LEN * n)) /\
  last_sync_err q = (if n =? 0 then last_sync_err p else frame_sync_err p (n - 1)) /\
  has_frame_sync q = has_frame_sync p.

(** Sum of the erasure flags. *)
Definition sum_flags (l : list uint8_t) : Z :=
  fold_right (fun b acc => Z.of_N b + acc) 0 l.

(** Position of [x] in a table (its length when absent). *)
Fixpoint index_of (x : uint8_t) (l : list uint8_t) : nat :=
  match l with
  | [] => O
  | y :: l' => if N.eqb x y then O else S (index_of x l')
  end.

(** The table that undoes [interleave_data_UHF]. *)
Definition interleave_data_UHF_inv : list uint8_t :=
  map (fun i => N.of_nat (index_of (N.of_nat i) interleave_data_UHF))
      (seq 0 (Z.to_nat FRAME_DATA_LEN)).

Fixpoint nodupb (l : list uint8_t) : bool :=
  match l with
  | [] => true
  | x :: l' => negb (existsb (N.eqb x) l') && nodupb l'
  end.

Section Runs.
Context `{E : Externals}.

(** [n] turns of the frame loop, one after the other. *)
Fixpoint process_turns (n : nat) (p : phys_ch_t) (e : env_t) (frame : frame_t)
  : phys_ch_t * env_t * frame_t * Z :=
  match n with
  | O => (p, e, frame, 1)
  | S n' =>
      let '(p, e, frame, _) := process_turns n' p e frame in
      process_turn p e frame
  end.

Definition turn_state (x : phys_ch_t * env_t * frame_t * Z) : phys_ch_t :=
  fst (fst (fst x)).
Definition turn_env (x : phys_ch_t * env_t * frame_t * Z) : env_t :=
  snd (fst (fst x)).
Definition turn_r (x : phys_ch_t * env_t * frame_t * Z) : Z := snd x.

(** One call of the public interface on an existing channel. *)
Inductive step : phys_ch_t -> phys_ch_t -> Prop :=
| step_set_scr p s : step p (tetrapol_phys_ch_set_scr p s)
| step_set_scr_confidence p c : step p (tetrapol_phys_ch_set_scr_confidence p c)
| step_recv p buf len :
    0 <= len <= Z.of_nat (length buf) -> step p (fst (tetrapol_recv2 p buf len))
| step_process p e p' e' r :
    tetrapol_phys_ch_process p e = Some (p', e', r) -> step p p'.

(** The channels a caller can hold. *)
Inductive reachable : phys_ch_t -> Prop :=
| reach_create b t p : tetrapol_phys_ch_create b t = Some p -> reachable p
| reach_step p p' : reachable p -> step p p' -> reachable p'.

(** The score of key [k] after a frame, from its score before. *)
Definition score_update (band_ : Z) (f : frame_t) (stat : list Z) (k : Z) : Z :=
  let '(df, errs) := scr_trial band_ f k in
  if (errs >? 0) || negb (decoded_frame_check_crc df FRAME_TYPE_DATA)
  then Z.max 0 (ldi stat k - 2)
  else ldi stat k + 1.

End Runs.

(** ** A sample of the collaborators, for concrete runs

    The header values follow the spec where it gives them (VHF = 0,
    UHF = 1); the other layers are inert and every CRC passes. *)
#[local] Instance sample_externals : Externals := {|
  FRAME_NO_UNKNOWN := -1;
  PHYS_CH_SCR_DETECT := -1;
  TETRAPOL_BAND_VHF := 0;
  TETRAPOL_BAND_UHF := 1;
  TETRAPOL_RCH_CONTROL := 1;
  TETRAPOL_RCH_TRAFFIC := 2;
  FRAME_TYPE_DATA := 1;
  world := unit;
  multiblock_reset := fun w => w;
  segmentation_reset := fun w => w;
  multiblock_process := fun w df _ => (w, df);
  decoded_frame_check_crc := fun _ _ => true
|}.

Definition sample_env : env_t := mk_env _ tt [].

(** A freshly created UHF control channel. *)
Definition sample_channel : phys_ch_t :=
  mk_phys_ch 1 1 0 0 false (-1) (-1) 0 50 (repeat 0 128) 0 (repeat 0%N 1600).

(** The eight header bits of a frame: the seed bit and the synchronisation
    sequence; a raw frame with a given header and an all-zero payload; a
    channel after the intake of some bits. *)
Definition sync_header : list N := [0; 1; 0; 1; 0; 0; 1; 1]%N.
Definition raw_frame (hdr : list N) : list N := hdr ++ repeat 0%N 152.
Definition fill (p : phys_ch_t) (bits : list N) : phys_ch_t :=
  fst (tetrapol_recv2 p bits (Z.of_nat (length bits))).

(** Three stray bits, then two frames; the second header has one wrong bit
    in the first stream and two in the second. *)
Definition one_error_bits : list N :=
  [0; 0; 0]%N ++ raw_frame sync_header
  ++ raw_frame [0; 1; 0; 1; 0; 0; 1; 0]%N ++ repeat 0%N 20.
Definition two_error_bits : list N :=
  [0; 0; 0]%N ++ raw_frame sync_header
  ++ raw_frame [0; 1; 0; 1; 0; 0; 0; 0]%N ++ repeat 0%N 20.

(** A synchronised channel with a fixed key whose buffer holds eight frames
    with four synchronisation errors each, and one that has already seen
    seven of them and holds the eighth. *)
Definition noisy_channel : phys_ch_t :=
  set_has_frame_sync
    (fill (tetrapol_phys_ch_set_scr sample_channel 0) (repeat 0%N 1280)) true.
Definition failing_channel : phys_ch_t :=
  set_total_sync_err
    (set_has_frame_sync
       (fill (tetrapol_phys_ch_set_scr sample_channel 0) (repeat 0%N 160)) true)
    127.

(** A channel in detection whose keys 0 and 2 are close rivals, and a
    fresh channel that asks for no margin. *)
Definition close_race_channel : phys_ch_t :=
  set_scr_stat sample_channel (102 :: 2 :: 92 :: repeat 0 125).
Definition eager_channel : phys_ch_t :=
  tetrapol_phys_ch_set_scr_confidence sample_channel 0.

(** A payload with a single one, and the all-zero payload. *)
Definition sample_frame : frame_t := mk_frame (-1) (1%N :: repeat 0%N 151).
Definition zero_frame : frame_t := mk_frame (-1) (repeat 0%N 152).

(** ** Further tables and notions *)

(** The voice table of phys_ch.c; no function of the file uses it yet. *)
Definition interleave_voice_UHF : list uint8_t := [
    1; 77; 38; 114; 20; 96; 59; 135;
    3; 79; 41; 117; 23; 99; 62; 138;
    5; 81; 44; 120; 26; 102; 65; 141;
    8; 84; 47; 123; 29; 105; 68; 144;
    11; 87; 50; 126; 32; 108; 71; 147;
    14; 90; 53; 129; 35; 111; 74; 150;
    17; 93; 56; 132; 37; 113; 73; 4;
    0; 76; 40; 119; 19; 95; 58; 137;
    151; 80; 42; 115; 24; 100; 60; 133;
    12; 88; 48; 121; 30; 106; 66; 139;
    18; 91; 51; 124; 28; 104; 67; 146;
    10; 89; 52; 131; 34; 110; 70; 149;
    13; 97; 57; 130; 36; 112; 75; 148;
    6; 82; 39; 116; 16; 92; 55; 134;
    2; 78; 43; 122; 22; 98; 61; 140;
    9; 85; 45; 118; 27; 103; 63; 136;
    15; 83; 46; 125; 25; 101; 64; 143;
    7; 86; 49; 128; 31; 107; 69; 142;
    21; 94; 54; 127; 33; 109; 72; 145 ]%N.

(** The generator of [diff_precod_UHF], as the comment above the table
    gives it: 2 at the positions of [pre_cod], 1 elsewhere. *)
Definition pre_cod : list Z := [
    7; 10; 13; 16; 19; 22; 25; 28; 31; 34; 37; 40;
    43; 46; 49; 52; 55; 58; 61; 64; 67; 70; 73; 76;
    83; 86; 89; 92; 95; 98; 101; 104; 107; 110; 113; 116;
    119; 122; 125; 128; 131; 134; 137; 140; 143; 146; 149 ].

Definition diff_precod_script : list Z :=
  map (fun i => 1 + (if existsb (Z.eqb i) pre_cod then 1 else 0)) (zrange 152).

(** A deinterleaving table that is fit for a 152-bit payload: 152 entries,
    all below 152, none twice. *)
Definition table_ok (tb : list uint8_t) : Prop :=
  length tb = 152%nat /\
  forallb (fun t => (t <? 152)%N) tb = true /\
  nodupb tb = true.

(** The table that undoes a table. *)
Definition invert_table (tb : list uint8_t) : list uint8_t :=
  map (fun i => N.of_nat (index_of (N.of_nat i) tb)) (seq 0 152).

(** Cells that hold bits. *)
Definition all_bits (l : list uint8_t) : Prop := Forall (fun b => (b <= 1)%N) l.

(** Cell by cell XOR of two arrays. *)
Definition xor_cells (a b : list uint8_t) : list uint8_t :=
  map (fun xy => N.lxor (fst xy) (snd xy)) (combine a b).

(** What key [k] XORs into payload bit [i]: nothing for key 0. *)
Definition scramble_bit (k i : Z) : uint8_t :=
  if k =? 0 then 0%N else ld8 scramb_table (Z.rem (i + k) 127).

(** The first of the payload bits 0..6 that two keys treat differently
    (7 when there is none). *)
Definition first_difference (k1 k2 : Z) : Z :=
  for_loop_down 7 6
    (fun i acc => if N.eqb (scramble_bit k1 i) (scramble_bit k2 i) then acc else i) 7.

(** A payload that the control channel decodes under key 0: no error, a
    first decoded bit of 1, block index 1. *)
Definition data_frame : frame_t := mk_frame (-1) [
    0; 0; 0; 0; 0; 0; 0; 0; 0; 0; 0; 0; 0; 0; 0; 0; 0; 0; 0;
    0; 0; 0; 0; 0; 0; 0; 0; 0; 0; 0; 0; 0; 0; 0; 0; 0; 0; 0;
    0; 0; 0; 0; 0; 0; 0; 0; 0; 0; 0; 0; 0; 0; 0; 0; 0; 0; 1;
    1; 1; 1; 1; 1; 1; 1; 1; 1; 1; 1; 1; 1; 1; 1; 1; 1; 1; 1;
    1; 1; 1; 0; 0; 1; 1; 1; 1; 1; 1; 0; 0; 0; 1; 1; 1; 1; 1;
    1; 0; 0; 0; 0; 0; 0; 1; 1; 1; 0; 0; 0; 0; 0; 0; 1; 1; 1;
    0; 0; 0; 1; 1; 1; 1; 1; 1; 0; 0; 0; 1; 1; 1; 1; 1; 1; 1;
    1; 1; 1; 1; 1; 0; 0; 0; 1; 1; 1; 1; 1; 1; 0; 0; 0; 1; 1 ]%N.

(** A UHF traffic channel that has taken in three stray bits and two
    frames. *)
Definition traffic_channel : phys_ch_t :=
  fill (mk_phys_ch 1 2 0 0 false (-1) (-1) 0 50 (repeat 0 128) 0 (repeat 0%N 1600))
    one_error_bits.

(** The same channel with the frame counter at its last value. *)
Definition counting_channel : phys_ch_t := set_frame_no traffic_channel 199.

(** A frame handed to the multiblock layer. *)
Definition is_delivery (ev : event) : bool :=
  match ev with CallMultiblockProcess _ _ => true | _ => false end.

(** * Properties *)

(** ** Arrays *)

Lemma length_upd_nat {A} (a : list A) n v : length (upd_nat a n v) = length a.
Proof.
  revert n; induction a as [|h t IH]; intros [|n]; simpl; auto.
Qed.

Lemma length_st {A} (a : list A) i v : length (st a i v) = length a.
Proof.
  unfold st; destruct (i <? 0); auto using length_upd_nat.
Qed.

Lemma nth_upd_nat_same {A} (d : A) a n v :
  (n < length a)%nat -> nth n (upd_nat a n v) d = v.
Proof.
  revert n; induction a as [|h t IH]; intros [|n] Hn; simpl in *; try lia; auto.
  apply IH; lia.
Qed.

Lemma nth_upd_nat_other {A} (d : A) a n m v :
  n <> m -> nth m (upd_nat a n v) d = nth m a d.
Proof.
  revert n m; induction a as [|h t IH]; intros [|n] [|m] Hn; simpl; auto.
  contradiction.
Qed.

Lemma ld_st_same {A} (d : A) a i v :
  0 <= i < Z.of_nat (length a) -> ld d (st a i v) i = v.
Proof.
  intros Hi; unfold ld, st.
  destruct (i <? 0) eqn:Hneg; [apply Z.ltb_lt in Hneg; lia|].
  apply nth_upd_nat_same; lia.
Qed.

Lemma ld_st_other {A} (d : A) a i j v :
  i <> j -> ld d (st a i v) j = ld d a j.
Proof.
  intros Hij; unfold ld, st.
  destruct (j <? 0) eqn:Hj; auto.
  destruct (i <? 0) eqn:Hi; auto.
  apply Z.ltb_ge in Hj, Hi.
  apply nth_upd_nat_other; lia.
Qed.

Lemma ld_nth {A} (d : A) a (n : nat) : ld d a (Z.of_nat n) = nth n a d.
Proof.
  unfold ld. destruct (Z.of_nat n <? 0) eqn:H; [apply Z.ltb_lt in H; lia|].
  now rewrite Nat2Z.id.
Qed.

Lemma ld_ext {A} (d : A) a b :
  length a = length b ->
  (forall i, 0 <= i < Z.of_nat (length a) -> ld d a i = ld d b i) ->
  a = b.
Proof.
  intros Hlen H. apply nth_ext with (d := d) (d' := d); auto.
  intros n Hn. rewrite <- !ld_nth. apply H; lia.
Qed.

Lemma ld_app_l {A} (d : A) a b i :
  0 <= i < Z.of_nat (length a) -> ld d (a ++ b) i = ld d a i.
Proof.
  intros Hi; unfold ld. destruct (i <? 0); auto. apply app_nth1; lia.
Qed.

Lemma ld_app_r {A} (d : A) a b i :
  Z.of_nat (length a) <= i -> ld d (a ++ b) i = ld d b (i - Z.of_nat (length a)).
Proof.
  intros Hi; unfold ld.
  destruct (i <? 0) eqn:H1; [apply Z.ltb_lt in H1; lia|].
  destruct (i - Z.of_nat (length a) <? 0) eqn:H2; [apply Z.ltb_lt in H2; lia|].
  rewrite app_nth2 by lia. f_equal; lia.
Qed.

Lemma ld_firstn {A} (d : A) a n i :
  0 <= i < Z.of_nat n -> ld d (firstn n a) i = ld d a i.
Proof.
  intros Hi; unfold ld. destruct (i <? 0); auto.
  apply nth_firstn_lt || (rewrite nth_firstn; destruct (Z.to_nat i <? n)%nat eqn:Hlt;
    [reflexivity | apply Nat.ltb_ge in Hlt; lia]).
Qed.

Lemma ld_skipn {A} (d : A) a n i :
  0 <= i -> ld d (skipn n a) i = ld d a (i + Z.of_nat n).
Proof.
  intros Hi; unfold ld.
  destruct (i <? 0) eqn:H1; [apply Z.ltb_lt in H1; lia|].
  destruct (i + Z.of_nat n <? 0) eqn:H2; [apply Z.ltb_lt in H2; lia|].
  rewrite nth_skipn. f_equal; lia.
Qed.

Lemma ld_map {A B} (d : A) (d' : B) (g : A -> B) l i :
  0 <= i < Z.of_nat (length l) -> ld d' (map g l) i = g (ld d l i).
Proof.
  intros Hi. unfold ld. destruct (i <? 0) eqn:H; [apply Z.ltb_lt in H; lia|].
  rewrite nth_indep with (d' := g d) by (rewrite length_map; lia).
  apply map_nth.
Qed.

Lemma ld_of_N {A} (d : A) a (t : N) : ld d a (Z.of_N t) = nth (N.to_nat t) a d.
Proof.
  unfold ld. destruct (Z.of_N t <? 0) eqn:H; [apply Z.ltb_lt in H; lia|].
  f_equal. lia.
Qed.

(** ** Loops *)

Lemma for_loop_inv {T} (P : Z -> T -> Prop) n lo (body : Z -> T -> T) s :
  P lo s ->
  (forall i s, lo <= i < lo + Z.of_nat n -> P i s -> P (i + 1) (body i s)) ->
  P (lo + Z.of_nat n) (for_loop n lo body s).
Proof.
  revert lo s; induction n as [|n IH]; intros lo s H0 Hstep.
  - simpl. now rewrite Z.add_0_r.
  - cbn [for_loop]. replace (lo + Z.of_nat (S n)) with ((lo + 1) + Z.of_nat n) by lia.
    apply IH.
    + apply Hstep; [lia | assumption].
    + intros i s' Hi. apply Hstep. lia.
Qed.

Lemma for_loop_down_inv {T} (P : Z -> T -> Prop) n hi (body : Z -> T -> T) s :
  P hi s ->
  (forall j s, hi - Z.of_nat n < j <= hi -> P j s -> P (j - 1) (body j s)) ->
  P (hi - Z.of_nat n) (for_loop_down n hi body s).
Proof.
  revert hi s; induction n as [|n IH]; intros hi s H0 Hstep.
  - simpl. now rewrite Z.sub_0_r.
  - cbn [for_loop_down].
    replace (hi - Z.of_nat (S n)) with ((hi - 1) - Z.of_nat n) by lia.
    apply IH.
    + apply Hstep; [lia | assumption].
    + intros j s' Hj. apply Hstep. lia.
Qed.

(** A property checked on every index below a bound. *)
Lemma range_check (p : Z -> bool) n :
  forallb (fun i => p (Z.of_nat i)) (seq 0 n) = true ->
  forall k, 0 <= k < Z.of_nat n -> p k = true.
Proof.
  intros H k Hk. rewrite forallb_forall in H.
  specialize (H (Z.to_nat k)). rewrite Z2Nat.id in H by lia.
  apply H, in_seq. lia.
Qed.

Lemma memcpy_whole dst src n :
  length dst = n -> length src = n ->
  memcpy dst 0 src 0 (Z.of_nat n) = src.
Proof.
  intros Hd Hs. unfold memcpy. rewrite Z.add_0_l, Nat2Z.id. simpl.
  rewrite firstn_all2 by lia. rewrite skipn_all2 by lia. apply app_nil_r.
Qed.

(** ** Deinterleaving *)

Lemma nodupb_sound l : nodupb l = true -> NoDup l.
Proof.
  induction l as [|x l IH]; simpl; intros H; constructor.
  - apply andb_prop in H as [H _]. intros Hin.
    assert (Hex : existsb (N.eqb x) l = true).
    { apply existsb_exists. exists x. split; [assumption | apply N.eqb_refl]. }
    rewrite Hex in H. discriminate.
  - apply IH. now apply andb_prop in H as [_ H].
Qed.

Lemma interleave_data_UHF_length : length interleave_data_UHF = 152%nat.
Proof. reflexivity. Qed.

Lemma interleave_data_UHF_inv_length : length interleave_data_UHF_inv = 152%nat.
Proof. reflexivity. Qed.

Lemma interleave_data_UHF_in_range k :
  0 <= k < 152 -> 0 <= Z.of_N (ld8 interleave_data_UHF k) < 152.
Proof.
  intros Hk.
  assert (H := range_check (fun i => Z.of_N (ld8 interleave_data_UHF i) <? 152) 152
                 eq_refl k Hk).
  apply Z.ltb_lt in H. lia.
Qed.

Lemma interleave_data_UHF_inv_in_range k :
  0 <= k < 152 -> 0 <= Z.of_N (ld8 interleave_data_UHF_inv k) < 152.
Proof.
  intros Hk.
  assert (H := range_check (fun i => Z.of_N (ld8 interleave_data_UHF_inv i) <? 152) 152
                 eq_refl k Hk).
  apply Z.ltb_lt in H. lia.
Qed.

Lemma interleave_inv_l k :
  0 <= k < 152 ->
  Z.of_N (ld8 interleave_data_UHF_inv (Z.of_N (ld8 interleave_data_UHF k))) = k.
Proof.
  intros Hk.
  assert (H := range_check
    (fun i => Z.of_N (ld8 interleave_data_UHF_inv (Z.of_N (ld8 interleave_data_UHF i))) =? i)
    152 eq_refl k Hk).
  now apply Z.eqb_eq in H.
Qed.

Lemma interleave_inv_r k :
  0 <= k < 152 ->
  Z.of_N (ld8 interleave_data_UHF (Z.of_N (ld8 interleave_data_UHF_inv k))) = k.
Proof.
  intros Hk.
  assert (H := range_check
    (fun i => Z.of_N (ld8 interleave_data_UHF (Z.of_N (ld8 interleave_data_UHF_inv i))) =? i)
    152 eq_refl k Hk).
  now apply Z.eqb_eq in H.
Qed.

Lemma interleave_data_UHF_perm :
  Permutation interleave_data_UHF (map N.of_nat (seq 0 152)).
Proof.
  apply NoDup_Permutation_bis.
  - apply nodupb_sound. reflexivity.
  - rewrite length_map, length_seq. reflexivity.
  - intros t Ht. apply In_nth with (d := 0%N) in Ht as [n [Hn Ht]].
    rewrite interleave_data_UHF_length in Hn.
    assert (Hr := interleave_data_UHF_in_range (Z.of_nat n) ltac:(lia)).
    rewrite ld_nth, Ht in Hr.
    apply in_map_iff. exists (N.to_nat t). split; [apply N2Nat.id|].
    apply in_seq. lia.
Qed.

(** What the loop of [frame_deinterleave] leaves in the frame. *)
Lemma frame_deinterleave_ld f tb :
  length (f_data f) = 152%nat ->
  let f' := frame_deinterleave f tb in
  f_frame_no f' = f_frame_no f /\
  length (f_data f') = 152%nat /\
  forall j, 0 <= j < 152 ->
    ld8 (f_data f') j = ld8 (f_data f) (Z.of_N (ld8 tb j)).
Proof.
  intros Hlen. unfold frame_deinterleave. cbn [f_frame_no f_data].
  split; [reflexivity|].
  change (Z.to_nat FRAME_DATA_LEN) with 152%nat.
  change FRAME_DATA_LEN with (Z.of_nat 152).
  rewrite memcpy_whole by (auto using repeat_length).
  set (body := fun (j : Z) (d : list uint8_t) => st d j (ld8 (f_data f) (Z.of_N (ld8 tb j)))).
  assert (H := for_loop_inv
    (fun j d => length d = 152%nat /\
                forall i, 0 <= i < j -> ld8 d i = ld8 (f_data f) (Z.of_N (ld8 tb i)))
    152 0 body (f_data f)).
  cbv beta in H. apply H; clear H.
  - split; [assumption | intros; lia].
  - intros j d Hj [Hl Hd]. unfold body. split.
    + now rewrite length_st.
    + intros i Hi. destruct (Z.eq_dec i j) as [->|Hne].
      * rewrite ld_st_same; [reflexivity | lia].
      * rewrite ld_st_other by lia. apply Hd. lia.
Qed.

Lemma frame_eq f g :
  f_frame_no f = f_frame_no g -> f_data f = f_data g -> f = g.
Proof. destruct f, g; simpl; intros; subst; reflexivity. Qed.

(** Deinterleaving with one table, then with a table that undoes it. *)
Lemma frame_deinterleave_round_trip f tb1 tb2 :
  length (f_data f) = 152%nat ->
  (forall i, 0 <= i < 152 -> 0 <= Z.of_N (ld8 tb2 i) < 152) ->
  (forall i, 0 <= i < 152 -> Z.of_N (ld8 tb1 (Z.of_N (ld8 tb2 i))) = i) ->
  frame_deinterleave (frame_deinterleave f tb1) tb2 = f.
Proof.
  intros Hlen Hr Hinv.
  destruct (frame_deinterleave_ld f tb1 Hlen) as [Hn1 [Hl1 Hd1]].
  destruct (frame_deinterleave_ld (frame_deinterleave f tb1) tb2 Hl1) as [Hn2 [Hl2 Hd2]].
  apply frame_eq; [congruence|].
  apply ld_ext with (d := 0%N); [congruence|].
  intros i Hi. rewrite Hl2 in Hi.
  rewrite Hd2 by lia. rewrite Hd1 by (apply Hr; lia). now rewrite Hinv by lia.
Qed.

Lemma frame_deinterleave_perm f :
  length (f_data f) = 152%nat ->
  Permutation (f_data (frame_deinterleave f interleave_data_UHF)) (f_data f).
Proof.
  intros Hlen.
  destruct (frame_deinterleave_ld f interleave_data_UHF Hlen) as [_ [Hl Hd]].
  set (g := fun n => nth n (f_data f) 0%N).
  assert (H1 : f_data (frame_deinterleave f interleave_data_UHF)
               = map g (map N.to_nat interleave_data_UHF)).
  { apply ld_ext with (d := 0%N).
    - now rewrite !length_map, Hl.
    - intros i Hi. rewrite Hl in Hi. rewrite Hd by lia.
      rewrite map_map.
      rewrite ld_map with (d := 0%N) by (rewrite interleave_data_UHF_length; lia).
      unfold g. now rewrite ld_of_N. }
  assert (H2 : f_data f = map g (seq 0 152)).
  { apply nth_ext with (d := 0%N) (d' := g 0%nat).
    - now rewrite length_map, length_seq.
    - intros n Hn. rewrite map_nth, seq_nth by lia. reflexivity. }
  rewrite H1. rewrite H2 at 1. apply Permutation_map.
  assert (H3 := Permutation_map N.to_nat interleave_data_UHF_perm).
  rewrite map_map in H3.
  rewrite (map_ext _ (fun x => x)) in H3 by (intros; apply Nat2N.id).
  now rewrite map_id in H3.
Qed.

(** C10.  The table [interleave_data_UHF] lists every index of [0,151]
    exactly once.  Hence, on a 152-bit payload, [frame_deinterleave] with
    this table only reads inside the table and inside the payload, its
    output is a rearrangement of its input (no bit dropped, none
    duplicated), and it is a bijection on 152-bit payloads: injective, and
    every payload is the image of one. *)
Theorem interleave_data_UHF_bijection :
  Permutation interleave_data_UHF (map N.of_nat (seq 0 152)) /\
  (forall f, length (f_data f) = 152%nat ->
     let f' := frame_deinterleave f interleave_data_UHF in
     f_frame_no f' = f_frame_no f /\
     length (f_data f') = 152%nat /\
     Permutation (f_data f') (f_data f) /\
     forall j, (j < 152)%nat ->
       exists t x,
         nth_error interleave_data_UHF j = Some t /\
         nth_error (f_data f) (N.to_nat t) = Some x /\
         nth_error (f_data f') j = Some x) /\
  (forall f g,
     length (f_data f) = 152%nat -> length (f_data g) = 152%nat ->
     frame_deinterleave f interleave_data_UHF
     = frame_deinterleave g interleave_data_UHF ->
     f = g) /\
  (forall g, length (f_data g) = 152%nat ->
     exists f, length (f_data f) = 152%nat /\
               frame_deinterleave f interleave_data_UHF = g).
Proof.
  split; [exact interleave_data_UHF_perm|]. split; [|split].
  - intros f Hlen f'.
    destruct (frame_deinterleave_ld f interleave_data_UHF Hlen) as [Hn [Hl Hd]].
    fold f' in Hn, Hl, Hd.
    split; [assumption|]. split; [assumption|].
    split; [now apply frame_deinterleave_perm|].
    intros j Hj.
    assert (Hr := interleave_data_UHF_in_range (Z.of_nat j) ltac:(lia)).
    exists (nth j interleave_data_UHF 0%N),
           (nth (N.to_nat (nth j interleave_data_UHF 0%N)) (f_data f) 0%N).
    rewrite ld_nth in Hr.
    split; [apply nth_error_nth'; rewrite interleave_data_UHF_length; lia|].
    split; [apply nth_error_nth'; lia|].
    rewrite (nth_error_nth' _ 0%N) by lia. f_equal.
    rewrite <- ld_nth, Hd by lia. now rewrite ld_nth, ld_of_N.
  - intros f g Hf Hg Heq.
    rewrite <- (frame_deinterleave_round_trip f interleave_data_UHF
                  interleave_data_UHF_inv Hf)
      by auto using interleave_data_UHF_inv_in_range, interleave_inv_r.
    rewrite <- (frame_deinterleave_round_trip g interleave_data_UHF
                  interleave_data_UHF_inv Hg)
      by auto using interleave_data_UHF_inv_in_range, interleave_inv_r.
    now rewrite Heq.
  - intros g Hg. exists (frame_deinterleave g interleave_data_UHF_inv). split.
    + now destruct (frame_deinterleave_ld g interleave_data_UHF_inv Hg) as [_ [Hl _]].
    + apply frame_deinterleave_round_trip;
        auto using interleave_data_UHF_in_range, interleave_inv_l.
Qed.

Lemma interleave_data_UHF_bijection_witness :
  length (f_data sample_frame) = 152%nat /\
  Permutation
    (f_data (frame_deinterleave sample_frame interleave_data_UHF))
    (f_data sample_frame) /\
  (exists f, length (f_data f) = 152%nat /\
             frame_deinterleave f interleave_data_UHF = zero_frame).
Proof.
  destruct interleave_data_UHF_bijection as [_ [Hperm [_ Hsurj]]].
  split; [reflexivity|]. split.
  - apply (Hperm sample_frame). reflexivity.
  - apply (Hsurj zero_frame). reflexivity.
Defined.

(** ** Descrambling *)

Lemma scramb_table_length : length scramb_table = 127%nat.
Proof. reflexivity. Qed.

Lemma scramb_table_lfsr : scramb_table = lfsr_sequence.
Proof. reflexivity. Qed.

Lemma scramb_table_seed k : 0 <= k < 7 -> ld8 scramb_table k = 1%N.
Proof.
  intros Hk.
  assert (H := range_check (fun i => N.eqb (ld8 scramb_table i) 1) 7 eq_refl k Hk).
  now apply N.eqb_eq in H.
Qed.

Lemma scramb_table_recurrence k :
  7 <= k <= 126 ->
  ld8 scramb_table k = N.lxor (ld8 scramb_table (k - 1)) (ld8 scramb_table (k - 7)).
Proof.
  intros Hk.
  assert (H := range_check
    (fun i => (i <? 7) ||
              N.eqb (ld8 scramb_table i)
                    (N.lxor (ld8 scramb_table (i - 1)) (ld8 scramb_table (i - 7))))
    127 eq_refl k ltac:(lia)).
  apply orb_prop in H as [H|H]; [apply Z.ltb_lt in H; lia|].
  now apply N.eqb_eq in H.
Qed.

(** What the loop of [frame_descramble] leaves in the frame. *)
Lemma frame_descramble_ld f scr_ :
  length (f_data f) = 152%nat -> scr_ <> 0 ->
  let f' := frame_descramble f scr_ in
  f_frame_no f' = f_frame_no f /\
  length (f_data f') = 152%nat /\
  forall k, 0 <= k < 152 ->
    ld8 (f_data f') k
    = N.lxor (ld8 (f_data f) k) (ld8 scramb_table (Z.rem (k + scr_) 127)).
Proof.
  intros Hlen Hscr. unfold frame_descramble.
  destruct (scr_ =? 0) eqn:H0; [apply Z.eqb_eq in H0; contradiction|].
  cbn [f_frame_no f_data]. split; [reflexivity|].
  change (Z.to_nat FRAME_DATA_LEN) with 152%nat.
  set (body := fun (k : Z) (d : list N) =>
                 st d k (N.lxor (ld8 d k) (ld8 scramb_table (Z.rem (k + scr_) 127)))).
  assert (H := for_loop_inv
    (fun k d => length d = 152%nat /\
                (forall j, 0 <= j < k ->
                   ld8 d j = N.lxor (ld8 (f_data f) j)
                                    (ld8 scramb_table (Z.rem (j + scr_) 127))) /\
                (forall j, k <= j -> ld8 d j = ld8 (f_data f) j))
    152 0 body (f_data f)).
  cbv beta in H. change (0 + Z.of_nat 152) with 152 in H.
  assert (Hinv : length (for_loop 152 0 body (f_data f)) = 152%nat /\
                 (forall j, 0 <= j < 152 ->
                    ld8 (for_loop 152 0 body (f_data f)) j
                    = N.lxor (ld8 (f_data f) j)
                             (ld8 scramb_table (Z.rem (j + scr_) 127))) /\
                 (forall j, 152 <= j ->
                    ld8 (for_loop 152 0 body (f_data f)) j = ld8 (f_data f) j)).
  { apply H; clear H.
    - split; [assumption|]. split; [intros; lia | reflexivity].
    - intros k d Hk [Hl [Hlo Hhi]]. unfold body. split; [|split].
      + now rewrite length_st.
      + intros j Hj. destruct (Z.eq_dec j k) as [->|Hne].
        * rewrite ld_st_same by lia. now rewrite Hhi by lia.
        * rewrite ld_st_other by lia. apply Hlo. lia.
      + intros j Hj. rewrite ld_st_other by lia. apply Hhi. lia. }
  destruct Hinv as [Hl [Hlo _]]. split; assumption.
Qed.

(** C4.  With [scr = 0] descrambling leaves the frame as it is; for every
    other key it XORs payload bit [k], for each [k] in [0,152), with
    [scramb_table[(k + scr) mod 127]].  The table has 127 entries and is the
    LFSR sequence that starts with seven ones and continues with
    [s[k] = s[k-1] XOR s[k-7]] up to [k = 126]. *)
Theorem frame_descramble_spec :
  (length scramb_table = 127%nat /\
   scramb_table = lfsr_sequence /\
   (forall k, 0 <= k < 7 -> ld8 scramb_table k = 1%N) /\
   (forall k, 7 <= k <= 126 ->
      ld8 scramb_table k
      = N.lxor (ld8 scramb_table (k - 1)) (ld8 scramb_table (k - 7)))) /\
  (forall f, frame_descramble f 0 = f) /\
  (forall f scr_,
     length (f_data f) = 152%nat -> 0 <= scr_ <= 127 -> scr_ <> 0 ->
     let f' := frame_descramble f scr_ in
     f_frame_no f' = f_frame_no f /\
     length (f_data f') = 152%nat /\
     forall k, 0 <= k < 152 ->
       ld8 (f_data f') k
       = N.lxor (ld8 (f_data f) k) (ld8 scramb_table ((k + scr_) mod 127))).
Proof.
  split; [|split].
  - auto using scramb_table_length, scramb_table_lfsr, scramb_table_seed,
      scramb_table_recurrence.
  - reflexivity.
  - intros f scr_ Hlen Hr Hne f'.
    destruct (frame_descramble_ld f scr_ Hlen Hne) as [Hn [Hl Hd]].
    fold f' in Hn, Hl, Hd. repeat split; auto.
    intros k Hk. rewrite Hd by assumption.
    now rewrite Z.rem_mod_nonneg by lia.
Qed.

Lemma frame_descramble_spec_witness :
  ld8 (f_data (frame_descramble sample_frame 42)) 0
  = N.lxor (ld8 (f_data sample_frame) 0) (ld8 scramb_table ((0 + 42) mod 127)) /\
  ld8 scramb_table 7 = N.lxor (ld8 scramb_table 6) (ld8 scramb_table 0).
Proof.
  destruct frame_descramble_spec as [[_ [_ [_ Hrec]]] [_ Hx]].
  split.
  - apply (Hx sample_frame 42); [reflexivity | lia | lia | lia].
  - apply (Hrec 7). lia.
Defined.

(** ** Channel decoding *)

Lemma zrange_S n : zrange (S n) = zrange n ++ [Z.of_nat n].
Proof. unfold zrange. now rewrite seq_S, map_app. Qed.

Lemma length_zrange n : length (zrange n) = n.
Proof. unfold zrange. now rewrite length_map, length_seq. Qed.

Lemma ld_zrange_map {A} (d : A) (g : Z -> A) n i :
  0 <= i < Z.of_nat n -> ld d (map g (zrange n)) i = g i.
Proof.
  intros Hi. rewrite ld_map with (d := 0) by (rewrite length_zrange; lia).
  f_equal. unfold zrange.
  rewrite ld_map with (d := 0%nat) by (rewrite length_seq; lia).
  replace i with (Z.of_nat (Z.to_nat i)) at 1 by lia.
  rewrite ld_nth, seq_nth by lia. lia.
Qed.

Lemma sum_flags_app l l' : sum_flags (l ++ l') = sum_flags l + sum_flags l'.
Proof. induction l as [|x l IH]; simpl; [reflexivity | rewrite IH; lia]. Qed.

Lemma sum_flags_nonneg l : 0 <= sum_flags l.
Proof. induction l as [|x l IH]; simpl; lia. Qed.

Section ChannelDecoder.
Variables (res err in_ : list N) (obase ibase res_len : Z).

Hypothesis Hobase : 0 <= obase.
Hypothesis Hlen : 0 <= res_len.
Hypothesis Hres : obase + res_len <= Z.of_nat (length res).
Hypothesis Herr : obase + res_len <= Z.of_nat (length err).

Lemma channel_decoder_cells :
  let '(res', err', errs) := channel_decoder res err obase in_ ibase res_len in
  length res' = length res /\
  length err' = length err /\
  (forall i, 0 <= i < res_len ->
     ld8 res' (obase + i) = res_at in_ ibase res_len i /\ ld8 err' (obase + i) = err_at in_ ibase res_len i) /\
  (forall k, k < obase \/ obase + res_len <= k ->
     ld8 res' k = ld8 res k /\ ld8 err' k = ld8 err k) /\
  errs = sum_flags (map (err_at in_ ibase res_len) (zrange (Z.to_nat res_len))).
Proof.
  unfold channel_decoder.
  match goal with |- context [for_loop _ _ ?b _] => set (body := b) end.
  assert (H := for_loop_inv
    (fun i (s : list N * list N * Z) =>
       let '(res', err', errs) := s in
       length res' = length res /\
       length err' = length err /\
       (forall j, 0 <= j < i ->
          ld8 res' (obase + j) = res_at in_ ibase res_len j /\ ld8 err' (obase + j) = err_at in_ ibase res_len j) /\
       (forall k, k < obase \/ obase + i <= k ->
          ld8 res' k = ld8 res k /\ ld8 err' k = ld8 err k) /\
       errs = sum_flags (map (err_at in_ ibase res_len) (zrange (Z.to_nat i))))
    (Z.to_nat res_len) 0 body (res, err, 0)).
  rewrite Z.add_0_l, Z2Nat.id in H by assumption.
  apply H; clear H.
  - repeat split; auto; intros; lia.
  - intros i [[res' err'] errs] Hi [Hl1 [Hl2 [Hlo [Hhi Hsum]]]].
    rewrite ?Z.add_0_l in Hi.
    unfold body. fold (get_in in_ ibase res_len i 2) (get_in in_ ibase res_len i 3)
      (get_in in_ ibase res_len i 5) (get_in in_ ibase res_len i 6)
      (get_in in_ ibase res_len i 7).
    fold (res_at in_ ibase res_len i).
    rewrite !ld_st_same by (rewrite ?length_st; lia).
    fold (err_at in_ ibase res_len i).
    split; [now rewrite length_st|]. split; [now rewrite !length_st|].
    split; [|split].
    + intros j Hj. destruct (Z.eq_dec j i) as [->|Hne].
      * rewrite !ld_st_same by (rewrite ?length_st; lia). now split.
      * rewrite !ld_st_other by lia. apply Hlo. lia.
    + intros k Hk. rewrite !ld_st_other by lia. apply Hhi. lia.
    + replace (Z.to_nat (i + 1)) with (S (Z.to_nat i)) by lia.
      rewrite zrange_S, map_app, sum_flags_app, Z2Nat.id by lia.
      simpl. rewrite Hsum. lia.
Qed.

End ChannelDecoder.

Lemma channel_decoder_errs_nonneg res err obase in_ ibase res_len :
  0 <= snd (channel_decoder res err obase in_ ibase res_len).
Proof.
  unfold channel_decoder.
  match goal with |- context [for_loop ?n _ ?b ?s0] =>
    assert (H := for_loop_inv (fun _ (x : list N * list N * Z) => 0 <= snd x) n 0 b s0)
  end.
  apply H; [simpl; lia|].
  intros i [[r e] errs] _ Hs. simpl in *. lia.
Qed.

Lemma frame_decode_data_errs_nonneg f df : 0 <= snd (frame_decode_data f df).
Proof.
  unfold frame_decode_data.
  assert (H1 := channel_decoder_errs_nonneg (df_data df) (df_err df) 0 (f_data f) 0 26).
  destruct (channel_decoder (df_data df) (df_err df) 0 (f_data f) 0 26) as [[d e] errs].
  assert (H2 := channel_decoder_errs_nonneg d e 26 (f_data f) (2 * 26) 50).
  destruct (channel_decoder d e 26 (f_data f) (2 * 26) 50) as [[d' e'] errs'].
  simpl in *. lia.
Qed.

(** C3.  On a 152-bit input the decoder fills 76 decoded bits and 76
    erasure flags, whatever the decoded frame held before.  The first 26
    come from [in[0..51]] with indices modulo 52, the next 50 from
    [in[52..151]] with indices modulo 100, both by
    [res[i] = in[2i+2] XOR in[2i+3]] and
    [err[i] = res[i] XOR in[2i+5] XOR in[2i+6] XOR in[2i+7]]; the value
    returned is the sum of the 76 flags. *)
Theorem frame_decode_data_spec (f : frame_t) (df : decoded_frame_t) :
  length (f_data f) = 152%nat ->
  length (df_data df) = 76%nat -> length (df_err df) = 76%nat ->
  let df' := fst (frame_decode_data f df) in
  let errs := snd (frame_decode_data f df) in
  let in1 k := ld8 (f_data f) (k mod 52) in
  let in2 k := ld8 (f_data f) (52 + k mod 100) in
  length (df_data df') = 76%nat /\
  length (df_err df') = 76%nat /\
  (forall i, 0 <= i < 26 ->
     ld8 (df_data df') i = N.lxor (in1 (2 * i + 2)) (in1 (2 * i + 3)) /\
     ld8 (df_err df') i
     = N.lxor (N.lxor (N.lxor (ld8 (df_data df') i) (in1 (2 * i + 5)))
                      (in1 (2 * i + 6)))
              (in1 (2 * i + 7))) /\
  (forall i, 0 <= i < 50 ->
     ld8 (df_data df') (26 + i) = N.lxor (in2 (2 * i + 2)) (in2 (2 * i + 3)) /\
     ld8 (df_err df') (26 + i)
     = N.lxor (N.lxor (N.lxor (ld8 (df_data df') (26 + i)) (in2 (2 * i + 5)))
                      (in2 (2 * i + 6)))
              (in2 (2 * i + 7))) /\
  errs = sum_flags (df_err df') /\
  df_frame_no df' = f_frame_no f.
Proof.
  intros Hf Hd He df' errs in1 in2. subst df' errs. unfold frame_decode_data.
  assert (H1 := channel_decoder_cells (df_data df) (df_err df) (f_data f) 0 0 26
                  ltac:(lia) ltac:(lia) ltac:(lia) ltac:(lia)).
  destruct (channel_decoder (df_data df) (df_err df) 0 (f_data f) 0 26)
    as [[d1 e1] errs1].
  unfold err_at, res_at, get_in in H1.
  destruct H1 as [Hl1 [Hl1' [Hc1 [_ Hs1]]]].
  assert (H2 := channel_decoder_cells d1 e1 (f_data f) 26 (2 * 26) 50
                  ltac:(lia) ltac:(lia) ltac:(lia) ltac:(lia)).
  destruct (channel_decoder d1 e1 26 (f_data f) (2 * 26) 50) as [[d2 e2] errs2].
  unfold err_at, res_at, get_in in H2.
  destruct H2 as [Hl2 [Hl2' [Hc2 [Hk2 Hs2]]]].
  cbn [fst snd df_data df_err df_frame_no].
  assert (Hxor : forall r a b c : N,
            N.lxor (N.lxor (N.lxor a b) c) r = N.lxor (N.lxor (N.lxor r a) b) c).
  { intros r a b c. rewrite (N.lxor_comm _ r), !N.lxor_assoc. reflexivity. }
  split; [congruence|]. split; [congruence|]. split; [|split; [|split]].
  - intros i Hi. destruct (Hc1 i Hi) as [Hr Hx].
    destruct (Hk2 i ltac:(lia)) as [Hr2 Hx2].
    rewrite Hr2, Hx2. rewrite !Z.add_0_l in Hr, Hx. rewrite Hr, Hx. unfold in1.
    rewrite !Z.rem_mod_nonneg by lia. change (2 * 26) with 52.
    split; [reflexivity | apply Hxor].
  - intros i Hi. destruct (Hc2 i Hi) as [Hr Hx]. rewrite Hr, Hx. unfold in2.
    rewrite !Z.rem_mod_nonneg by lia. change (2 * 26) with 52. change (2 * 50) with 100.
    split; [reflexivity | apply Hxor].
  - assert (He2 : e2 = map (fun i => ld8 e2 i) (zrange 26)
                       ++ map (fun i => ld8 e2 (26 + i)) (zrange 50)).
    { apply ld_ext with (d := 0%N).
      - rewrite length_app, !length_map, !length_zrange. lia.
      - intros k Hk. destruct (Z_lt_dec k 26) as [Hlt|Hge].
        + rewrite ld_app_l by (rewrite length_map, length_zrange; lia).
          now rewrite ld_zrange_map by lia.
        + rewrite ld_app_r by (rewrite length_map, length_zrange; lia).
          rewrite length_map, length_zrange.
          rewrite ld_zrange_map by lia. f_equal. lia. }
    rewrite He2 at 1. rewrite sum_flags_app, Hs1, Hs2. f_equal.
    + f_equal. apply map_ext_in. intros i Hi.
      apply in_map_iff in Hi as [n [<- Hn]]. apply in_seq in Hn.
      destruct (Hk2 (Z.of_nat n) ltac:(lia)) as [_ ->].
      destruct (Hc1 (Z.of_nat n) ltac:(lia)) as [_ Hx]. rewrite Z.add_0_l in Hx.
      now rewrite Hx.
    + f_equal. apply map_ext_in. intros i Hi.
      apply in_map_iff in Hi as [n [<- Hn]]. apply in_seq in Hn.
      destruct (Hc2 (Z.of_nat n) ltac:(lia)) as [_ Hx]. now rewrite Hx.
  - reflexivity.
Qed.

Lemma frame_decode_data_spec_witness :
  snd (frame_decode_data sample_frame df_local)
  = sum_flags (df_err (fst (frame_decode_data sample_frame df_local))).
Proof.
  apply (frame_decode_data_spec sample_frame df_local); reflexivity.
Defined.

(** ** The bit buffer *)

Lemma length_memcpy dst dpos src spos n :
  0 <= dpos -> 0 <= n -> 0 <= spos ->
  dpos + n <= Z.of_nat (length dst) -> spos + n <= Z.of_nat (length src) ->
  length (memcpy dst dpos src spos n) = length dst.
Proof.
  intros. unfold memcpy.
  rewrite !length_app, !length_firstn, !length_skipn. lia.
Qed.

(** The first [dpos + n] cells after a copy to position [dpos]. *)
Lemma firstn_memcpy dst dpos src spos n :
  0 <= dpos -> 0 <= n -> 0 <= spos ->
  dpos <= Z.of_nat (length dst) -> spos + n <= Z.of_nat (length src) ->
  firstn (Z.to_nat (dpos + n)) (memcpy dst dpos src spos n)
  = firstn (Z.to_nat dpos) dst ++ firstn (Z.to_nat n) (skipn (Z.to_nat spos) src).
Proof.
  intros. unfold memcpy. rewrite app_assoc.
  rewrite firstn_app.
  rewrite firstn_all2 by (rewrite length_app, !length_firstn, length_skipn; lia).
  replace (Z.to_nat (dpos + n) - _)%nat with 0%nat
    by (rewrite length_app, !length_firstn, length_skipn; lia).
  simpl. apply app_nil_r.
Qed.

Lemma ld_memmove_down d offs n i :
  0 <= offs -> 0 <= i < n ->
  offs + n <= Z.of_nat (length d) ->
  ld8 (memmove d 0 d offs n) i = ld8 d (offs + i).
Proof.
  intros Ho Hi Hl. unfold memmove, memcpy. simpl.
  rewrite ld_app_l by (rewrite length_firstn, length_skipn; lia).
  rewrite ld_firstn by lia. rewrite ld_skipn by lia. f_equal. lia.
Qed.

Lemma buffer_after_shift p offs :
  0 <= offs <= data_len p -> data_len p <= Z.of_nat (length (data p)) ->
  let n := data_len p - offs in
  buffer (set_buffer p n (memmove (data p) 0 (data p) offs n))
  = skipn (Z.to_nat offs) (buffer p).
Proof.
  intros Ho Hl n. unfold buffer. cbn [data_len data set_buffer].
  replace n with (0 + n) at 1 by lia.
  unfold memmove. rewrite firstn_memcpy by lia. simpl.
  rewrite skipn_firstn_comm. f_equal. lia.
Qed.

Lemma buffer_ok_after_shift p offs :
  buffer_ok p -> 0 <= offs <= data_len p ->
  let n := data_len p - offs in
  buffer_ok (set_buffer p n (memmove (data p) 0 (data p) offs n)).
Proof.
  intros [Hl Hd] Ho n. unfold buffer_ok. cbn [data_len data set_buffer].
  unfold memmove. rewrite length_memcpy by lia. split; [assumption | lia].
Qed.

Lemma tetrapol_recv2_spec p buf len :
  buffer_ok p -> 0 <= len <= Z.of_nat (length buf) ->
  let p' := fst (tetrapol_recv2 p buf len) in
  let r := snd (tetrapol_recv2 p buf len) in
  r = Z.min len (DATA_SIZE - data_len p) /\
  data_len p' = data_len p + r /\
  buffer p' = buffer p ++ firstn (Z.to_nat r) buf /\
  buffer_ok p'.
Proof.
  intros [Hl Hd] Hlen. unfold tetrapol_recv2. cbn [fst snd].
  set (r := if len >? DATA_SIZE - data_len p then DATA_SIZE - data_len p else len).
  assert (Hr : r = Z.min len (DATA_SIZE - data_len p)).
  { unfold r. destruct (len >? DATA_SIZE - data_len p) eqn:Hc.
    - apply Z.gtb_lt in Hc. lia.
    - rewrite Z.gtb_ltb in Hc. apply Z.ltb_ge in Hc. lia. }
  split; [exact Hr|]. cbn [data_len data set_buffer]. split; [reflexivity|].
  split.
  - unfold buffer. cbn [data_len data set_buffer].
    rewrite firstn_memcpy by lia. reflexivity.
  - unfold buffer_ok. cbn [data_len data set_buffer].
    rewrite length_memcpy by lia. split; [assumption | lia].
Qed.

(** ** Frame synchronisation: acquisition *)

Lemma find_frame_sync_loop_spec fuel p offs se :
  0 <= offs -> data_len p - (FRAME_LEN + FRAME_HDR_LEN) - offs <= Z.of_nat fuel ->
  (forall o', 0 <= o' < offs -> ~ sync_at p o') ->
  MAX_FRAME_SYNC_ERR < se ->
  let '(o, e) := find_frame_sync_loop fuel p offs se in
  (e <= MAX_FRAME_SYNC_ERR /\ first_sync_at p o) \/
  (MAX_FRAME_SYNC_ERR < e /\ (forall o', ~ sync_at p o') /\
   o = Z.max offs (data_len p - (FRAME_LEN + FRAME_HDR_LEN))).
Proof.
  revert offs se. induction fuel as [|fuel IH]; intros offs se Ho Hfuel Hbefore Hse.
  - cbn [find_frame_sync_loop]. right. split; [assumption|]. split; [|lia].
    intros o' [H1 [H2 H3]]. apply (Hbefore o'); [lia|].
    unfold sync_at. lia.
  - cbn [find_frame_sync_loop].
    destruct (offs + FRAME_LEN + FRAME_HDR_LEN <? data_len p) eqn:Hc.
    + apply Z.ltb_lt in Hc. fold (sync_err_at p offs).
      destruct (sync_err_at p offs <=? MAX_FRAME_SYNC_ERR) eqn:He.
      * apply Z.leb_le in He. left. split; [assumption|].
        split; [|assumption]. unfold sync_at. lia.
      * apply Z.leb_gt in He.
        specialize (IH (offs + 1) (sync_err_at p offs)).
        destruct (find_frame_sync_loop fuel p (offs + 1) (sync_err_at p offs)) as [o e].
        destruct IH as [IH|[He' [Hnone Ho']]]; try lia.
        -- intros o' Ho'. destruct (Z.eq_dec o' offs) as [->|Hne].
           ++ intros [_ [_ H]]. lia.
           ++ apply Hbefore. lia.
        -- now left.
        -- right. split; [assumption|]. split; [assumption|]. lia.
    + apply Z.ltb_ge in Hc. right. split; [assumption|]. split; [|lia].
      intros o' [H1 [H2 H3]]. destruct (Z_lt_dec o' offs) as [Hlt|Hge].
      * apply (Hbefore o'); [lia|]. unfold sync_at. lia.
      * lia.
Qed.

Lemma first_sync_at_unique p o1 o2 :
  first_sync_at p o1 -> first_sync_at p o2 -> o1 = o2.
Proof.
  intros [H1 M1] [H2 M2].
  destruct (Z.lt_trichotomy o1 o2) as [Hlt|[Heq|Hgt]]; [|assumption|].
  - exfalso. apply (M2 o1); [|assumption]. destruct H1. lia.
  - exfalso. apply (M1 o2); [|assumption]. destruct H2. lia.
Qed.

Lemma find_frame_sync_spec p :
  ((exists o, first_sync_at p o) \/ (forall o, ~ sync_at p o)) /\
  (forall o, first_sync_at p o ->
     find_frame_sync p
     = (set_total_sync_err
          (set_last_sync_err
             (set_buffer p (data_len p - o)
                (memmove (data p) 0 (data p) o (data_len p - o))) 0) 0, 1)) /\
  ((forall o, ~ sync_at p o) ->
     let o := Z.max 0 (data_len p - (FRAME_LEN + FRAME_HDR_LEN)) in
     find_frame_sync p
     = (set_buffer p (data_len p - o)
          (memmove (data p) 0 (data p) o (data_len p - o)), 0)).
Proof.
  assert (H : let '(o, e) := find_frame_sync_loop (Z.to_nat (data_len p)) p 0
                               (MAX_FRAME_SYNC_ERR + 1) in
              (e <= MAX_FRAME_SYNC_ERR /\ first_sync_at p o) \/
              (MAX_FRAME_SYNC_ERR < e /\ (forall o', ~ sync_at p o') /\
               o = Z.max 0 (data_len p - (FRAME_LEN + FRAME_HDR_LEN)))).
  { apply find_frame_sync_loop_spec.
    - lia.
    - unfold FRAME_LEN, FRAME_HDR_LEN, FRAME_DATA_LEN. lia.
    - intros o' Ho'. lia.
    - lia. }
  unfold find_frame_sync.
  destruct (find_frame_sync_loop (Z.to_nat (data_len p)) p 0 (MAX_FRAME_SYNC_ERR + 1))
    as [o e].
  destruct H as [[He Hfirst]|[He [Hnone Ho]]].
  - split; [left; now exists o|]. split.
    + intros o' Hfirst'. rewrite (first_sync_at_unique p o' o Hfirst' Hfirst).
      apply Z.leb_le in He. now rewrite He.
    + intros Hnone. exfalso. destruct Hfirst as [Hs _]. exact (Hnone o Hs).
  - split; [now right|]. split.
    + intros o' [Hs _]. exfalso. exact (Hnone o' Hs).
    + intros _. cbv zeta. rewrite <- Ho. apply Z.leb_gt in He. now rewrite He.
Qed.

Section Acquisition.
Context `{E : Externals}.

(** C1 (acquisition).  Without frame synchronisation, the synchroniser
    visits the offsets [o = 0, 1, 2, ...] with
    [o + FRAME_LEN + FRAME_HDR_LEN < data_len] and accepts the first one
    whose combined error [cmp(o) + cmp(o + FRAME_LEN)] is at most 1.
    On accept, exactly the first [o] bits leave the buffer,
    [has_frame_sync] is set, [last_sync_err] and [total_sync_err] are 0,
    [frame_no] is unknown, and the multiblock and segmentation layers are
    reset, in this order.  When no visited offset qualifies, the buffer
    keeps its last [FRAME_LEN + FRAME_HDR_LEN = 168] bits (everything when
    it holds fewer), no synchronisation is reported and nothing else
    happens.  One of the two cases always applies. *)
Theorem process_acquire_spec (p : phys_ch_t) (e : env_t) :
  has_frame_sync p = false ->
  0 <= data_len p <= Z.of_nat (length (data p)) ->
  FRAME_LEN + FRAME_HDR_LEN = 168 /\ MAX_FRAME_SYNC_ERR = 1 /\
  ((exists o, first_sync_at p o) \/ (forall o, ~ sync_at p o)) /\
  (forall o, first_sync_at p o ->
     exists p',
       process_acquire p e
       = (p', call_segmentation_reset
                (call_multiblock_reset (emit e PrintFrameSyncFound)), true) /\
       buffer p' = skipn (Z.to_nat o) (buffer p) /\
       data_len p' = data_len p - o /\
       has_frame_sync p' = true /\
       last_sync_err p' = 0 /\ total_sync_err p' = 0 /\
       frame_no p' = FRAME_NO_UNKNOWN /\
       band p' = band p /\ rch_type p' = rch_type p /\
       scr p' = scr p /\ scr_guess p' = scr_guess p /\
       scr_confidence p' = scr_confidence p /\ scr_stat p' = scr_stat p) /\
  ((forall o, ~ sync_at p o) ->
     exists p',
       process_acquire p e = (p', e, false) /\
       tetrapol_phys_ch_process p e = Some (p', e, 0) /\
       buffer p' = skipn (Z.to_nat (data_len p - 168)) (buffer p) /\
       data_len p' = Z.min (data_len p) 168 /\
       has_frame_sync p' = false /\
       last_sync_err p' = last_sync_err p /\
       total_sync_err p' = total_sync_err p /\
       frame_no p' = frame_no p /\
       band p' = band p /\ rch_type p' = rch_type p /\
       scr p' = scr p /\ scr_guess p' = scr_guess p /\
       scr_confidence p' = scr_confidence p /\ scr_stat p' = scr_stat p).
Proof.
  intros Hsync Hlen.
  destruct (find_frame_sync_spec p) as [Hcases [Hfound Hnone]].
  split; [reflexivity|]. split; [reflexivity|]. split; [exact Hcases|]. split.
  - intros o Hfirst. specialize (Hfound o Hfirst).
    assert (Ho : 0 <= o <= data_len p).
    { destruct Hfirst as [[H1 [H2 _]] _].
      unfold FRAME_LEN, FRAME_HDR_LEN, FRAME_DATA_LEN in H2. lia. }
    eexists. split.
    + unfold process_acquire. rewrite Hsync, Hfound. cbn. reflexivity.
    + cbn [has_frame_sync last_sync_err total_sync_err frame_no band rch_type scr
             scr_guess scr_confidence scr_stat data_len set_frame_no
             set_has_frame_sync set_total_sync_err set_last_sync_err
             set_sync_errs set_buffer].
      split; [|repeat split; reflexivity].
      rewrite <- (buffer_after_shift p o) by lia. reflexivity.
  - intros Hno. specialize (Hnone Hno). cbv zeta in Hnone.
    change (FRAME_LEN + FRAME_HDR_LEN) with 168 in Hnone.
    set (o := Z.max 0 (data_len p - 168)) in *.
    assert (Ho : 0 <= o <= data_len p) by (unfold o; lia).
    assert (Hacq : process_acquire p e
                   = (set_has_frame_sync
                        (set_buffer p (data_len p - o)
                           (memmove (data p) 0 (data p) o (data_len p - o))) false,
                      e, false)).
    { unfold process_acquire. rewrite Hsync, Hnone. reflexivity. }
    eexists. split; [exact Hacq|]. split.
    + unfold tetrapol_phys_ch_process. now rewrite Hacq.
    + cbn [has_frame_sync last_sync_err total_sync_err frame_no band rch_type scr
             scr_guess scr_confidence scr_stat data_len set_frame_no
             set_has_frame_sync set_total_sync_err set_last_sync_err
             set_sync_errs set_buffer].
      split; [|split; [unfold o; lia | repeat split; reflexivity]].
      assert (Hb := buffer_after_shift p o ltac:(lia) ltac:(lia)).
      cbv zeta in Hb. unfold buffer in *. cbn [data_len data set_buffer set_has_frame_sync] in *.
      rewrite Hb. f_equal. unfold o. lia.
Qed.

End Acquisition.

Lemma process_acquire_spec_witness :
  exists p',
    process_acquire (fill sample_channel one_error_bits) sample_env
    = (p', call_segmentation_reset
             (call_multiblock_reset (emit sample_env PrintFrameSyncFound)), true) /\
    buffer p' = skipn 3 (buffer (fill sample_channel one_error_bits)) /\
    has_frame_sync p' = true /\ frame_no p' = -1.
Proof.
  set (p := fill sample_channel one_error_bits).
  assert (Hlen : 0 <= data_len p <= Z.of_nat (length (data p)))
    by (vm_compute; split; discriminate).
  assert (Hfirst : first_sync_at p 3).
  { assert (Hdl : data_len p = 343) by reflexivity.
    split.
    - unfold sync_at. rewrite Hdl. change (sync_err_at p 3) with 1.
      unfold MAX_FRAME_SYNC_ERR, FRAME_LEN, FRAME_HDR_LEN, FRAME_DATA_LEN. lia.
    - intros o' Ho' [_ [_ H]].
      assert (Hc : o' = 0 \/ o' = 1 \/ o' = 2) by lia.
      destruct Hc as [-> | [-> | ->]]; vm_compute in H; apply H; reflexivity. }
  destruct (process_acquire_spec p sample_env eq_refl Hlen) as [_ [_ [_ [Hacc _]]]].
  destruct (Hacc 3 Hfirst) as [p' [H1 [H2 [_ [H3 [_ [_ [H4 _]]]]]]]].
  exists p'. repeat split; assumption.
Defined.

(** One wrong bit in the two sequences is accepted, two are not: the
    first stream synchronises at offset 3, the second leaves 168 bits. *)
Example acquire_one_error_bit :
  sync_err_at (fill sample_channel one_error_bits) 3 = 1 /\
  (let '(p, _, go) := process_acquire (fill sample_channel one_error_bits) sample_env in
   (has_frame_sync p, data_len p, go)) = (true, 340, true).
Proof. split; reflexivity. Qed.

Example acquire_two_error_bits :
  sync_err_at (fill sample_channel two_error_bits) 3 = 2 /\
  (let '(p, e, go) := process_acquire (fill sample_channel two_error_bits) sample_env in
   (has_frame_sync p, data_len p, go, trace e)) = (false, 168, false, []).
Proof. split; reflexivity. Qed.

(** ** Frame synchronisation: tracking *)

Arguments cmp_frame_sync : simpl never.
Arguments memcpy : simpl never.
Arguments differential_dec : simpl never.

Lemma get_frame_short p frame :
  data_len p < FRAME_LEN -> get_frame p frame = (p, frame, 0).
Proof.
  intros H. unfold get_frame. apply Z.ltb_lt in H. now rewrite H.
Qed.

(** [get_frame] on a buffer that holds a frame. *)
Lemma get_frame_spec p frame :
  FRAME_LEN <= data_len p ->
  let sync_err := cmp_frame_sync (data p) 0 in
  let total :=
    if sync_err + last_sync_err p >? MAX_FRAME_SYNC_ERR
    then 1 + 2 * total_sync_err p else 0 in
  let '(p', frame', r) := get_frame p frame in
  total_sync_err p' = total /\
  (if total >=? FRAME_LEN
   then r = -1 /\ last_sync_err p' = last_sync_err p /\
        data_len p' = data_len p /\ data p' = data p /\ frame' = frame
   else r = 1 /\ last_sync_err p' = sync_err /\
        data_len p' = data_len p - FRAME_LEN /\
        data p' = memmove (data p) 0 (data p) FRAME_LEN (data_len p - FRAME_LEN) /\
        f_frame_no frame' = frame_no p) /\
  band p' = band p /\ rch_type p' = rch_type p /\
  has_frame_sync p' = has_frame_sync p /\ frame_no p' = frame_no p /\
  scr p' = scr p /\ scr_guess p' = scr_guess p /\
  scr_confidence p' = scr_confidence p /\ scr_stat p' = scr_stat p.
Proof.
  intros Hlen sync_err total. unfold get_frame.
  destruct (data_len p <? FRAME_LEN) eqn:Hc; [apply Z.ltb_lt in Hc; lia|].
  fold sync_err. subst total.
  destruct (sync_err + last_sync_err p >? MAX_FRAME_SYNC_ERR) eqn:Hsum.
  - cbn [total_sync_err set_total_sync_err set_sync_errs].
    destruct (1 + 2 * total_sync_err p >=? FRAME_LEN) eqn:Hlost.
    + cbn. repeat split; reflexivity.
    + unfold get_frame_extract. cbn. repeat split; reflexivity.
  - change (0 >=? FRAME_LEN) with false.
    unfold get_frame_extract. cbn. repeat split; reflexivity.
Qed.

(** C7 (as amended).  A call of [get_frame] that finds at least
    [FRAME_LEN] buffered bits returns 1 or -1.  When it returns 1 (a frame
    is extracted), [last_sync_err] is the synchronisation error of that
    frame, whether or not the sum test failed; when it returns -1 (loss of
    synchronisation), [last_sync_err] keeps its former value.  It returns
    -1 exactly when the sum test fails and the updated [total_sync_err]
    reaches [FRAME_LEN]. *)
Theorem get_frame_last_sync_err (p : phys_ch_t) (frame : frame_t) :
  FRAME_LEN <= data_len p ->
  let sync_err := cmp_frame_sync (data p) 0 in
  let p' := fst (fst (get_frame p frame)) in
  let r := snd (get_frame p frame) in
  (r = 1 \/ r = -1) /\
  (r = 1 -> last_sync_err p' = sync_err) /\
  (r = -1 -> last_sync_err p' = last_sync_err p) /\
  (r = -1 <->
   sync_err + last_sync_err p > MAX_FRAME_SYNC_ERR /\
   FRAME_LEN <= 1 + 2 * total_sync_err p).
Proof.
  intros Hlen sync_err p' r. subst p' r.
  assert (H := get_frame_spec p frame Hlen). cbv zeta in H. fold sync_err in H.
  destruct (get_frame p frame) as [[p' frame'] r]. cbn [fst snd].
  destruct H as [_ [H _]].
  destruct (sync_err + last_sync_err p >? MAX_FRAME_SYNC_ERR) eqn:Hsum.
  - apply Z.gtb_lt in Hsum.
    destruct (1 + 2 * total_sync_err p >=? FRAME_LEN) eqn:Hlost.
    + apply Z.geb_le in Hlost. destruct H as [-> [Hl _]].
      repeat split; auto; try lia.
    + rewrite Z.geb_leb in Hlost. apply Z.leb_gt in Hlost.
      destruct H as [-> [Hl _]]. repeat split; auto; try lia.
  - rewrite Z.gtb_ltb in Hsum. apply Z.ltb_ge in Hsum.
    change (0 >=? FRAME_LEN) with false in H. destruct H as [-> [Hl _]].
    repeat split; auto; try lia.
Qed.

Lemma get_frame_last_sync_err_witness :
  last_sync_err (fst (fst (get_frame noisy_channel frame_local)))
  = cmp_frame_sync (data noisy_channel) 0.
Proof.
  destruct (get_frame_last_sync_err noisy_channel frame_local) as [_ [H _]].
  - vm_compute. discriminate.
  - apply H. reflexivity.
Defined.

(** C7 (as stated) fails on the call that declares the loss: the buffer
    holds a frame with four synchronisation errors, [get_frame] returns -1
    and [last_sync_err] is still 0. *)
Lemma get_frame_loss_keeps_last_sync_err :
  FRAME_LEN <= data_len failing_channel /\
  snd (get_frame failing_channel frame_local) = -1 /\
  cmp_frame_sync (data failing_channel) 0 = 4 /\
  last_sync_err (fst (fst (get_frame failing_channel frame_local))) = 0 /\
  last_sync_err (fst (fst (get_frame failing_channel frame_local)))
  <> cmp_frame_sync (data failing_channel) 0.
Proof.
  split; [vm_compute; discriminate|].
  split; [reflexivity|]. split; [reflexivity|]. split; [reflexivity|].
  vm_compute. discriminate.
Qed.

(** ** SCR detection and frame processing: what they leave alone *)

Section Frames.
Context `{E : Externals}.

Lemma detect_scr_fields p e f :
  let p' := fst (detect_scr p e f) in
  let best := detect_scr_best (detect_scr_stats p f) in
  scr_stat p' = detect_scr_stats p f /\
  scr_guess p' = fst best /\
  scr p' = (if ldi (detect_scr_stats p f) (fst best) - scr_confidence p
               >? ldi (detect_scr_stats p f) (snd best)
            then fst best else scr p) /\
  band p' = band p /\ rch_type p' = rch_type p /\
  last_sync_err p' = last_sync_err p /\ total_sync_err p' = total_sync_err p /\
  has_frame_sync p' = has_frame_sync p /\ frame_no p' = frame_no p /\
  scr_confidence p' = scr_confidence p /\
  data_len p' = data_len p /\ data p' = data p.
Proof.
  unfold detect_scr. cbn [scr_stat set_scr_stat scr_confidence].
  destruct (detect_scr_best (detect_scr_stats p f)) as [m m2]. cbn [fst snd].
  destruct (ldi (detect_scr_stats p f) m - scr_confidence p
            >? ldi (detect_scr_stats p f) m2);
    cbn; repeat split; reflexivity.
Qed.

Lemma process_frame_fields p e f :
  let p' := fst (fst (fst (process_frame p e f))) in
  p' = (if scr p =? PHYS_CH_SCR_DETECT then fst (detect_scr p e f) else p) /\
  band p' = band p /\ rch_type p' = rch_type p /\
  last_sync_err p' = last_sync_err p /\ total_sync_err p' = total_sync_err p /\
  has_frame_sync p' = has_frame_sync p /\ frame_no p' = frame_no p /\
  scr_confidence p' = scr_confidence p /\
  data_len p' = data_len p /\ data p' = data p.
Proof.
  unfold process_frame.
  assert (Hd := detect_scr_fields p e f). cbv zeta in Hd.
  destruct (scr p =? PHYS_CH_SCR_DETECT).
  - destruct (detect_scr p e f) as [p1 e1]. cbn [fst] in Hd.
    destruct (if rch_type p1 =? TETRAPOL_RCH_CONTROL
              then process_frame_cch p1 e1 f
              else process_frame_traffic_ch p1 e1 f) as [[e2 f2] r2].
    cbn [fst]. intuition.
  - destruct (if rch_type p =? TETRAPOL_RCH_CONTROL
              then process_frame_cch p e f
              else process_frame_traffic_ch p e f) as [[e2 f2] r2].
    cbn [fst]. intuition.
Qed.

(** One turn of the frame loop, seen from the synchroniser. *)
Lemma process_turn_sync p e frame :
  let x := process_turn p e frame in
  let p' := turn_state x in
  turn_r x = snd (get_frame p frame) /\
  total_sync_err p' = total_sync_err (fst (fst (get_frame p frame))) /\
  last_sync_err p' = last_sync_err (fst (fst (get_frame p frame))) /\
  data_len p' = data_len (fst (fst (get_frame p frame))) /\
  data p' = data (fst (fst (get_frame p frame))) /\
  has_frame_sync p' = has_frame_sync p /\
  band p' = band p /\ rch_type p' = rch_type p /\
  scr_confidence p' = scr_confidence p.
Proof.
  unfold process_turn, turn_state, turn_r.
  destruct (Z_lt_dec (data_len p) FRAME_LEN) as [Hs|Hl].
  - rewrite get_frame_short by assumption. cbn. repeat split; reflexivity.
  - assert (Hg := get_frame_spec p frame ltac:(lia)). cbv zeta in Hg.
    destruct (get_frame p frame) as [[p1 f1] r]. cbn [fst snd].
    destruct Hg as [_ [_ [Hb [Hr [Hh [_ [_ [_ [Hc _]]]]]]]]].
    destruct (r >? 0).
    + assert (Hp := process_frame_fields p1 e f1). cbv zeta in Hp.
      destruct (process_frame p1 e f1) as [[[p2 e2] f2] r2]. cbn [fst snd] in *.
      destruct Hp as [_ [Hb2 [Hr2 [Hl2 [Ht2 [Hh2 [_ [Hc2 [Hdl2 Hd2]]]]]]]]].
      destruct (negb (f_frame_no f2 =? FRAME_NO_UNKNOWN)); cbn;
        repeat split; congruence.
    + cbn. repeat split; congruence.
Qed.

End Frames.

Lemma cmp_frame_sync_ext d b d' b' :
  (forall i, 1 <= i <= 7 -> ld8 d (b + i) = ld8 d' (b' + i)) ->
  cmp_frame_sync d b = cmp_frame_sync d' b'.
Proof.
  intros H. unfold cmp_frame_sync. cbn [for_loop].
  rewrite !Z.add_0_l.
  replace (b + 0 + 1) with (b + 1) by lia. replace (b' + 0 + 1) with (b' + 1) by lia.
  replace (b + 1 + 1) with (b + 2) by lia. replace (b' + 1 + 1) with (b' + 2) by lia.
  change (1 + 1) with 2. change (2 + 1) with 3. change (3 + 1) with 4.
  change (4 + 1) with 5. change (5 + 1) with 6.
  replace (b + 2 + 1) with (b + 3) by lia. replace (b' + 2 + 1) with (b' + 3) by lia.
  replace (b + 3 + 1) with (b + 4) by lia. replace (b' + 3 + 1) with (b' + 4) by lia.
  replace (b + 4 + 1) with (b + 5) by lia. replace (b' + 4 + 1) with (b' + 5) by lia.
  replace (b + 5 + 1) with (b + 6) by lia. replace (b' + 5 + 1) with (b' + 6) by lia.
  replace (b + 6 + 1) with (b + 7) by lia. replace (b' + 6 + 1) with (b' + 7) by lia.
  rewrite !H by lia. reflexivity.
Qed.

Section Tracking.
Context `{E : Externals}.

(** The two outcomes of a turn on a buffer that holds a frame, and the
    outcome on a buffer that does not. *)
Lemma process_turn_cases p e frame :
  let x := process_turn p e frame in
  let p' := turn_state x in
  let sync_err := cmp_frame_sync (data p) 0 in
  let total :=
    if sync_err + last_sync_err p >? MAX_FRAME_SYNC_ERR
    then 1 + 2 * total_sync_err p else 0 in
  has_frame_sync p' = has_frame_sync p /\
  ((data_len p < FRAME_LEN /\ x = (p, e, frame, 0)) \/
   (FRAME_LEN <= data_len p /\ total_sync_err p' = total /\
    ((FRAME_LEN <= total /\ turn_r x = -1 /\
      last_sync_err p' = last_sync_err p /\
      data_len p' = data_len p /\ data p' = data p) \/
     (total < FRAME_LEN /\ turn_r x = 1 /\
      last_sync_err p' = sync_err /\
      data_len p' = data_len p - FRAME_LEN /\
      data p' = memmove (data p) 0 (data p) FRAME_LEN (data_len p - FRAME_LEN))))).
Proof.
  intros x p' sync_err total. subst x p'.
  assert (Hs := process_turn_sync p e frame). cbv zeta in Hs.
  destruct Hs as [Hr [Ht [Hl [Hdl [Hd [Hh _]]]]]].
  split; [assumption|].
  destruct (Z_lt_dec (data_len p) FRAME_LEN) as [Hshort|Hlong].
  - left. split; [assumption|].
    unfold process_turn. rewrite get_frame_short by assumption. reflexivity.
  - right. split; [lia|].
    assert (Hg := get_frame_spec p frame ltac:(lia)). cbv zeta in Hg.
    fold sync_err in Hg. fold total in Hg.
    destruct (get_frame p frame) as [[p1 f1] r]. cbn [fst snd] in *.
    destruct Hg as [Hg1 [Hg2 _]]. split; [congruence|].
    destruct (total >=? FRAME_LEN) eqn:Hc.
    + apply Z.geb_le in Hc. left. intuition congruence.
    + rewrite Z.geb_leb in Hc. apply Z.leb_gt in Hc. right. intuition congruence.
Qed.

(** The frame loop ends, and it ends on a turn that did not yield a frame,
    started from a state every earlier turn has kept within [I]. *)
Lemma process_loop_spec (I : phys_ch_t -> Prop) :
  (forall p e fr, I p -> turn_r (process_turn p e fr) > 0 ->
                  I (turn_state (process_turn p e fr))) ->
  forall fuel p e fr,
    I p -> (Z.to_nat (data_len p) < fuel)%nat ->
    exists p0 e0 fr0,
      I p0 /\ turn_r (process_turn p0 e0 fr0) <= 0 /\
      process_loop fuel p e fr
      = Some (turn_state (process_turn p0 e0 fr0),
              turn_env (process_turn p0 e0 fr0),
              turn_r (process_turn p0 e0 fr0)).
Proof.
  intros Hstep. induction fuel as [|fuel IH]; intros p e fr HI Hfuel; [lia|].
  cbn [process_loop].
  assert (Hc := process_turn_cases p e fr). cbv zeta in Hc.
  specialize (Hstep p e fr HI).
  destruct (process_turn p e fr) as [[[p1 e1] fr1] r] eqn:Hturn.
  unfold turn_state, turn_env, turn_r in *. cbn [fst snd] in *.
  destruct (r >? 0) eqn:Hr.
  - apply Z.gtb_lt in Hr.
    apply IH; [apply Hstep; lia|].
    destruct Hc as [_ [[_ Heq]|[Hlen [_ [[_ [Hr' _]]|[_ [_ [_ [Hdl _]]]]]]]]].
    + inversion Heq. lia.
    + lia.
    + unfold FRAME_LEN, FRAME_HDR_LEN, FRAME_DATA_LEN in *. lia.
  - rewrite Z.gtb_ltb in Hr. apply Z.ltb_ge in Hr.
    exists p, e, fr. rewrite Hturn. cbn [fst snd]. auto.
Qed.

End Tracking.

Section TrackingRuns.
Context `{E : Externals}.

Lemma run_state_start p : total_sync_err p = 0 -> run_state p 0 p.
Proof.
  intros Ht. unfold run_state. rewrite Ht. cbn.
  repeat split; try reflexivity; try lia.
  intros j Hj. f_equal. lia.
Qed.

(** A turn of the loop on the [n]-th frame of a run of failing frames. *)
Lemma run_state_turn p n q e fr :
  0 <= n <= 7 ->
  8 * FRAME_LEN <= data_len p <= Z.of_nat (length (data p)) ->
  run_state p n q -> frame_fails_sum_test p n ->
  let x := process_turn q e fr in
  (n < 7 -> turn_r x = 1 /\ run_state p (n + 1) (turn_state x)) /\
  (n = 7 -> turn_r x = -1 /\ total_sync_err (turn_state x) = 255 /\
            data_len (turn_state x) = data_len p - 7 * FRAME_LEN /\
            has_frame_sync (turn_state x) = has_frame_sync p).
Proof.
  intros Hn Hlen [Ht [Hdl [Hl [Hld [Hlast Hh]]]]] Hfail x. subst x.
  assert (Hc := process_turn_cases q e fr). cbv zeta in Hc.
  change FRAME_LEN with 160 in *.
  assert (Hse : cmp_frame_sync (data q) 0 = frame_sync_err p n).
  { unfold frame_sync_err. apply cmp_frame_sync_ext. intros i Hi.
    rewrite Z.add_0_l, Hld by lia. f_equal. change FRAME_LEN with 160. lia. }
  rewrite Hse, Hlast, Ht in Hc.
  unfold frame_fails_sum_test in Hfail.
  replace (frame_sync_err p n
           + (if n =? 0 then last_sync_err p else frame_sync_err p (n - 1))
           >? MAX_FRAME_SYNC_ERR) with true in Hc
    by (symmetry; apply Z.gtb_lt; lia).
  assert (Hpow : 1 + 2 * (2 ^ n - 1) = 2 ^ (n + 1) - 1)
    by (change (n + 1) with (Z.succ n); rewrite Z.pow_succ_r by lia; lia).
  rewrite Hpow in Hc.
  destruct Hc as [Hsync [[Hshort _]|[_ [Htot Hcase]]]]; [lia|].
  split.
  - intros Hlt.
    assert (Hb : 2 ^ (n + 1) <= 2 ^ 7) by (apply Z.pow_le_mono_r; lia).
    change (2 ^ 7) with 128 in Hb.
    destruct Hcase as [[Hbig _]|[_ [Hr [Hl' [Hdl' Hd']]]]]; [lia|].
    split; [assumption|]. unfold run_state.
    split; [assumption|]. split; [change FRAME_LEN with 160; lia|].
    split; [rewrite Hd'; unfold memmove; rewrite length_memcpy; lia|].
    split; [|split].
    + intros j Hj. rewrite Hd', ld_memmove_down by lia.
      rewrite Hld by lia. f_equal. change FRAME_LEN with 160. lia.
    + rewrite Hl'. destruct (n + 1 =? 0) eqn:H0; [apply Z.eqb_eq in H0; lia|].
      f_equal. lia.
    + congruence.
  - intros ->. change (2 ^ (7 + 1) - 1) with 255 in *.
    destruct Hcase as [[_ [Hr [_ [Hdl' _]]]]|[Hsmall _]]; [|lia].
    repeat split; try assumption; try congruence. lia.
Qed.

Lemma process_turns_S n p e fr :
  process_turns (S n) p e fr
  = process_turn (turn_state (process_turns n p e fr))
      (turn_env (process_turns n p e fr)) (snd (fst (process_turns n p e fr))).
Proof.
  cbn [process_turns]. now destruct (process_turns n p e fr) as [[[q e'] fr'] r].
Qed.

Lemma process_turns_run p e fr (n : nat) :
  (n <= 7)%nat ->
  8 * FRAME_LEN <= data_len p <= Z.of_nat (length (data p)) ->
  total_sync_err p = 0 ->
  (forall i, 0 <= i < 8 -> frame_fails_sum_test p i) ->
  run_state p (Z.of_nat n) (turn_state (process_turns n p e fr)) /\
  ((1 <= n)%nat -> turn_r (process_turns n p e fr) = 1).
Proof.
  intros Hn Hlen Ht Hfail. revert Hn. induction n as [|n IH]; intros Hn.
  - split; [now apply run_state_start | lia].
  - assert (Hn' : (n <= 7)%nat) by lia. specialize (IH Hn').
    destruct IH as [IH _]. cbn [process_turns].
    destruct (process_turns n p e fr) as [[[q e'] fr'] r].
    unfold turn_state in IH. cbn [fst] in IH.
    destruct (run_state_turn p (Z.of_nat n) q e' fr' ltac:(lia) Hlen IH
                (Hfail (Z.of_nat n) ltac:(lia))) as [H _].
    destruct (H ltac:(lia)) as [Hr Hrun].
    replace (Z.of_nat (S n)) with (Z.of_nat n + 1) by lia. now split.
Qed.

End TrackingRuns.

Section TrackingSpec.
Context `{E : Externals}.

Lemma process_synced p e :
  has_frame_sync p = true -> tetrapol_phys_ch_process p e = process_track p e.
Proof.
  intros H. unfold tetrapol_phys_ch_process, process_acquire. now rewrite H.
Qed.

(** A call on a synchronised channel whose counter is below [FRAME_LEN]
    returns 0 and has lost the synchronisation exactly when the counter has
    reached [FRAME_LEN]. *)
Lemma process_track_loss p e :
  has_frame_sync p = true -> total_sync_err p < FRAME_LEN ->
  exists p' e',
    process_track p e = Some (p', e', 0) /\
    (has_frame_sync p' = false <-> FRAME_LEN <= total_sync_err p').
Proof.
  intros Hs Ht. unfold process_track.
  destruct (process_loop_spec
              (fun q => has_frame_sync q = true /\ total_sync_err q < FRAME_LEN))
    with (fuel := S (Z.to_nat (data_len p))) (p := p) (e := e) (fr := frame_local)
    as [p0 [e0 [fr0 [[Hs0 Ht0] [Hr Hloop]]]]].
  - intros q e1 fr [Hq1 Hq2] Hr.
    destruct (process_turn_cases q e1 fr) as [Hh [[_ Heq]|[_ [Htot [[_ [Hr' _]]|[Hsm _]]]]]].
    + rewrite Heq in Hr. unfold turn_r in Hr. cbn in Hr. lia.
    + lia.
    + split; [congruence|]. rewrite Htot. exact Hsm.
  - now split.
  - lia.
  - rewrite Hloop.
    destruct (process_turn_cases p0 e0 fr0)
      as [Hh [[_ Heq]|[_ [Htot [[Hbig [Hr' _]]|[_ [Hr' _]]]]]]].
    + rewrite Heq. unfold turn_r, turn_state, turn_env. cbn.
      eexists _, _. split; [reflexivity|]. rewrite Hs0.
      change FRAME_LEN with 160 in *. split; [discriminate | lia].
    + rewrite Hr'. cbn. eexists _, _. split; [reflexivity|]. cbn.
      rewrite Htot. split; [intros _; change FRAME_LEN with 160 in *; lia | reflexivity].
    + lia.
Qed.

(** C2 (tracking and loss).  On a synchronised channel, a turn of the frame
    loop that finds a frame sets [total_sync_err] to [1 + 2*total_sync_err]
    when [sync_err + last_sync_err > 1] and to 0 otherwise; the turn reports
    the loss (-1) exactly when the updated counter has reached
    [FRAME_LEN = 160], and yields the frame (1) exactly when it has not.
    The call returns 0, and it has cleared [has_frame_sync] exactly when
    the counter has reached [FRAME_LEN].  From a counter of 0, eight
    buffered frames that each fail the sum test give the counter values
    1, 3, 7, 15, 31, 63, 127, 255; seven frames are extracted and the
    eighth turn loses the synchronisation. *)
Theorem sync_tracking_spec (p : phys_ch_t) (e : env_t) :
  has_frame_sync p = true -> total_sync_err p < FRAME_LEN ->
  FRAME_LEN = 160 /\ MAX_FRAME_SYNC_ERR = 1 /\
  (forall frame, FRAME_LEN <= data_len p ->
     let x := process_turn p e frame in
     total_sync_err (turn_state x)
     = (if cmp_frame_sync (data p) 0 + last_sync_err p >? 1
        then 1 + 2 * total_sync_err p else 0) /\
     (turn_r x = -1 <-> FRAME_LEN <= total_sync_err (turn_state x)) /\
     (turn_r x = 1 <-> total_sync_err (turn_state x) < FRAME_LEN)) /\
  (exists p' e',
     tetrapol_phys_ch_process p e = Some (p', e', 0) /\
     (has_frame_sync p' = false <-> FRAME_LEN <= total_sync_err p')) /\
  (8 * FRAME_LEN <= data_len p <= Z.of_nat (length (data p)) ->
   total_sync_err p = 0 ->
   (forall i, 0 <= i < 8 -> frame_fails_sum_test p i) ->
   map (fun n => total_sync_err (turn_state (process_turns n p e frame_local)))
       [1; 2; 3; 4; 5; 6; 7; 8]%nat
   = [1; 3; 7; 15; 31; 63; 127; 255] /\
   map (fun n => turn_r (process_turns n p e frame_local))
       [1; 2; 3; 4; 5; 6; 7; 8]%nat
   = [1; 1; 1; 1; 1; 1; 1; -1] /\
   exists p' e',
     tetrapol_phys_ch_process p e = Some (p', e', 0) /\
     has_frame_sync p' = false /\ total_sync_err p' = 255 /\
     data_len p' = data_len p - 7 * FRAME_LEN).
Proof.
  intros Hs Ht. split; [reflexivity|]. split; [reflexivity|]. split; [|split].
  - intros frame Hlen x. subst x.
    destruct (process_turn_cases p e frame) as [_ [[Hshort _]|[_ [Htot Hcase]]]]; [lia|].
    change MAX_FRAME_SYNC_ERR with 1 in Htot.
    split; [exact Htot|].
    rewrite Htot.
    destruct Hcase as [[Hbig [Hr _]]|[Hsm [Hr _]]]; rewrite Hr;
      change MAX_FRAME_SYNC_ERR with 1 in *; split; split; lia.
  - rewrite process_synced by assumption. now apply process_track_loss.
  - intros Hlen H0 Hfail.
    assert (Hrun := fun n Hn =>
      process_turns_run p e frame_local n Hn Hlen H0 Hfail).
    assert (Hlast : turn_r (process_turns 8 p e frame_local) = -1 /\
                    total_sync_err (turn_state (process_turns 8 p e frame_local)) = 255).
    { destruct (Hrun 7%nat ltac:(lia)) as [H7 _].
      rewrite (process_turns_S 7).
      destruct (run_state_turn p 7 _ (turn_env (process_turns 7 p e frame_local))
                  (snd (fst (process_turns 7 p e frame_local)))
                  ltac:(lia) Hlen H7 (Hfail 7 ltac:(lia)))
        as [_ H]. destruct (H eq_refl) as [Hr [Htot _]]. now split. }
    split; [|split].
    + cbn [map].
      destruct (Hrun 1%nat ltac:(lia)) as [[-> _] _].
      destruct (Hrun 2%nat ltac:(lia)) as [[-> _] _].
      destruct (Hrun 3%nat ltac:(lia)) as [[-> _] _].
      destruct (Hrun 4%nat ltac:(lia)) as [[-> _] _].
      destruct (Hrun 5%nat ltac:(lia)) as [[-> _] _].
      destruct (Hrun 6%nat ltac:(lia)) as [[-> _] _].
      destruct (Hrun 7%nat ltac:(lia)) as [[-> _] _].
      destruct Hlast as [_ ->]. reflexivity.
    + cbn [map].
      destruct (Hrun 1%nat ltac:(lia)) as [_ ->]; [|lia].
      destruct (Hrun 2%nat ltac:(lia)) as [_ ->]; [|lia].
      destruct (Hrun 3%nat ltac:(lia)) as [_ ->]; [|lia].
      destruct (Hrun 4%nat ltac:(lia)) as [_ ->]; [|lia].
      destruct (Hrun 5%nat ltac:(lia)) as [_ ->]; [|lia].
      destruct (Hrun 6%nat ltac:(lia)) as [_ ->]; [|lia].
      destruct (Hrun 7%nat ltac:(lia)) as [_ ->]; [|lia].
      destruct Hlast as [-> _]. reflexivity.
    + rewrite process_synced by assumption. unfold process_track.
      destruct (process_loop_spec
                  (fun q => exists n, 0 <= n <= 7 /\ run_state p n q))
        with (fuel := S (Z.to_nat (data_len p))) (p := p) (e := e) (fr := frame_local)
        as [p0 [e0 [fr0 [[n [Hn Hst]] [Hr Hloop]]]]].
      * intros q e1 fr [n [Hn Hst]] Hr.
        destruct (run_state_turn p n q e1 fr Hn Hlen Hst (Hfail n ltac:(lia)))
          as [Hlt Heq].
        destruct (Z.eq_dec n 7) as [->|Hne].
        -- destruct (Heq eq_refl) as [Hr' _]. lia.
        -- destruct (Hlt ltac:(lia)) as [_ Hst']. exists (n + 1). split; [lia | assumption].
      * exists 0. split; [lia | now apply run_state_start].
      * lia.
      * rewrite Hloop.
        destruct (run_state_turn p n p0 e0 fr0 Hn Hlen Hst (Hfail n ltac:(lia)))
          as [Hlt Heq].
        destruct (Z.eq_dec n 7) as [->|Hne].
        -- destruct (Heq eq_refl) as [Hr' [Htot [Hdl _]]]. rewrite Hr'. cbn.
           eexists _, _. split; [reflexivity|]. cbn. auto.
        -- destruct (Hlt ltac:(lia)) as [Hr' _]. lia.
Qed.

End TrackingSpec.

Lemma sync_tracking_spec_witness :
  map (fun n => total_sync_err
                  (turn_state (process_turns n noisy_channel sample_env frame_local)))
      [1; 2; 3; 4; 5; 6; 7; 8]%nat
  = [1; 3; 7; 15; 31; 63; 127; 255] /\
  exists p' e',
    tetrapol_phys_ch_process noisy_channel sample_env = Some (p', e', 0) /\
    has_frame_sync p' = false /\ total_sync_err p' = 255 /\
    data_len p' = data_len noisy_channel - 7 * FRAME_LEN.
Proof.
  destruct (sync_tracking_spec noisy_channel sample_env) as [_ [_ [_ [_ H]]]].
  - reflexivity.
  - vm_compute. reflexivity.
  - destruct H as [H1 [_ H3]].
    + vm_compute. split; discriminate.
    + reflexivity.
    + intros i Hi. unfold frame_fails_sum_test.
      assert (Hc : i = 0 \/ i = 1 \/ i = 2 \/ i = 3 \/ i = 4 \/ i = 5 \/ i = 6 \/ i = 7)
        by lia.
      destruct Hc as [-> | [-> | [-> | [-> | [-> | [-> | [-> | ->]]]]]]];
        vm_compute; reflexivity.
    + split; assumption.
Defined.

(** ** Invariants of the public interface *)

Section Invariants.
Context `{E : Externals}.

(** What the acquisition does to the channel: it shifts the buffer by some
    offset within it, sets the synchronisation fields and the frame number,
    and leaves the rest. *)
Lemma process_acquire_fields p e :
  0 <= data_len p ->
  let p' := fst (fst (process_acquire p e)) in
  (p' = p \/
   exists o, 0 <= o <= data_len p /\
             data_len p' = data_len p - o /\
             data p' = memmove (data p) 0 (data p) o (data_len p - o)) /\
  band p' = band p /\ rch_type p' = rch_type p /\ scr p' = scr p /\
  scr_guess p' = scr_guess p /\ scr_confidence p' = scr_confidence p /\
  scr_stat p' = scr_stat p.
Proof.
  intros Hdl. unfold process_acquire.
  destruct (has_frame_sync p); cbn [negb]; [cbn; auto 10|].
  destruct (find_frame_sync_spec p) as [Hcases [Hfound Hnone]].
  destruct Hcases as [[o Hfirst]|Hno].
  - rewrite (Hfound o Hfirst). cbn. split; [|auto 10].
    right. exists o. split; [|auto].
    destruct Hfirst as [[H1 [H2 _]] _].
    unfold FRAME_LEN, FRAME_HDR_LEN, FRAME_DATA_LEN in H2. lia.
  - rewrite (Hnone Hno). cbn. split; [|auto 10].
    right. eexists. split; [|split; reflexivity].
    unfold FRAME_LEN, FRAME_HDR_LEN, FRAME_DATA_LEN. lia.
Qed.

(** A property kept by the acquisition, by every turn of the frame loop and
    by the loss of synchronisation holds after [tetrapol_phys_ch_process],
    which always returns, and returns 0. *)
Lemma process_acquire_config p e :
  let p' := fst (fst (process_acquire p e)) in
  band p' = band p /\ rch_type p' = rch_type p /\ scr p' = scr p /\
  scr_guess p' = scr_guess p /\ scr_confidence p' = scr_confidence p /\
  scr_stat p' = scr_stat p.
Proof.
  unfold process_acquire, find_frame_sync.
  destruct (has_frame_sync p); cbn [negb]; [cbn; auto 10|].
  destruct (find_frame_sync_loop (Z.to_nat (data_len p)) p 0 (MAX_FRAME_SYNC_ERR + 1))
    as [o se].
  destruct (se <=? MAX_FRAME_SYNC_ERR); cbn; auto 10.
Qed.

Lemma process_invariant (I : phys_ch_t -> Prop) :
  (forall p e, I p -> I (fst (fst (process_acquire p e)))) ->
  (forall p e fr, I p -> I (turn_state (process_turn p e fr))) ->
  (forall p, I p -> I (set_has_frame_sync p false)) ->
  forall p e, I p ->
    exists p' e', tetrapol_phys_ch_process p e = Some (p', e', 0) /\ I p'.
Proof.
  intros Hacq Hturn Hlost p e HI. unfold tetrapol_phys_ch_process.
  specialize (Hacq p e HI).
  destruct (process_acquire p e) as [[p1 e1] go]. cbn [fst] in Hacq.
  destruct go; [|now eexists _, _].
  unfold process_track.
  destruct (process_loop_spec I) with (fuel := S (Z.to_nat (data_len p1)))
    (p := p1) (e := e1) (fr := frame_local) as [p0 [e0 [fr0 [HI0 [_ Hloop]]]]];
    [intros; now apply Hturn | assumption | lia |].
  rewrite Hloop. specialize (Hturn p0 e0 fr0 HI0).
  destruct (turn_r (process_turn p0 e0 fr0) =? 0); eexists _, _; split;
    try reflexivity; auto.
Qed.

Lemma process_turn_buffer_ok p e fr :
  buffer_ok p -> buffer_ok (turn_state (process_turn p e fr)).
Proof.
  intros [Hl Hd]. unfold buffer_ok.
  change DATA_SIZE with 1600 in *. change FRAME_LEN with 160 in *.
  destruct (process_turn_cases p e fr)
    as [_ [[_ ->]|[Hlen [_ [[_ [_ [_ [-> ->]]]]|[_ [_ [_ [-> ->]]]]]]]]].
  - cbn. auto.
  - auto.
  - unfold memmove. change FRAME_LEN with 160 in *.
    rewrite length_memcpy by lia. split; [assumption | lia].
Qed.

Lemma process_buffer_ok p e :
  buffer_ok p ->
  exists p' e', tetrapol_phys_ch_process p e = Some (p', e', 0) /\ buffer_ok p'.
Proof.
  apply (process_invariant buffer_ok).
  - intros q e1 [Hl Hd].
    destruct (process_acquire_fields q e1 ltac:(lia)) as [[->|[o [Ho [Hdl Hdata]]]] _].
    + now split.
    + unfold buffer_ok. rewrite Hdl, Hdata. unfold memmove.
      rewrite length_memcpy by lia. split; [assumption | lia].
  - intros q e1 fr. apply process_turn_buffer_ok.
  - intros q H. exact H.
Qed.

Lemma create_buffer_ok b t p :
  tetrapol_phys_ch_create b t = Some p -> buffer_ok p /\ data_len p = 0.
Proof.
  unfold tetrapol_phys_ch_create.
  destruct (negb (b =? TETRAPOL_BAND_VHF) && negb (b =? TETRAPOL_BAND_UHF));
    [discriminate|].
  destruct (negb (t =? TETRAPOL_RCH_CONTROL) && negb (t =? TETRAPOL_RCH_TRAFFIC));
    [discriminate|].
  intros H. inversion H. unfold buffer_ok. cbn. repeat split; lia.
Qed.

Lemma step_buffer_ok p p' : buffer_ok p -> step p p' -> buffer_ok p'.
Proof.
  intros Hok Hstep. destruct Hstep as [p s|p c|p buf len Hlen|p e p' e' r Hp].
  - exact Hok.
  - exact Hok.
  - now destruct (tetrapol_recv2_spec p buf len Hok Hlen) as [_ [_ [_ H]]].
  - destruct (process_buffer_ok p e Hok) as [q [e1 [Hq Hok']]].
    rewrite Hq in Hp. now inversion Hp; subst.
Qed.

Lemma reachable_buffer_ok p : reachable p -> buffer_ok p.
Proof.
  induction 1 as [b t p Hc|p p' _ IH Hstep].
  - now destruct (create_buffer_ok b t p Hc).
  - now apply step_buffer_ok with p.
Qed.

(** C9 (bounded intake).  On every channel a caller can hold, the buffer
    holds at most [10*FRAME_LEN = 1600] bits, and a call of [recv] with a
    buffer of [len] bits returns [min(len, 1600 - data_len)], appends
    exactly that many bits, the first ones offered, and leaves at most 1600
    bits in the buffer; on an empty buffer, 1700 offered bits give 1600. *)
Theorem tetrapol_recv2_bounded (p : phys_ch_t) (buf : list N) (len : Z) :
  reachable p -> 0 <= len <= Z.of_nat (length buf) ->
  let p' := fst (tetrapol_recv2 p buf len) in
  let r := snd (tetrapol_recv2 p buf len) in
  DATA_SIZE = 10 * FRAME_LEN /\ DATA_SIZE = 1600 /\
  0 <= data_len p <= DATA_SIZE /\
  r = Z.min len (DATA_SIZE - data_len p) /\
  data_len p' = data_len p + r /\
  buffer p' = buffer p ++ firstn (Z.to_nat r) buf /\
  0 <= data_len p' <= DATA_SIZE /\
  reachable p' /\
  (data_len p = 0 -> len = 10 * FRAME_LEN + 100 -> r = 10 * FRAME_LEN).
Proof.
  intros Hreach Hlen p' r.
  assert (Hok := reachable_buffer_ok p Hreach).
  destruct (tetrapol_recv2_spec p buf len Hok Hlen) as [Hr [Hdl [Hb Hok']]].
  fold p' in Hdl, Hb, Hok'. fold r in Hr, Hdl, Hb.
  split; [reflexivity|]. split; [reflexivity|].
  split; [exact (proj2 Hok)|]. split; [exact Hr|]. split; [exact Hdl|].
  split; [exact Hb|]. split; [exact (proj2 Hok')|]. split.
  - apply reach_step with p; [assumption|]. now apply step_recv.
  - intros H0 H1. rewrite Hr, H0, H1. reflexivity.
Qed.

End Invariants.

Lemma sample_channel_reachable : reachable sample_channel.
Proof. apply reach_create with (b := 1) (t := 1). reflexivity. Qed.

Lemma tetrapol_recv2_bounded_witness :
  snd (tetrapol_recv2 sample_channel (repeat 0%N 1700) 1700) = 1600 /\
  data_len (fst (tetrapol_recv2 sample_channel (repeat 0%N 1700) 1700)) = 1600.
Proof.
  destruct (tetrapol_recv2_bounded sample_channel (repeat 0%N 1700) 1700)
    as [_ [_ [_ [_ [Hdl [_ [_ [_ Hr]]]]]]]].
  - exact sample_channel_reachable.
  - rewrite repeat_length. lia.
  - split.
    + apply Hr; reflexivity.
    + rewrite Hdl, Hr; reflexivity.
Defined.

(** ** SCR detection *)

Lemma scr_stat_penalise_spec `{E : Externals} stat k :
  0 <= k < Z.of_nat (length stat) ->
  length (scr_stat_penalise stat k) = length stat /\
  ldi (scr_stat_penalise stat k) k = Z.max 0 (ldi stat k - 2) /\
  forall j, j <> k -> ldi (scr_stat_penalise stat k) j = ldi stat j.
Proof.
  intros Hk. unfold scr_stat_penalise. rewrite ld_st_same by assumption.
  destruct (ldi stat k - 2 <? 0) eqn:Hneg.
  - apply Z.ltb_lt in Hneg. rewrite !length_st.
    rewrite ld_st_same by (rewrite length_st; assumption).
    split; [reflexivity|]. split; [lia|].
    intros j Hj. now rewrite !ld_st_other by auto.
  - apply Z.ltb_ge in Hneg. rewrite length_st, ld_st_same by assumption.
    split; [reflexivity|]. split; [lia|].
    intros j Hj. now rewrite ld_st_other by auto.
Qed.

Section ScrDetection.
Context `{E : Externals}.

Lemma scr_trial_errs_nonneg band_ f k : 0 <= snd (scr_trial band_ f k).
Proof. unfold scr_trial. apply frame_decode_data_errs_nonneg. Qed.

Lemma detect_scr_stats_spec p f :
  length (scr_stat p) = 128%nat ->
  length (detect_scr_stats p f) = 128%nat /\
  forall k, 0 <= k < 128 ->
    ldi (detect_scr_stats p f) k = score_update (band p) f (scr_stat p) k.
Proof.
  intros Hlen. unfold detect_scr_stats.
  change (Z.to_nat SCR_STAT_LEN) with 128%nat.
  match goal with |- context [for_loop _ _ ?b _] => set (body := b) end.
  assert (H := for_loop_inv
    (fun i stat =>
       length stat = 128%nat /\
       (forall k, 0 <= k < i -> ldi stat k = score_update (band p) f (scr_stat p) k) /\
       (forall k, i <= k -> ldi stat k = ldi (scr_stat p) k))
    128 0 body (scr_stat p)).
  cbv beta in H. change (0 + Z.of_nat 128) with 128 in H.
  destruct H as [Hl [Hlo _]].
  - split; [assumption|]. split; [intros; lia | reflexivity].
  - intros i stat Hi [Hl [Hlo Hhi]].
    assert (Hnn := scr_trial_errs_nonneg (band p) f i).
    assert (Hbody : length (body i stat) = 128%nat /\
                    ldi (body i stat) i = score_update (band p) f (scr_stat p) i /\
                    forall j, j <> i -> ldi (body i stat) j = ldi stat j).
    { unfold body, score_update.
      destruct (scr_trial (band p) f i) as [df errs]. cbn [snd] in Hnn.
      destruct (scr_stat_penalise_spec stat i ltac:(lia)) as [Hp1 [Hp2 Hp3]].
      rewrite <- (Hhi i) by lia.
      destruct (errs =? 0) eqn:He; cbn [negb].
      - apply Z.eqb_eq in He. subst errs. change (0 >? 0) with false. cbn [orb].
        destruct (decoded_frame_check_crc df FRAME_TYPE_DATA); cbn [negb].
        + rewrite length_st, ld_st_same by lia.
          repeat split; auto. intros j Hj. now rewrite ld_st_other by auto.
        + rewrite Hp1. auto.
      - apply Z.eqb_neq in He.
        replace (errs >? 0) with true by (symmetry; apply Z.gtb_lt; lia).
        cbn [orb]. rewrite Hp1. auto. }
    destruct Hbody as [Hb1 [Hb2 Hb3]]. split; [assumption|]. split.
    + intros k Hk. destruct (Z.eq_dec k i) as [->|Hne]; [assumption|].
      rewrite Hb3 by assumption. apply Hlo. lia.
    + intros k Hk. rewrite Hb3 by lia. apply Hhi. lia.
  - split; assumption.
Qed.

Lemma score_update_nonneg band_ f stat k :
  0 <= ldi stat k -> 0 <= score_update band_ f stat k.
Proof.
  intros H. unfold score_update. destruct (scr_trial band_ f k) as [df errs].
  destruct ((errs >? 0) || negb (decoded_frame_check_crc df FRAME_TYPE_DATA)); lia.
Qed.

(** The search for the best key. *)
Lemma detect_scr_best_spec stat :
  let best := fst (detect_scr_best stat) in
  let second := snd (detect_scr_best stat) in
  0 <= best < 128 /\ 0 <= second < 128 /\ best <> second /\
  (forall k, 0 <= k < 128 -> ldi stat k <= ldi stat best) /\
  (forall k, best < k < 128 -> 2 <= k -> ldi stat k < ldi stat best) /\
  (best = 0 -> ldi stat 1 <= ldi stat 0) /\
  (best = 1 -> ldi stat 0 < ldi stat 1).
Proof.
  unfold detect_scr_best.
  change (Z.to_nat (SCR_STAT_LEN - 2)) with 126%nat.
  set (s := if ldi stat 0 <? ldi stat 1 then (1, 0) else (0, 1)).
  set (body := fun (scr_ : Z) '(scr_max, scr_max2) =>
                 if ldi stat scr_ >=? ldi stat scr_max
                 then (scr_, scr_max) else (scr_max, scr_max2)).
  replace (let '(scr_max, scr_max2) := s in for_loop 126 2 body (scr_max, scr_max2))
    with (for_loop 126 2 body s) by now destruct s.
  assert (H := for_loop_inv
    (fun i (x : Z * Z) =>
       0 <= fst x < i /\ 0 <= snd x < i /\ fst x <> snd x /\
       (forall k, 0 <= k < i -> ldi stat k <= ldi stat (fst x)) /\
       (forall k, fst x < k < i -> 2 <= k -> ldi stat k < ldi stat (fst x)) /\
       (fst x = 0 -> ldi stat 1 <= ldi stat 0) /\
       (fst x = 1 -> ldi stat 0 < ldi stat 1))
    126 2 body s).
  cbv beta in H. change (2 + Z.of_nat 126) with 128 in H. apply H; clear H.
  - unfold s. destruct (ldi stat 0 <? ldi stat 1) eqn:Hc; cbn [fst snd].
    + apply Z.ltb_lt in Hc. repeat split; try lia.
      intros k Hk. assert (Hk' : k = 0 \/ k = 1) by lia.
      destruct Hk' as [-> | ->]; lia.
    + apply Z.ltb_ge in Hc. repeat split; try lia.
      intros k Hk. assert (Hk' : k = 0 \/ k = 1) by lia.
      destruct Hk' as [-> | ->]; lia.
  - intros i [m m2] Hi. cbn [fst snd]. intros [Hm [Hm2 [Hne [Hmax [Htie [H0 H1]]]]]].
    unfold body. destruct (ldi stat i >=? ldi stat m) eqn:Hc; cbn [fst snd].
    + apply Z.geb_le in Hc. repeat split; try lia.
      intros k Hk. destruct (Z.eq_dec k i) as [->|Hki]; [lia|].
      specialize (Hmax k ltac:(lia)). lia.
    + rewrite Z.geb_leb in Hc. apply Z.leb_gt in Hc. repeat split; try lia.
      * intros k Hk. destruct (Z.eq_dec k i) as [->|Hki]; [lia|].
        apply Hmax. lia.
      * intros k Hk Hk2. destruct (Z.eq_dec k i) as [->|Hki]; [lia|].
        apply Htie; lia.
Qed.

(** The key the search leaves in [scr_max2] is the best of the keys the
    scan met before the best one: the keys below it and, for the best key
    0, key 1. *)
Lemma detect_scr_best_second stat :
  let best := fst (detect_scr_best stat) in
  let second := snd (detect_scr_best stat) in
  (second < best \/ (best = 0 /\ second = 1)) /\
  forall k, 0 <= k -> k < best \/ (best = 0 /\ k = 1) ->
    ldi stat k <= ldi stat second.
Proof.
  unfold detect_scr_best.
  change (Z.to_nat (SCR_STAT_LEN - 2)) with 126%nat.
  set (s := if ldi stat 0 <? ldi stat 1 then (1, 0) else (0, 1)).
  set (body := fun (scr_ : Z) '(scr_max, scr_max2) =>
                 if ldi stat scr_ >=? ldi stat scr_max
                 then (scr_, scr_max) else (scr_max, scr_max2)).
  replace (let '(scr_max, scr_max2) := s in for_loop 126 2 body (scr_max, scr_max2))
    with (for_loop 126 2 body s) by now destruct s.
  assert (H := for_loop_inv
    (fun i (x : Z * Z) =>
       0 <= fst x < i /\
       (forall k, 0 <= k < i -> ldi stat k <= ldi stat (fst x)) /\
       (snd x < fst x \/ (fst x = 0 /\ snd x = 1)) /\
       (forall k, 0 <= k -> k < fst x \/ (fst x = 0 /\ k = 1) ->
          ldi stat k <= ldi stat (snd x)))
    126 2 body s).
  cbv beta in H. change (2 + Z.of_nat 126) with 128 in H.
  cbv zeta. apply H; clear H.
  - unfold s. destruct (ldi stat 0 <? ldi stat 1) eqn:Hc; cbn [fst snd].
    + apply Z.ltb_lt in Hc. split; [lia|]. split.
      * intros k Hk. assert (Hk' : k = 0 \/ k = 1) by lia.
        destruct Hk' as [-> | ->]; lia.
      * split; [lia|]. intros k Hk [Hlt|[H0 _]]; [|lia].
        assert (k = 0) as -> by lia. lia.
    + apply Z.ltb_ge in Hc. split; [lia|]. split.
      * intros k Hk. assert (Hk' : k = 0 \/ k = 1) by lia.
        destruct Hk' as [-> | ->]; lia.
      * split; [lia|]. intros k Hk [Hlt|[_ ->]]; lia.
  - intros i [m m2] Hi. cbn [fst snd]. intros [Hm [Hmax [Hbef Hsec]]].
    unfold body. destruct (ldi stat i >=? ldi stat m) eqn:Hc; cbn [fst snd].
    + apply Z.geb_le in Hc. split; [lia|]. split.
      * intros k Hk. destruct (Z.eq_dec k i) as [->|Hki]; [lia|].
        specialize (Hmax k ltac:(lia)). lia.
      * split; [lia|]. intros k Hk [Hlt|[H0 _]]; [|lia]. apply Hmax. lia.
    + rewrite Z.geb_leb in Hc. apply Z.leb_gt in Hc. split; [lia|]. split.
      * intros k Hk. destruct (Z.eq_dec k i) as [->|Hki]; [lia|].
        apply Hmax. lia.
      * split; assumption.
Qed.

End ScrDetection.

Section ScrSelection.
Context `{E : Externals}.

(** C5 (as amended).  After the score update of the 128 keys, [scr_guess]
    is a key of maximal score.  Among keys of maximal score it is the one
    of highest index, except that key 0 is chosen, not key 1, when these
    two hold the maximal score and no higher key does.  [scr] is set to
    that key whenever its score exceeds the score of every other key, so
    the runner-up's, by strictly more than [scr_confidence]; it is left
    alone whenever a key the scan met before it (a key of lower index, or
    key 1 for the best key 0) is not exceeded by strictly more than
    [scr_confidence]; and it is never set to anything but that key. *)
Theorem detect_scr_selection (p : phys_ch_t) (e : env_t) (f : frame_t) :
  let p' := fst (detect_scr p e f) in
  let stat := scr_stat p' in
  let best := scr_guess p' in
  stat = detect_scr_stats p f /\
  0 <= best < 128 /\
  (forall k, 0 <= k < 128 -> ldi stat k <= ldi stat best) /\
  (forall k, best < k < 128 -> ldi stat k = ldi stat best -> best = 0 /\ k = 1) /\
  (best = 1 -> ldi stat 0 < ldi stat 1) /\
  ((forall k, 0 <= k < 128 -> k <> best ->
      ldi stat best - scr_confidence p > ldi stat k) ->
   scr p' = best) /\
  (forall k, 0 <= k < 128 -> k < best \/ (best = 0 /\ k = 1) ->
     ldi stat best - scr_confidence p <= ldi stat k ->
     scr p' = scr p) /\
  (scr p' = scr p \/ scr p' = best).
Proof.
  intros p' stat best. subst p' stat best.
  destruct (detect_scr_fields p e f) as [Hst [Hg [Hs _]]].
  rewrite Hst, Hg, Hs.
  destruct (detect_scr_best_spec (detect_scr_stats p f))
    as [Hb [Hb2 [Hne [Hmax [Htie [H0 H1]]]]]].
  destruct (detect_scr_best_second (detect_scr_stats p f)) as [_ Hsec].
  set (stat := detect_scr_stats p f) in *.
  set (best := fst (detect_scr_best stat)) in *.
  set (second := snd (detect_scr_best stat)) in *.
  split; [reflexivity|]. split; [assumption|]. split; [assumption|].
  split; [|split; [assumption|split; [|split]]].
  - intros k Hk Heq. destruct (Z_lt_dec k 2) as [Hlt|Hge].
    + lia.
    + specialize (Htie k Hk ltac:(lia)). lia.
  - intros Hall. specialize (Hall second Hb2 ltac:(auto)).
    replace (ldi stat best - scr_confidence p >? ldi stat second) with true
      by (symmetry; apply Z.gtb_lt; lia).
    reflexivity.
  - intros k Hk Hbefore Hle.
    specialize (Hsec k ltac:(lia) Hbefore).
    replace (ldi stat best - scr_confidence p >? ldi stat second) with false
      by (symmetry; rewrite Z.gtb_ltb; apply Z.ltb_ge; lia).
    reflexivity.
  - destruct (ldi stat best - scr_confidence p >? ldi stat second); auto.
Qed.

End ScrSelection.

Lemma detect_scr_selection_witness :
  scr (fst (detect_scr eager_channel sample_env zero_frame)) = 0 /\
  scr_guess (fst (detect_scr eager_channel sample_env zero_frame)) = 0.
Proof.
  destruct (detect_scr_selection eager_channel sample_env zero_frame)
    as [Hst [_ [_ [_ [_ [Hcommit _]]]]]].
  assert (Hg : scr_guess (fst (detect_scr eager_channel sample_env zero_frame)) = 0)
    by (vm_compute; reflexivity).
  assert (Hstats : detect_scr_stats eager_channel zero_frame = 1 :: repeat 0 127)
    by (vm_compute; reflexivity).
  split; [|exact Hg].
  rewrite Hg in Hcommit. apply Hcommit.
  intros k Hk Hne. rewrite Hst, Hstats.
  assert (H := range_check
    (fun i => (i =? 0)
              || (ldi (1 :: repeat 0 127) i
                  <? ldi (1 :: repeat 0 127) 0 - scr_confidence eager_channel))
    128 ltac:(vm_compute; reflexivity) k Hk).
  apply orb_prop in H as [H|H].
  - apply Z.eqb_eq in H. contradiction.
  - apply Z.ltb_lt in H. lia.
Defined.

(** C5 (as stated) fails twice.  On a fresh channel and a frame no key
    decodes, all scores stay 0 and [scr_guess] is key 127, not key 0.  And
    with scores 100, 0, 90 for keys 0, 1, 2 after the update and a
    confidence of 50, [scr] is set to key 0 although the runner-up, key 2,
    is only 10 behind: the scan compares with key 1. *)
Lemma detect_scr_counterexample :
  (let p' := fst (detect_scr sample_channel sample_env sample_frame) in
   scr_stat p' = repeat 0 128 /\ scr_guess p' = 127) /\
  (let p' := fst (detect_scr close_race_channel sample_env sample_frame) in
   scr_stat p' = 100 :: 0 :: 90 :: repeat 0 125 /\
   scr_confidence close_race_channel = 50 /\
   scr close_race_channel = -1 /\ scr p' = 0).
Proof.
  split; vm_compute; repeat split; reflexivity.
Qed.

(** ** Scores *)

Lemma ld_repeat {A} (d x : A) n i : 0 <= i < Z.of_nat n -> ld d (repeat x n) i = x.
Proof.
  intros Hi. unfold ld. destruct (i <? 0) eqn:H; [apply Z.ltb_lt in H; lia|].
  apply nth_repeat_lt. lia.
Qed.

Section Scores.
Context `{E : Externals}.

Lemma scores_ok_zero p s : scores_ok (tetrapol_phys_ch_set_scr p s).
Proof.
  unfold scores_ok, tetrapol_phys_ch_set_scr. cbn [scr_stat set_scr_stat].
  split; [apply repeat_length|].
  intros k Hk. rewrite ld_repeat by assumption. lia.
Qed.

Lemma create_scores_ok b t p : tetrapol_phys_ch_create b t = Some p -> scores_ok p.
Proof.
  unfold tetrapol_phys_ch_create.
  destruct (negb (b =? TETRAPOL_BAND_VHF) && negb (b =? TETRAPOL_BAND_UHF));
    [discriminate|].
  destruct (negb (t =? TETRAPOL_RCH_CONTROL) && negb (t =? TETRAPOL_RCH_TRAFFIC));
    [discriminate|].
  intros H.
  apply (f_equal (fun o => match o with Some q => scr_stat q | None => [] end)) in H.
  cbn [scr_stat] in H. unfold scores_ok. rewrite <- H.
  split; [apply repeat_length|].
  intros k Hk. rewrite ld_repeat by assumption. lia.
Qed.

Lemma process_frame_scores p e f :
  length (scr_stat p) = 128%nat ->
  let p' := fst (fst (fst (process_frame p e f))) in
  length (scr_stat p') = 128%nat /\
  forall k, 0 <= k < 128 ->
    ldi (scr_stat p') k
    = if scr p =? PHYS_CH_SCR_DETECT
      then score_update (band p) f (scr_stat p) k
      else ldi (scr_stat p) k.
Proof.
  intros Hlen p'. subst p'.
  destruct (process_frame_fields p e f) as [-> _].
  destruct (scr p =? PHYS_CH_SCR_DETECT).
  - destruct (detect_scr_fields p e f) as [-> _].
    now apply detect_scr_stats_spec.
  - auto.
Qed.

Lemma process_frame_scores_ok p e f :
  scores_ok p -> scores_ok (fst (fst (fst (process_frame p e f)))).
Proof.
  intros [Hlen Hnn].
  destruct (process_frame_scores p e f Hlen) as [Hl Hk].
  split; [assumption|]. intros k Hk'. rewrite Hk by assumption.
  destruct (scr p =? PHYS_CH_SCR_DETECT); auto using score_update_nonneg.
Qed.

Lemma scores_ok_same p q : scr_stat q = scr_stat p -> scores_ok p -> scores_ok q.
Proof. unfold scores_ok. now intros ->. Qed.

Lemma process_turn_scores_ok p e fr :
  scores_ok p -> scores_ok (turn_state (process_turn p e fr)).
Proof.
  intros Hok. unfold process_turn, turn_state.
  assert (Hg : scr_stat (fst (fst (get_frame p fr))) = scr_stat p).
  { destruct (Z_lt_dec (data_len p) FRAME_LEN) as [Hs|Hl].
    - now rewrite get_frame_short.
    - assert (H := get_frame_spec p fr ltac:(lia)). cbv zeta in H.
      destruct (get_frame p fr) as [[p1 f1] r]. cbn [fst]. intuition. }
  destruct (get_frame p fr) as [[p1 f1] r]. cbn [fst] in Hg.
  destruct (r >? 0); [|cbn; now apply scores_ok_same with p].
  assert (Hp := process_frame_scores_ok p1 e f1 (scores_ok_same p p1 Hg Hok)).
  destruct (process_frame p1 e f1) as [[[p2 e2] f2] r2]. cbn [fst] in *.
  destruct (negb (f_frame_no f2 =? FRAME_NO_UNKNOWN)); cbn; assumption.
Qed.

Lemma step_scores_ok p p' : scores_ok p -> step p p' -> scores_ok p'.
Proof.
  intros Hok Hstep. destruct Hstep as [p s|p c|p buf len Hlen|p e p' e' r Hp].
  - apply scores_ok_zero.
  - exact Hok.
  - exact Hok.
  - destruct (process_invariant scores_ok) with (p := p) (e := e)
      as [q [e1 [Hq Hok']]]; try assumption.
    + intros q e1 Hq. apply scores_ok_same with q; [|assumption].
      now destruct (process_acquire_config q e1) as [_ [_ [_ [_ [_ H]]]]].
    + intros q e1 fr. apply process_turn_scores_ok.
    + intros q Hq. exact Hq.
    + rewrite Hq in Hp. now inversion Hp; subst.
Qed.

(** C6 (scores).  While [scr] is [DETECT], a processed frame moves the
    score of each key [k] of [0,127]: down by 2, but not below 0, when the
    trial decoding with key [k] reports convolutional errors or its CRC
    fails, and up by 1 otherwise.  With a fixed key the scores stay as they
    are, and [set_scr] sets them all to 0.  Scores are never negative: this
    holds on a new channel and is kept by frame processing and by every
    call of the public interface. *)
Theorem scr_scores_spec :
  (forall p e f,
     scr p = PHYS_CH_SCR_DETECT -> length (scr_stat p) = 128%nat ->
     let p' := fst (fst (fst (process_frame p e f))) in
     length (scr_stat p') = 128%nat /\
     forall k, 0 <= k <= 127 ->
       ldi (scr_stat p') k
       = let '(df, errs) := scr_trial (band p) f k in
         if (errs >? 0) || negb (decoded_frame_check_crc df FRAME_TYPE_DATA)
         then Z.max 0 (ldi (scr_stat p) k - 2)
         else ldi (scr_stat p) k + 1) /\
  (forall p e f,
     scr p <> PHYS_CH_SCR_DETECT ->
     scr_stat (fst (fst (fst (process_frame p e f)))) = scr_stat p) /\
  (forall p s,
     scr_stat (tetrapol_phys_ch_set_scr p s) = repeat 0 128 /\
     scores_ok (tetrapol_phys_ch_set_scr p s)) /\
  (forall b t p, tetrapol_phys_ch_create b t = Some p -> scores_ok p) /\
  (forall p e f, scores_ok p -> scores_ok (fst (fst (fst (process_frame p e f))))) /\
  (forall p p', scores_ok p -> step p p' -> scores_ok p') /\
  (forall p, reachable p -> forall k, 0 <= k <= 127 -> 0 <= ldi (scr_stat p) k).
Proof.
  split; [|split; [|split; [|split; [|split; [|split]]]]].
  - intros p e f Hscr Hlen p'. subst p'.
    destruct (process_frame_scores p e f Hlen) as [Hl Hk].
    split; [assumption|]. intros k Hk'. rewrite Hk by lia.
    apply Z.eqb_eq in Hscr. rewrite Hscr. reflexivity.
  - intros p e f Hscr. destruct (process_frame_fields p e f) as [-> _].
    apply Z.eqb_neq in Hscr. now rewrite Hscr.
  - intros p s. split; [reflexivity | apply scores_ok_zero].
  - exact create_scores_ok.
  - exact process_frame_scores_ok.
  - exact step_scores_ok.
  - intros p Hreach.
    assert (Hok : scores_ok p).
    { induction Hreach as [b t p Hc|p p' _ IH Hstep].
      - now apply create_scores_ok with b t.
      - now apply step_scores_ok with p. }
    intros k Hk. apply Hok. change SCR_STAT_LEN with 128. lia.
Qed.

End Scores.

Lemma scr_scores_spec_witness :
  ldi (scr_stat (fst (fst (fst (process_frame close_race_channel sample_env
                                  sample_frame))))) 0 = 100 /\
  scores_ok (fst (fst (fst (process_frame close_race_channel sample_env
                              sample_frame)))).
Proof.
  destruct (@scr_scores_spec sample_externals) as [Hupd [_ [_ [_ [Hkeep _]]]]].
  split.
  - destruct (Hupd close_race_channel sample_env sample_frame eq_refl eq_refl)
      as [_ H].
    rewrite (H 0) by lia. vm_compute. reflexivity.
  - apply Hkeep. split; [reflexivity|].
    intros k Hk.
    assert (H := range_check (fun i => 0 <=? ldi (scr_stat close_race_channel) i)
                   128 eq_refl k Hk).
    now apply Z.leb_le in H.
Defined.

(** ** Control channel: frames that fail to decode *)

Section ControlChannel.
Context `{E : Externals}.

(** C8 (control-channel errors).  On a channel whose band is handled
    (not VHF), take the frame that reaches the channel decoder: if the
    decoder counts an error, or the first decoded bit is not
    [FRAME_TYPE_DATA], or the CRC fails, then [process_frame_cch] prints one
    error line, calls [multiblock_reset] and then [segmentation_reset],
    does not call [multiblock_process], leaves the frame number of the frame
    alone and returns 0.  Processing a frame, on the control channel or
    not, never touches the synchronisation state or the buffer, and
    [tetrapol_phys_ch_process] returns 0. *)
Theorem process_frame_cch_errors (p : phys_ch_t) (e : env_t) (f : frame_t) :
  band p <> TETRAPOL_BAND_VHF ->
  let scr_ := if scr p =? PHYS_CH_SCR_DETECT then scr_guess p else scr p in
  let f1 := frame_deinterleave (frame_diff_dec (frame_descramble f scr_))
              interleave_data_UHF in
  let df := fst (frame_decode_data f1 df_local) in
  let errs := snd (frame_decode_data f1 df_local) in
  errs <> 0 \/ Z.of_N (ld8 (df_data df) 0) <> FRAME_TYPE_DATA \/
  decoded_frame_check_crc df FRAME_TYPE_DATA = false ->
  (exists msg,
     (msg = PrintErrDecode (f_frame_no f) \/ msg = PrintErrType (f_frame_no f) \/
      msg = PrintErrCrc (f_frame_no f)) /\
     process_frame_cch p e f
     = (call_segmentation_reset (call_multiblock_reset (emit e msg)), f1, 0) /\
     trace (fst (fst (process_frame_cch p e f)))
     = trace e ++ [msg; CallMultiblockReset; CallSegmentationReset] /\
     (forall df' fn,
        ~ In (CallMultiblockProcess df' fn)
             [msg; CallMultiblockReset; CallSegmentationReset]) /\
     ext (fst (fst (process_frame_cch p e f)))
     = segmentation_reset (multiblock_reset (ext e))) /\
  f_frame_no f1 = f_frame_no f /\
  (rch_type p = TETRAPOL_RCH_CONTROL ->
   let p' := fst (fst (fst (process_frame p e f))) in
   has_frame_sync p' = has_frame_sync p /\
   last_sync_err p' = last_sync_err p /\ total_sync_err p' = total_sync_err p /\
   data_len p' = data_len p /\ data p' = data p) /\
  (buffer_ok p ->
   exists p' e', tetrapol_phys_ch_process p e = Some (p', e', 0)).
Proof.
  intros Hband scr_ f1 df errs Herr.
  assert (Hfn : f_frame_no f1 = f_frame_no f).
  { unfold f1, frame_deinterleave, frame_diff_dec, frame_descramble.
    destruct (scr_ =? 0); reflexivity. }
  split; [|split; [exact Hfn|split]].
  - assert (Hrun : exists msg,
              (msg = PrintErrDecode (f_frame_no f) \/ msg = PrintErrType (f_frame_no f) \/
               msg = PrintErrCrc (f_frame_no f)) /\
              process_frame_cch p e f
              = (call_segmentation_reset (call_multiblock_reset (emit e msg)), f1, 0)).
    { unfold process_frame_cch. fold scr_.
      apply Z.eqb_neq in Hband. rewrite Hband. fold f1.
      subst df errs. destruct (frame_decode_data f1 df_local) as [df errs].
      cbn [fst snd] in Herr. rewrite Hfn.
      destruct (errs =? 0) eqn:He; cbn [negb].
      - destruct (Z.of_N (ld8 (df_data df) 0) =? FRAME_TYPE_DATA) eqn:Ht; cbn [negb].
        + destruct (decoded_frame_check_crc df FRAME_TYPE_DATA) eqn:Hc; cbn [negb].
          * exfalso. apply Z.eqb_eq in He, Ht.
            destruct Herr as [H|[H|H]]; [contradiction | contradiction | discriminate].
          * eexists. split; [right; right; reflexivity | reflexivity].
        + eexists. split; [right; left; reflexivity | reflexivity].
      - eexists. split; [left; reflexivity | reflexivity]. }
    destruct Hrun as [msg [Hmsg Hrun]]. exists msg. rewrite Hrun.
    split; [assumption|]. split; [reflexivity|]. cbn.
    split; [now rewrite <- !app_assoc|]. split; [|reflexivity].
    intros df' fn [H|[H|[H|[]]]]; try discriminate.
    destruct Hmsg as [->|[->| ->]]; discriminate.
  - intros _ p'. subst p'.
    destruct (process_frame_fields p e f) as [_ H]. intuition.
  - intros Hok. destruct (process_buffer_ok p e Hok) as [p' [e' [H _]]].
    now exists p', e'.
Qed.

(** On the VHF band the control-channel processing stops before decoding:
    it returns -1 and calls no collaborator. *)
Lemma process_frame_cch_vhf p e f :
  band p = TETRAPOL_BAND_VHF ->
  let scr_ := if scr p =? PHYS_CH_SCR_DETECT then scr_guess p else scr p in
  process_frame_cch p e f
  = (emit e PrintVhfNotImplemented, frame_descramble f scr_, -1).
Proof.
  intros Hband. unfold process_frame_cch.
  apply Z.eqb_eq in Hband. now rewrite Hband.
Qed.

End ControlChannel.

Lemma process_frame_cch_errors_witness :
  snd (process_frame_cch sample_channel sample_env sample_frame) = 0 /\
  exists msg,
    trace (fst (fst (process_frame_cch sample_channel sample_env sample_frame)))
    = [msg; CallMultiblockReset; CallSegmentationReset].
Proof.
  destruct (process_frame_cch_errors sample_channel sample_env sample_frame)
    as [[msg [_ [H [Ht _]]]] _].
  - vm_compute. discriminate.
  - left. vm_compute. discriminate.
  - split.
    + rewrite H. reflexivity.
    + exists msg. exact Ht.
Defined.

(** * Further properties of the receiver *)

(** ** Differential decoding *)

Lemma differential_dec_cons x d size seed :
  differential_dec (x :: d) (S size) seed
  = (N.lxor x seed :: fst (differential_dec d size (N.lxor x seed)),
     snd (differential_dec d size (N.lxor x seed))).
Proof.
  unfold differential_dec at 1. fold differential_dec.
  now destruct (differential_dec d size (N.lxor x seed)).
Qed.

Lemma differential_dec_zero d seed : differential_dec d 0 seed = (d, seed).
Proof. now destruct d. Qed.

Lemma differential_dec_cells (d : list N) (size : nat) (seed : N) :
  (size <= length d)%nat ->
  let r := fst (differential_dec d size seed) in
  let prev i := match i with O => seed | S j => nth j r 0%N end in
  length r = length d /\
  (forall i, (i < size)%nat ->
     nth i r 0%N = N.lxor (nth i d 0%N) (prev i) /\
     nth i d 0%N = N.lxor (nth i r 0%N) (prev i)) /\
  (forall i, (size <= i)%nat -> nth i r 0%N = nth i d 0%N) /\
  snd (differential_dec d size seed) = prev size.
Proof.
  revert size seed. induction d as [|x d IH]; intros size seed Hsize.
  - assert (size = 0%nat) by (simpl in Hsize; lia). subst size.
    rewrite differential_dec_zero. cbn. repeat split; intros; try lia; reflexivity.
  - destruct size as [|size].
    + rewrite differential_dec_zero. cbn [fst snd].
      repeat split; intros; try lia; reflexivity.
    + rewrite differential_dec_cons. cbn [fst snd].
      specialize (IH size (N.lxor x seed) ltac:(simpl in Hsize; lia)).
      cbv zeta in IH. destruct IH as [Hl [Hlo [Hhi Hlast]]].
      split; [simpl; now rewrite Hl|]. split; [|split].
      * intros [|i] Hi.
        -- cbn. split; [reflexivity|].
           now rewrite N.lxor_assoc, N.lxor_nilpotent, N.lxor_0_r.
        -- cbn [nth]. destruct (Hlo i ltac:(lia)) as [H1 H2].
           destruct i as [|i]; cbn [nth] in *; split; assumption.
      * intros [|i] Hi; [lia|]. cbn [nth]. apply Hhi. lia.
      * rewrite Hlast. destruct size; reflexivity.
Qed.

(** Decoding the first [size] cells in place: each decoded cell is the raw
    cell XOR the decoded cell before it (the seed for the first), so the raw
    cell is recovered as the XOR of two neighbouring decoded cells; the
    cells past [size] and the length are untouched, and the value returned
    is the last decoded cell (the seed when [size] is 0). *)
Theorem differential_dec_spec (d : list N) (size : nat) (seed : N) :
  (size <= length d)%nat ->
  let r := fst (differential_dec d size seed) in
  let prev i := match i with O => seed | S j => nth j r 0%N end in
  length r = length d /\
  (forall i, (i < size)%nat ->
     nth i r 0%N = N.lxor (nth i d 0%N) (prev i) /\
     nth i d 0%N = N.lxor (nth i r 0%N) (prev i)) /\
  (forall i, (size <= i)%nat -> nth i r 0%N = nth i d 0%N) /\
  snd (differential_dec d size seed) = prev size.
Proof. exact (differential_dec_cells d size seed). Qed.

Lemma differential_dec_spec_witness :
  fst (differential_dec [1; 1; 0; 1]%N 3 0%N) = [1; 0; 0; 1]%N /\
  snd (differential_dec [1; 1; 0; 1]%N 3 0%N) = 0%N.
Proof.
  destruct (differential_dec_spec [1; 1; 0; 1]%N 3 0%N) as [_ [_ [_ Hlast]]].
  - simpl. lia.
  - split; [reflexivity | rewrite Hlast; reflexivity].
Defined.

(** A stream may be decoded piece by piece: decoding two pieces in turn,
    the second seeded with the value the first call returned, gives what
    decoding their concatenation gives. *)
Theorem differential_dec_app (d1 d2 : list N) (seed : N) :
  differential_dec (d1 ++ d2) (length d1 + length d2) seed
  = (fst (differential_dec d1 (length d1) seed)
     ++ fst (differential_dec d2 (length d2)
               (snd (differential_dec d1 (length d1) seed))),
     snd (differential_dec d2 (length d2)
            (snd (differential_dec d1 (length d1) seed)))).
Proof.
  revert seed. induction d1 as [|x d1 IH]; intros seed.
  - cbn [app length Nat.add]. rewrite differential_dec_zero. cbn [fst snd app].
    now destruct (differential_dec d2 (length d2) seed).
  - cbn [app length Nat.add]. rewrite !differential_dec_cons. cbn [fst snd].
    rewrite IH. reflexivity.
Qed.

(** ** Comparison with the synchronisation sequence *)

Lemma cmp_frame_sync_count (d : list N) (base : Z) :
  0 <= cmp_frame_sync d base <= 7 /\
  (cmp_frame_sync d base = 0 <->
   forall i, 0 <= i < 7 -> ld8 d (base + i + 1) = ld8 frame_dsync i).
Proof.
  unfold cmp_frame_sync.
  match goal with |- context [for_loop _ _ ?b _] => set (body := b) end.
  assert (H := for_loop_inv
    (fun i acc =>
       0 <= acc <= i /\
       (acc = 0 <-> forall j, 0 <= j < i -> ld8 d (base + j + 1) = ld8 frame_dsync j))
    7 0 body 0).
  cbv beta in H. change (0 + Z.of_nat 7) with 7 in H. apply H; clear H.
  - split; [lia|]. split; [intros; lia | reflexivity].
  - intros i acc Hi [Hr Hz]. unfold body.
    destruct (N.eqb (ld8 frame_dsync i) (ld8 d (base + i + 1))) eqn:He; cbn [negb].
    + apply N.eqb_eq in He. split; [lia|]. rewrite Hz. split.
      * intros Hall j Hj. destruct (Z.eq_dec j i) as [->|Hne]; [now symmetry|].
        apply Hall. lia.
      * intros Hall j Hj. apply Hall. lia.
    + apply N.eqb_neq in He. split; [lia|]. split; [lia|].
      intros Hall. exfalso. apply He. symmetry. apply Hall. lia.
Qed.

(** [cmp_frame_sync] counts between 0 and 7 errors, and counts none exactly
    when the seven cells after the first one hold 1,0,1,0,0,1,1. *)
Theorem cmp_frame_sync_range (d : list N) (base : Z) :
  0 <= cmp_frame_sync d base <= 7 /\
  (cmp_frame_sync d base = 0 <->
   forall i, 0 <= i < 7 -> ld8 d (base + i + 1) = ld8 frame_dsync i).
Proof. exact (cmp_frame_sync_count d base). Qed.

(** ** Extraction of a frame *)

Lemma buffer_shift q q' o :
  0 <= o <= data_len q -> data_len q <= Z.of_nat (length (data q)) ->
  data_len q' = data_len q - o ->
  data q' = memmove (data q) 0 (data q) o (data_len q - o) ->
  buffer q' = skipn (Z.to_nat o) (buffer q).
Proof.
  intros Ho Hl Hdl Hd.
  rewrite <- (buffer_after_shift q o Ho Hl). unfold buffer.
  cbn [data_len data set_buffer]. now rewrite Hdl, Hd.
Qed.

Lemma get_frame_payload p frame :
  FRAME_LEN <= data_len p -> snd (get_frame p frame) = 1 ->
  f_data (snd (fst (get_frame p frame)))
  = fst (differential_dec
           (memcpy (f_data frame) 0 (data p) FRAME_HDR_LEN FRAME_DATA_LEN)
           (Z.to_nat FRAME_DATA_LEN) 0%N).
Proof.
  intros Hlen. unfold get_frame.
  destruct (data_len p <? FRAME_LEN) eqn:Hc; [apply Z.ltb_lt in Hc; lia|].
  destruct (cmp_frame_sync (data p) 0 + last_sync_err p >? MAX_FRAME_SYNC_ERR).
  - cbn [total_sync_err set_total_sync_err set_sync_errs].
    destruct (1 + 2 * total_sync_err p >=? FRAME_LEN).
    + cbn [fst snd]. discriminate.
    + intros _. reflexivity.
  - intros _. reflexivity.
Qed.

(** A call of [get_frame] that yields a frame takes exactly the first
    [FRAME_LEN = 160] bits off the buffer; the payload of the frame is the
    differential decoding, seeded with 0, of the 152 bits that followed the
    8 header bits, and its frame number is the channel's.  A call that
    yields none leaves buffer and frame as they were. *)
Theorem get_frame_extraction (p : phys_ch_t) (frame : frame_t) :
  0 <= data_len p <= Z.of_nat (length (data p)) ->
  length (f_data frame) = 152%nat ->
  let p' := fst (fst (get_frame p frame)) in
  let frame' := snd (fst (get_frame p frame)) in
  let r := snd (get_frame p frame) in
  (r = 1 \/ r = 0 \/ r = -1) /\
  (r = 1 ->
   FRAME_LEN <= data_len p /\
   buffer p' = skipn 160 (buffer p) /\
   data_len p' = data_len p - 160 /\
   f_frame_no frame' = frame_no p /\
   length (f_data frame') = 152%nat /\
   f_data frame'
   = fst (differential_dec (firstn 152 (skipn 8 (buffer p))) 152 0%N)) /\
  (r <> 1 -> buffer p' = buffer p /\ frame' = frame).
Proof.
  intros Hdl Hfl p' frame' r. subst p' frame' r.
  destruct (Z_lt_dec (data_len p) FRAME_LEN) as [Hshort|Hlong].
  - rewrite get_frame_short by assumption. cbn [fst snd].
    split; [auto|]. split; [discriminate | auto].
  - assert (Hp := get_frame_payload p frame ltac:(lia)).
    assert (Hg := get_frame_spec p frame ltac:(lia)). cbv zeta in Hg.
    destruct (get_frame p frame) as [[p' frame'] r]. cbn [fst snd] in *.
    destruct Hg as [_ [Hcase _]].
    change FRAME_LEN with 160 in *.
    destruct ((if cmp_frame_sync (data p) 0 + last_sync_err p >? MAX_FRAME_SYNC_ERR
               then 1 + 2 * total_sync_err p else 0) >=? 160).
    + destruct Hcase as [-> [_ [Hdl' [Hd' ->]]]].
      split; [auto|]. split; [discriminate|]. intros _. split; [|reflexivity].
      unfold buffer. now rewrite Hdl', Hd'.
    + destruct Hcase as [-> [_ [Hdl' [Hd' Hfn]]]].
      split; [auto|]. split; [|intros H; now elim H].
      intros _. split; [lia|].
      split; [apply (buffer_shift p p' 160); auto; lia|].
      split; [assumption|]. split; [assumption|].
      specialize (Hp eq_refl).
      assert (Hm : memcpy (f_data frame) 0 (data p) FRAME_HDR_LEN FRAME_DATA_LEN
                   = firstn 152 (skipn 8 (buffer p))).
      { unfold memcpy, buffer.
        change (Z.to_nat (0 + FRAME_DATA_LEN)) with 152%nat.
        change (Z.to_nat FRAME_HDR_LEN) with 8%nat.
        change (Z.to_nat FRAME_DATA_LEN) with 152%nat.
        change (Z.to_nat 0) with 0%nat.
        change (firstn 0 (f_data frame)) with (@nil N). rewrite app_nil_l.
        rewrite (skipn_all2 (n := 152) (f_data frame)) by lia. rewrite app_nil_r.
        rewrite skipn_firstn_comm, firstn_firstn. f_equal. lia. }
      rewrite Hm in Hp. change (Z.to_nat FRAME_DATA_LEN) with 152%nat in Hp.
      split; [|exact Hp]. rewrite Hp.
      assert (Hl8 : length (firstn 152 (skipn 8 (buffer p))) = 152%nat).
      { unfold buffer. rewrite length_firstn, length_skipn, length_firstn. lia. }
      destruct (differential_dec_cells (firstn 152 (skipn 8 (buffer p))) 152 0%N
                  ltac:(lia)) as [H _].
      congruence.
Qed.

Lemma get_frame_extraction_witness :
  data_len (fst (fst (get_frame noisy_channel frame_local)))
  = data_len noisy_channel - 160.
Proof.
  destruct (get_frame_extraction noisy_channel frame_local) as [_ [H _]].
  - vm_compute. split; discriminate.
  - reflexivity.
  - now destruct (H eq_refl) as [_ [_ [Hdl _]]].
Defined.

(** ** What a call of [tetrapol_phys_ch_process] does to the buffer *)

Section Draining.
Context `{E : Externals}.

Lemma process_acquire_stop p e p1 e1 :
  process_acquire p e = (p1, e1, false) -> has_frame_sync p1 = false.
Proof.
  unfold process_acquire.
  destruct (has_frame_sync p); cbn [negb]; [discriminate|].
  destruct (find_frame_sync p) as [q found].
  destruct (negb (found =? 0)) eqn:Hf;
    cbn [has_frame_sync set_has_frame_sync negb]; intros H; inversion H; subst.
  reflexivity.
Qed.

(** The frame loop, for a property every turn keeps: it ends either on a
    buffer shorter than a frame, with 0, or on the loss, with -1. *)
Lemma process_loop_result (I : phys_ch_t -> Prop) :
  (forall p e fr, I p -> I (turn_state (process_turn p e fr))) ->
  forall fuel p e fr,
    I p -> (Z.to_nat (data_len p) < fuel)%nat ->
    exists p' e' r,
      process_loop fuel p e fr = Some (p', e', r) /\ I p' /\
      ((r = 0 /\ data_len p' < FRAME_LEN) \/ r = -1).
Proof.
  intros Hturn fuel p e fr HI Hfuel.
  destruct (process_loop_spec I) with (fuel := fuel) (p := p) (e := e) (fr := fr)
    as [p0 [e0 [fr0 [HI0 [Hr Hloop]]]]];
    [intros; now apply Hturn | assumption | assumption |].
  rewrite Hloop. eexists _, _, _. split; [reflexivity|].
  split; [now apply Hturn|].
  destruct (process_turn_cases p0 e0 fr0)
    as [_ [[Hshort Heq]|[_ [_ [[_ [Hr' _]]|[_ [Hr' _]]]]]]].
  - left. rewrite Heq. unfold turn_r, turn_state. cbn. auto.
  - now right.
  - lia.
Qed.

(** The same for the whole call. *)
Lemma process_result (I : phys_ch_t -> Prop) :
  (forall p e, I p -> I (fst (fst (process_acquire p e)))) ->
  (forall p e fr, I p -> I (turn_state (process_turn p e fr))) ->
  (forall p, I p -> I (set_has_frame_sync p false)) ->
  forall p e, I p ->
    exists p' e',
      tetrapol_phys_ch_process p e = Some (p', e', 0) /\ I p' /\
      (has_frame_sync p' = true -> data_len p' < FRAME_LEN).
Proof.
  intros Hacq Hturn Hlost p e HI. unfold tetrapol_phys_ch_process.
  specialize (Hacq p e HI).
  destruct (process_acquire p e) as [[p1 e1] go] eqn:Ha. cbn [fst] in Hacq.
  destruct go.
  - unfold process_track.
    destruct (process_loop_result I Hturn (S (Z.to_nat (data_len p1))) p1 e1
                frame_local Hacq ltac:(lia))
      as [p' [e' [r [Hloop [HI' Hr]]]]].
    rewrite Hloop. destruct Hr as [[-> Hshort]| ->]; cbn.
    + eexists _, _. split; [reflexivity|]. auto.
    + eexists _, _. split; [reflexivity|]. split; [auto|].
      cbn. discriminate.
  - eexists _, _. split; [reflexivity|]. split; [assumption|].
    rewrite (process_acquire_stop p e p1 e1 Ha). discriminate.
Qed.

(** Bits leave the buffer in the order they came: after a call the buffer
    is what is left of the old one behind some prefix.  The call always
    returns 0, keeps the buffer within its array, and goes on while frames
    are there: when it ends with the synchronisation held, less than a
    frame is left. *)
Theorem process_drains_buffer (p : phys_ch_t) (e : env_t) :
  buffer_ok p ->
  exists p' e' k,
    tetrapol_phys_ch_process p e = Some (p', e', 0) /\
    buffer p' = skipn k (buffer p) /\
    buffer_ok p' /\
    (has_frame_sync p' = true -> data_len p' < FRAME_LEN).
Proof.
  intros Hok.
  destruct (process_result
              (fun q => buffer_ok q /\ exists k, buffer q = skipn k (buffer p)))
    with (p := p) (e := e) as [p' [e' [Hp [[Hok' [k Hk]] Hd]]]].
  - intros q e1 [[Hl Hd] [k Hk]].
    destruct (process_acquire_fields q e1 ltac:(lia)) as [[->|[o [Ho [Hdl Hdata]]]] _].
    + split; [now split | now exists k].
    + split.
      * unfold buffer_ok. rewrite Hdl, Hdata. unfold memmove.
        rewrite length_memcpy by lia. split; [assumption | lia].
      * exists (Z.to_nat o + k)%nat.
        rewrite (buffer_shift q _ o) by (auto; lia).
        now rewrite Hk, skipn_skipn.
  - intros q e1 fr [Hq [k Hk]]. split; [now apply process_turn_buffer_ok|].
    destruct Hq as [Hl Hd]. change DATA_SIZE with 1600 in *.
    destruct (process_turn_cases q e1 fr)
      as [_ [[_ ->]|[Hlen [_ [[_ [_ [_ [Hdl Hdata]]]]|[_ [_ [_ [Hdl Hdata]]]]]]]]].
    + now exists k.
    + exists k. unfold buffer in *. now rewrite Hdl, Hdata.
    + exists (Z.to_nat FRAME_LEN + k)%nat. change FRAME_LEN with 160 in *.
      rewrite (buffer_shift q _ 160) by (auto; lia).
      now rewrite Hk, skipn_skipn.
  - intros q H. exact H.
  - split; [assumption | now exists 0%nat].
  - exists p', e', k. auto.
Qed.

End Draining.

Lemma process_drains_buffer_witness :
  exists p' e' k,
    tetrapol_phys_ch_process noisy_channel sample_env = Some (p', e', 0) /\
    buffer p' = skipn k (buffer noisy_channel).
Proof.
  destruct (process_drains_buffer noisy_channel sample_env)
    as [p' [e' [k [H1 [H2 _]]]]].
  - split; [vm_compute; reflexivity | vm_compute; split; discriminate].
  - exists p', e', k. split; assumption.
Defined.

Section AcquireAndTrack.
Context `{E : Externals}.

(** A turn of the frame loop keeps the buffer a suffix of a given bit
    sequence, behind a prefix that does not shrink. *)
Lemma process_turn_suffix (B : list N) (m : nat) q e fr :
  buffer_ok q /\ (exists k, (m <= k)%nat /\ buffer q = skipn k B) ->
  let q' := turn_state (process_turn q e fr) in
  buffer_ok q' /\ (exists k, (m <= k)%nat /\ buffer q' = skipn k B).
Proof.
  intros [Hq [k [Hm Hk]]] q'. subst q'.
  split; [now apply process_turn_buffer_ok|].
  destruct Hq as [Hl Hd]. change DATA_SIZE with 1600 in *.
  destruct (process_turn_cases q e fr)
    as [_ [[_ ->]|[Hlen [_ [[_ [_ [_ [Hdl Hdata]]]]|[_ [_ [_ [Hdl Hdata]]]]]]]]].
  - now exists k.
  - exists k. split; [assumption|]. unfold buffer in *. now rewrite Hdl, Hdata.
  - exists (Z.to_nat FRAME_LEN + k)%nat. split; [lia|].
    change FRAME_LEN with 160 in *.
    rewrite (buffer_shift q _ 160) by (auto; lia).
    now rewrite Hk, skipn_skipn.
Qed.

(** A successful acquisition is followed, in the same call, by the
    extraction of at least one frame: the call takes the [o] bits before
    the synchronisation point and at least [FRAME_LEN] more off the
    buffer. *)
Theorem process_acquire_then_frame (p : phys_ch_t) (e : env_t) (o : Z) :
  has_frame_sync p = false -> buffer_ok p -> first_sync_at p o ->
  exists p' e' k,
    tetrapol_phys_ch_process p e = Some (p', e', 0) /\
    (Z.to_nat o + 160 <= k)%nat /\
    buffer p' = skipn k (buffer p) /\
    data_len p' <= data_len p - o - FRAME_LEN.
Proof.
  intros Hsync [Hl Hd] Hfirst. change DATA_SIZE with 1600 in *.
  destruct (find_frame_sync_spec p) as [_ [Hfound _]].
  specialize (Hfound o Hfirst).
  destruct Hfirst as [[Ho [Hlen Herr]] _].
  change (FRAME_LEN + FRAME_HDR_LEN) with 168 in Hlen.
  replace (o + FRAME_LEN + FRAME_HDR_LEN) with (o + 168) in Hlen
    by (unfold FRAME_LEN, FRAME_HDR_LEN, FRAME_DATA_LEN; lia).
  set (p1 := set_frame_no
               (set_has_frame_sync
                  (set_total_sync_err
                     (set_last_sync_err
                        (set_buffer p (data_len p - o)
                           (memmove (data p) 0 (data p) o (data_len p - o))) 0) 0)
                  true) FRAME_NO_UNKNOWN).
  set (e1 := call_segmentation_reset
               (call_multiblock_reset (emit e PrintFrameSyncFound))).
  assert (Hacq : process_acquire p e = (p1, e1, true)).
  { unfold process_acquire. rewrite Hsync, Hfound. reflexivity. }
  assert (Hdl1 : data_len p1 = data_len p - o) by reflexivity.
  assert (Hd1 : data p1 = memmove (data p) 0 (data p) o (data_len p - o))
    by reflexivity.
  assert (Hok1 : buffer_ok p1).
  { unfold buffer_ok. rewrite Hdl1, Hd1. unfold memmove.
    rewrite length_memcpy by lia. change DATA_SIZE with 1600. split; [assumption | lia]. }
  assert (Hb1 : buffer p1 = skipn (Z.to_nat o) (buffer p))
    by (apply (buffer_shift p p1 o); auto; lia).
  assert (Hcmp : cmp_frame_sync (data p1) 0 = cmp_frame_sync (data p) o).
  { apply cmp_frame_sync_ext. intros i Hi.
    rewrite Hd1, Z.add_0_l, ld_memmove_down by lia. reflexivity. }
  assert (Hsum : (cmp_frame_sync (data p1) 0 + last_sync_err p1 >? MAX_FRAME_SYNC_ERR)
                 = false).
  { rewrite Hcmp. change (last_sync_err p1) with 0.
    unfold sync_err_at in Herr.
    destruct (cmp_frame_sync_count (data p) (o + FRAME_LEN)) as [Hr _].
    rewrite Z.gtb_ltb. apply Z.ltb_ge. lia. }
  unfold tetrapol_phys_ch_process. rewrite Hacq. unfold process_track.
  cbn [process_loop].
  assert (Hc := process_turn_cases p1 e1 frame_local). cbv zeta in Hc.
  rewrite Hsum in Hc.
  destruct (process_turn p1 e1 frame_local) as [[[p2 e2] fr2] r] eqn:Hturn.
  unfold turn_state, turn_r in Hc. cbn [fst snd] in Hc.
  change FRAME_LEN with 160 in *.
  destruct Hc as [_ [[Hshort _]|[_ [_ [[Hbig _]|[_ [-> [_ [Hdl2 Hd2]]]]]]]]]; try lia.
  change (1 >? 0) with true. cbv iota.
  assert (Hok2 : buffer_ok p2).
  { unfold buffer_ok. rewrite Hdl2, Hd2. unfold memmove.
    destruct Hok1 as [Hl1 Hd1']. change DATA_SIZE with 1600 in *.
    rewrite length_memcpy by lia. split; [assumption | lia]. }
  assert (Hb2 : buffer p2 = skipn (160 + Z.to_nat o) (buffer p)).
  { rewrite (buffer_shift p1 p2 160); try assumption; try lia.
    - rewrite Hb1, skipn_skipn. reflexivity.
    - destruct Hok1 as [Hl1 _]. rewrite Hl1. change (Z.to_nat DATA_SIZE) with 1600%nat.
      lia. }
  set (I := fun q => (buffer_ok q /\
                      exists k, (Z.to_nat o + 160 <= k)%nat /\
                                buffer q = skipn k (buffer p)) /\
                     data_len q <= data_len p2).
  destruct (process_loop_result I) with (fuel := Z.to_nat (data_len p1))
    (p := p2) (e := e2) (fr := fr2) as [p' [e' [r [Hloop [[[Hok' [k [Hk Hb']]] Hle] Hr]]]]].
  - intros q e0 fr [Hq Hle]. split; [now apply process_turn_suffix|].
    destruct Hq as [[_ Hdq] _].
    destruct (process_turn_cases q e0 fr)
      as [_ [[_ ->]|[_ [_ [[_ [_ [_ [-> _]]]]|[_ [_ [_ [-> _]]]]]]]]]; cbn; lia.
  - split; [|lia]. split; [assumption|].
    exists (160 + Z.to_nat o)%nat. split; [lia | assumption].
  - lia.
  - rewrite Hloop. destruct Hr as [[-> _]| ->]; cbn;
      eexists _, _, k; (split; [reflexivity|]); split; try assumption;
      split; try assumption; unfold buffer in *; cbn [data_len data set_has_frame_sync];
      lia.
Qed.

(** Without synchronisation and with at most 168 buffered bits there is
    nothing to scan: the call returns 0 and leaves the channel and the
    other layers exactly as they were. *)
Theorem process_idle (p : phys_ch_t) (e : env_t) :
  has_frame_sync p = false ->
  0 <= data_len p <= FRAME_LEN + FRAME_HDR_LEN ->
  data_len p <= Z.of_nat (length (data p)) ->
  tetrapol_phys_ch_process p e = Some (p, e, 0).
Proof.
  intros Hsync Hdl Hl.
  assert (Hloop : find_frame_sync_loop (Z.to_nat (data_len p)) p 0
                    (MAX_FRAME_SYNC_ERR + 1) = (0, MAX_FRAME_SYNC_ERR + 1)).
  { destruct (Z.to_nat (data_len p)); [reflexivity|]. cbn [find_frame_sync_loop].
    destruct (0 + FRAME_LEN + FRAME_HDR_LEN <? data_len p) eqn:Hc; [|reflexivity].
    apply Z.ltb_lt in Hc. lia. }
  unfold tetrapol_phys_ch_process, process_acquire, find_frame_sync.
  rewrite Hsync, Hloop. cbn [negb].
  change (MAX_FRAME_SYNC_ERR + 1 <=? MAX_FRAME_SYNC_ERR) with false. cbv iota.
  change (0 =? 0) with true.
  cbn [negb has_frame_sync set_has_frame_sync].
  assert (Hm : memmove (data p) 0 (data p) 0 (data_len p - 0) = data p).
  { unfold memmove, memcpy. rewrite Z.sub_0_r, Z.add_0_l.
    change (Z.to_nat 0) with 0%nat.
    change (firstn 0 (data p)) with (@nil N). rewrite app_nil_l.
    change (skipn 0 (data p)) with (data p). apply firstn_skipn. }
  rewrite Hm, Z.sub_0_r. destruct p. cbn in *. subst. reflexivity.
Qed.

End AcquireAndTrack.

Lemma process_acquire_then_frame_witness :
  exists p' e' k,
    tetrapol_phys_ch_process (fill sample_channel one_error_bits) sample_env
    = Some (p', e', 0) /\
    (3 + 160 <= k)%nat /\
    buffer p' = skipn k (buffer (fill sample_channel one_error_bits)).
Proof.
  set (p := fill sample_channel one_error_bits).
  assert (Hok : buffer_ok p)
    by (split; [vm_compute; reflexivity | vm_compute; split; discriminate]).
  assert (Hfirst : first_sync_at p 3).
  { assert (Hdl : data_len p = 343) by reflexivity.
    split.
    - unfold sync_at. rewrite Hdl. change (sync_err_at p 3) with 1.
      unfold MAX_FRAME_SYNC_ERR, FRAME_LEN, FRAME_HDR_LEN, FRAME_DATA_LEN. lia.
    - intros o' Ho' [_ [_ H]].
      assert (Hc : o' = 0 \/ o' = 1 \/ o' = 2) by lia.
      destruct Hc as [-> | [-> | ->]]; vm_compute in H; apply H; reflexivity. }
  destruct (process_acquire_then_frame p sample_env 3 eq_refl Hok Hfirst)
    as [p' [e' [k [H1 [H2 [H3 _]]]]]].
  exists p', e', k. split; [exact H1|]. split; [exact H2 | exact H3].
Defined.

Lemma process_idle_witness :
  tetrapol_phys_ch_process sample_channel sample_env
  = Some (sample_channel, sample_env, 0).
Proof.
  apply (process_idle sample_channel sample_env).
  - reflexivity.
  - vm_compute. split; discriminate.
  - vm_compute. discriminate.
Defined.

(** ** Differential precoding *)

Lemma lxor_cancel_r (a b c : N) : N.lxor a c = N.lxor b c -> a = b.
Proof.
  intros H. apply (f_equal (fun x => N.lxor x c)) in H.
  now rewrite !N.lxor_assoc, N.lxor_nilpotent, !N.lxor_0_r in H.
Qed.

Lemma diff_precod_UHF_entries j :
  1 <= j < 152 ->
  (ldi diff_precod_UHF j = 1 \/ ldi diff_precod_UHF j = 2) /\
  0 <= j - ldi diff_precod_UHF j.
Proof.
  intros Hj.
  assert (H := range_check
    (fun i => (i =? 0)
              || (((ldi diff_precod_UHF i =? 1) || (ldi diff_precod_UHF i =? 2))
                  && (0 <=? i - ldi diff_precod_UHF i)))
    152 eq_refl j ltac:(lia)).
  apply orb_prop in H as [H|H]; [apply Z.eqb_eq in H; lia|].
  apply andb_prop in H as [H1 H2]. apply Z.leb_le in H2.
  apply orb_prop in H1 as [H1|H1]; apply Z.eqb_eq in H1; split; auto.
Qed.

(** What the loop of [frame_diff_dec] leaves in the frame: a cell is XORed
    with the old value of a cell below it. *)
Lemma frame_diff_dec_ld f :
  length (f_data f) = 152%nat ->
  let f' := frame_diff_dec f in
  f_frame_no f' = f_frame_no f /\
  length (f_data f') = 152%nat /\
  ld8 (f_data f') 0 = ld8 (f_data f) 0 /\
  forall j, 1 <= j < 152 ->
    ld8 (f_data f') j
    = N.lxor (ld8 (f_data f) j) (ld8 (f_data f) (j - ldi diff_precod_UHF j)).
Proof.
  intros Hlen. unfold frame_diff_dec. cbn [f_frame_no f_data].
  split; [reflexivity|].
  change (Z.to_nat (FRAME_DATA_LEN - 1)) with 151%nat.
  change (FRAME_DATA_LEN - 1) with 151.
  match goal with |- context [for_loop_down _ _ ?b _] => set (body := b) end.
  assert (H := for_loop_down_inv
    (fun j d => length d = 152%nat /\
                (forall i, j < i < 152 ->
                   ld8 d i = N.lxor (ld8 (f_data f) i)
                                    (ld8 (f_data f) (i - ldi diff_precod_UHF i))) /\
                (forall i, i <= j -> ld8 d i = ld8 (f_data f) i))
    151 151 body (f_data f)).
  cbv beta in H. change (151 - Z.of_nat 151) with 0 in H.
  destruct H as [Hl [Hhi Hlo]].
  - split; [assumption|]. split; [intros; lia | reflexivity].
  - intros j d Hj [Hl [Hhi Hlo]]. unfold body.
    destruct (diff_precod_UHF_entries j ltac:(lia)) as [Hd _].
    split; [now rewrite length_st|]. split.
    + intros i Hi. destruct (Z.eq_dec i j) as [->|Hne].
      * rewrite ld_st_same by lia. rewrite !Hlo by lia. reflexivity.
      * rewrite ld_st_other by lia. apply Hhi. lia.
    + intros i Hi. rewrite ld_st_other by lia. apply Hlo. lia.
  - split; [assumption|]. split; [apply Hlo; lia|].
    intros j Hj. apply Hhi. lia.
Qed.

(** The inverse of the differential precoding of a 152-bit payload: cell 0
    is kept and cell [j] is XORed with the received cell one or two places
    below it, as the table says; the table is the one its generator
    produces, and no read leaves the payload. *)
Theorem frame_diff_dec_cells (f : frame_t) :
  length (f_data f) = 152%nat ->
  let f' := frame_diff_dec f in
  diff_precod_UHF = diff_precod_script /\
  f_frame_no f' = f_frame_no f /\
  length (f_data f') = 152%nat /\
  ld8 (f_data f') 0 = ld8 (f_data f) 0 /\
  forall j, 1 <= j < 152 ->
    (ldi diff_precod_UHF j = 1 \/ ldi diff_precod_UHF j = 2) /\
    0 <= j - ldi diff_precod_UHF j < j /\
    ld8 (f_data f') j
    = N.lxor (ld8 (f_data f) j) (ld8 (f_data f) (j - ldi diff_precod_UHF j)).
Proof.
  intros Hlen f'.
  destruct (frame_diff_dec_ld f Hlen) as [Hn [Hl [H0 Hj]]].
  split; [reflexivity|]. repeat (split; [assumption|]).
  intros j Hr. destruct (diff_precod_UHF_entries j Hr) as [Hd Hb].
  split; [assumption|]. split; [lia | now apply Hj].
Qed.

Lemma frame_diff_dec_cells_witness :
  ld8 (f_data (frame_diff_dec sample_frame)) 1 = 1%N.
Proof.
  destruct (frame_diff_dec_cells sample_frame eq_refl) as [_ [_ [_ [_ H]]]].
  destruct (H 1 ltac:(lia)) as [_ [_ ->]]. reflexivity.
Defined.

(** Two 152-bit payloads have the same image under [frame_diff_dec] only
    when they are the same payload. *)
Theorem frame_diff_dec_injective (f g : frame_t) :
  length (f_data f) = 152%nat -> length (f_data g) = 152%nat ->
  (frame_diff_dec f = frame_diff_dec g <-> f = g).
Proof.
  intros Hf Hg. split; [|intros ->; reflexivity]. intros Heq.
  destruct (frame_diff_dec_ld f Hf) as [Hnf [_ [H0f Hjf]]].
  destruct (frame_diff_dec_ld g Hg) as [Hng [_ [H0g Hjg]]].
  rewrite Heq in Hnf, H0f, Hjf.
  apply frame_eq; [congruence|].
  assert (Hall : forall n : nat, forall i, 0 <= i < Z.of_nat n -> i < 152 ->
                   ld8 (f_data f) i = ld8 (f_data g) i).
  { induction n as [|n IH]; intros i Hi Hi'; [lia|].
    destruct (Z.eq_dec i (Z.of_nat n)) as [->|Hne]; [|apply IH; lia].
    destruct n as [|n]; [change (Z.of_nat 0) with 0; congruence|].
    destruct (diff_precod_UHF_entries (Z.of_nat (S n)) ltac:(lia)) as [Hd Hb].
    specialize (Hjf (Z.of_nat (S n)) ltac:(lia)).
    specialize (Hjg (Z.of_nat (S n)) ltac:(lia)).
    rewrite Hjg in Hjf.
    rewrite <- (IH (Z.of_nat (S n) - ldi diff_precod_UHF (Z.of_nat (S n))))
      in Hjf by lia.
    symmetry. now apply lxor_cancel_r in Hjf. }
  apply ld_ext with (d := 0%N); [congruence|].
  intros i Hi. apply (Hall 152%nat); lia.
Qed.

Lemma frame_diff_dec_injective_witness :
  frame_diff_dec sample_frame <> frame_diff_dec zero_frame.
Proof.
  intros H.
  apply (proj1 (frame_diff_dec_injective sample_frame zero_frame eq_refl eq_refl)) in H.
  discriminate H.
Defined.

(** ** Deinterleaving with any table *)

Lemma index_of_nth x l :
  In x l -> (index_of x l < length l)%nat /\ nth (index_of x l) l 0%N = x.
Proof.
  induction l as [|y l IH]; intros Hin; [contradiction|].
  cbn [index_of]. destruct (N.eqb x y) eqn:He.
  - apply N.eqb_eq in He. subst. cbn. split; [lia | reflexivity].
  - apply N.eqb_neq in He. destruct Hin as [->|Hin]; [contradiction|].
    destruct (IH Hin) as [H1 H2]. cbn. split; [lia | assumption].
Qed.

Lemma table_ok_in_range tb k :
  table_ok tb -> 0 <= k < 152 -> 0 <= Z.of_N (ld8 tb k) < 152.
Proof.
  intros [Hl [Hr _]] Hk. rewrite forallb_forall in Hr.
  assert (Hin : In (ld8 tb k) tb).
  { replace k with (Z.of_nat (Z.to_nat k)) by lia. rewrite ld_nth.
    apply nth_In. lia. }
  specialize (Hr _ Hin). apply N.ltb_lt in Hr. lia.
Qed.

Lemma table_ok_perm tb : table_ok tb -> Permutation tb (map N.of_nat (seq 0 152)).
Proof.
  intros Hok. assert (Hok' := Hok). destruct Hok' as [Hl [Hr Hnd]].
  apply NoDup_Permutation_bis.
  - now apply nodupb_sound.
  - rewrite length_map, length_seq. lia.
  - intros t Ht. rewrite forallb_forall in Hr. specialize (Hr t Ht).
    apply N.ltb_lt in Hr. apply in_map_iff. exists (N.to_nat t).
    split; [apply N2Nat.id | apply in_seq; lia].
Qed.

Lemma invert_table_spec tb i :
  table_ok tb -> 0 <= i < 152 ->
  0 <= Z.of_N (ld8 (invert_table tb) i) < 152 /\
  Z.of_N (ld8 tb (Z.of_N (ld8 (invert_table tb) i))) = i.
Proof.
  intros Hok Hi.
  assert (Hin : In (N.of_nat (Z.to_nat i)) tb).
  { apply (Permutation_in _ (Permutation_sym (table_ok_perm tb Hok))).
    apply in_map, in_seq. lia. }
  destruct (index_of_nth _ _ Hin) as [Hlt Hnth].
  assert (Hinv : ld8 (invert_table tb) i
                 = N.of_nat (index_of (N.of_nat (Z.to_nat i)) tb)).
  { unfold invert_table.
    rewrite ld_map with (d := 0%nat) by (rewrite length_seq; lia).
    replace i with (Z.of_nat (Z.to_nat i)) at 1 by lia.
    rewrite ld_nth, seq_nth by lia. reflexivity. }
  rewrite Hinv. destruct Hok as [Hl _]. split; [lia|].
  rewrite ld_of_N, Nat2N.id, Hnth. lia.
Qed.

Lemma frame_deinterleave_perm_table f tb :
  table_ok tb -> length (f_data f) = 152%nat ->
  Permutation (f_data (frame_deinterleave f tb)) (f_data f).
Proof.
  intros Hok Hlen.
  destruct (frame_deinterleave_ld f tb Hlen) as [_ [Hl Hd]].
  set (g := fun n => nth n (f_data f) 0%N).
  assert (H1 : f_data (frame_deinterleave f tb) = map g (map N.to_nat tb)).
  { apply ld_ext with (d := 0%N).
    - rewrite !length_map, Hl. now destruct Hok as [-> _].
    - intros i Hi. rewrite Hl in Hi. rewrite Hd by lia.
      rewrite map_map.
      rewrite ld_map with (d := 0%N) by (destruct Hok as [-> _]; lia).
      unfold g. now rewrite ld_of_N. }
  assert (H2 : f_data f = map g (seq 0 152)).
  { apply nth_ext with (d := 0%N) (d' := g 0%nat).
    - now rewrite length_map, length_seq.
    - intros n Hn. rewrite map_nth, seq_nth by lia. reflexivity. }
  rewrite H1. rewrite H2 at 1. apply Permutation_map.
  assert (H3 := Permutation_map N.to_nat (table_ok_perm tb Hok)).
  rewrite map_map in H3.
  rewrite (map_ext _ (fun x => x)) in H3 by (intros; apply Nat2N.id).
  now rewrite map_id in H3.
Qed.

(** With any table that lists the indices 0..151 once each,
    [frame_deinterleave] rearranges the 152 payload bits without loss:
    deinterleaving the result with the inverted table gives the payload
    back, so no other payload has the same image. *)
Theorem frame_deinterleave_bijective (tb : list N) (f : frame_t) :
  table_ok tb -> length (f_data f) = 152%nat ->
  let f' := frame_deinterleave f tb in
  length (f_data f') = 152%nat /\
  Permutation (f_data f') (f_data f) /\
  frame_deinterleave f' (invert_table tb) = f /\
  (forall g, length (f_data g) = 152%nat -> frame_deinterleave g tb = f' -> g = f).
Proof.
  intros Hok Hlen f'. subst f'.
  assert (Hrt : forall h, length (f_data h) = 152%nat ->
                  frame_deinterleave (frame_deinterleave h tb) (invert_table tb) = h).
  { intros h Hh. apply frame_deinterleave_round_trip; [assumption| |];
      intros i Hi; now apply invert_table_spec. }
  split; [now destruct (frame_deinterleave_ld f tb Hlen) as [_ [Hl _]]|].
  split; [now apply frame_deinterleave_perm_table|].
  split; [now apply Hrt|].
  intros g Hg Heq. rewrite <- (Hrt g Hg), Heq. now apply Hrt.
Qed.

Lemma frame_deinterleave_bijective_witness :
  Permutation (f_data (frame_deinterleave sample_frame interleave_voice_UHF))
              (f_data sample_frame).
Proof.
  destruct (frame_deinterleave_bijective interleave_voice_UHF sample_frame)
    as [_ [H _]].
  - split; [reflexivity | split; vm_compute; reflexivity].
  - reflexivity.
  - exact H.
Defined.

(** ** Descrambling: keys *)

(** What key [k] of [0,127] does to payload bit [i]. *)
Lemma frame_descramble_bit f k i :
  length (f_data f) = 152%nat -> 0 <= i < 152 ->
  ld8 (f_data (frame_descramble f k)) i
  = N.lxor (ld8 (f_data f) i) (scramble_bit k i).
Proof.
  intros Hlen Hi. unfold scramble_bit. destruct (Z.eq_dec k 0) as [->|Hne].
  - cbn. now rewrite N.lxor_0_r.
  - destruct (frame_descramble_ld f k Hlen Hne) as [_ [_ Hd]].
    destruct (k =? 0) eqn:H0; [apply Z.eqb_eq in H0; contradiction|].
    now apply Hd.
Qed.

Lemma frame_descramble_length f k :
  length (f_data f) = 152%nat ->
  length (f_data (frame_descramble f k)) = 152%nat /\
  f_frame_no (frame_descramble f k) = f_frame_no f.
Proof.
  intros Hlen. destruct (Z.eq_dec k 0) as [->|Hne]; [now split|].
  destruct (frame_descramble_ld f k Hlen Hne) as [H1 [H2 _]]. now split.
Qed.

(** Descrambling twice with the same key gives the frame back. *)
Theorem frame_descramble_involution (f : frame_t) (k : Z) :
  length (f_data f) = 152%nat -> 0 <= k <= 127 ->
  frame_descramble (frame_descramble f k) k = f.
Proof.
  intros Hlen Hk.
  destruct (frame_descramble_length f k Hlen) as [Hl1 Hn1].
  destruct (frame_descramble_length (frame_descramble f k) k Hl1) as [Hl2 Hn2].
  apply frame_eq; [congruence|].
  apply ld_ext with (d := 0%N); [congruence|].
  intros i Hi. rewrite Hl2 in Hi.
  rewrite !frame_descramble_bit by (auto; lia).
  now rewrite N.lxor_assoc, N.lxor_nilpotent, N.lxor_0_r.
Qed.

Lemma frame_descramble_involution_witness :
  frame_descramble (frame_descramble sample_frame 42) 42 = sample_frame.
Proof.
  apply (frame_descramble_involution sample_frame 42); [reflexivity | lia].
Defined.

(** Two different keys treat one of the first seven payload bits
    differently. *)
Lemma scramble_bit_differs k1 k2 :
  0 <= k1 < 128 -> 0 <= k2 < 128 -> k1 <> k2 ->
  0 <= first_difference k1 k2 < 7 /\
  scramble_bit k1 (first_difference k1 k2) <> scramble_bit k2 (first_difference k1 k2).
Proof.
  intros H1 H2 Hne.
  assert (H := range_check
    (fun a => forallb
       (fun j => let b := Z.of_nat j in
                 (a =? b)
                 || ((0 <=? first_difference a b) && (first_difference a b <? 7)
                     && negb (N.eqb (scramble_bit a (first_difference a b))
                                    (scramble_bit b (first_difference a b)))))
       (seq 0 128))
    128 ltac:(vm_compute; reflexivity) k1 H1).
  cbv beta in H. rewrite forallb_forall in H.
  specialize (H (Z.to_nat k2) ltac:(apply in_seq; lia)). cbv zeta in H.
  rewrite Z2Nat.id in H by lia.
  apply orb_prop in H as [H|H]; [apply Z.eqb_eq in H; contradiction|].
  apply andb_prop in H as [H Hd]. apply andb_prop in H as [Ha Hb].
  apply Z.leb_le in Ha. apply Z.ltb_lt in Hb.
  split; [lia|]. intros Heq. rewrite Heq, N.eqb_refl in Hd. discriminate.
Qed.

(** The 128 keys are told apart by every frame: two different keys of
    [0,127] never descramble a frame to the same payload. *)
Theorem frame_descramble_keys_differ (f : frame_t) (k1 k2 : Z) :
  length (f_data f) = 152%nat ->
  0 <= k1 <= 127 -> 0 <= k2 <= 127 -> k1 <> k2 ->
  frame_descramble f k1 <> frame_descramble f k2.
Proof.
  intros Hlen H1 H2 Hne Heq.
  destruct (scramble_bit_differs k1 k2 ltac:(lia) ltac:(lia) Hne) as [Hi Hd].
  apply Hd.
  assert (Hb : ld8 (f_data (frame_descramble f k1)) (first_difference k1 k2)
               = ld8 (f_data (frame_descramble f k2)) (first_difference k1 k2))
    by now rewrite Heq.
  rewrite !frame_descramble_bit in Hb by (auto; lia).
  rewrite !(N.lxor_comm (ld8 (f_data f) _)) in Hb.
  now apply lxor_cancel_r in Hb.
Qed.

Lemma frame_descramble_keys_differ_witness :
  frame_descramble zero_frame 0 <> frame_descramble zero_frame 127.
Proof.
  apply (frame_descramble_keys_differ zero_frame 0 127); [reflexivity | lia | lia | lia].
Defined.

(** ** Channel decoding: structure *)

(** The decoded frame cell by cell, in terms of [res_at] and [err_at]. *)
Lemma frame_decode_data_cells f df :
  length (df_data df) = 76%nat -> length (df_err df) = 76%nat ->
  let df' := fst (frame_decode_data f df) in
  length (df_data df') = 76%nat /\ length (df_err df') = 76%nat /\
  (forall i, 0 <= i < 26 ->
     ld8 (df_data df') i = res_at (f_data f) 0 26 i /\
     ld8 (df_err df') i = err_at (f_data f) 0 26 i) /\
  (forall i, 26 <= i < 76 ->
     ld8 (df_data df') i = res_at (f_data f) 52 50 (i - 26) /\
     ld8 (df_err df') i = err_at (f_data f) 52 50 (i - 26)) /\
  snd (frame_decode_data f df)
  = sum_flags (map (err_at (f_data f) 0 26) (zrange 26))
    + sum_flags (map (err_at (f_data f) 52 50) (zrange 50)).
Proof.
  intros Hd He df'. subst df'. unfold frame_decode_data.
  assert (H1 := channel_decoder_cells (df_data df) (df_err df) (f_data f) 0 0 26
                  ltac:(lia) ltac:(lia) ltac:(lia) ltac:(lia)).
  destruct (channel_decoder (df_data df) (df_err df) 0 (f_data f) 0 26)
    as [[d1 e1] errs1].
  destruct H1 as [Hl1 [Hl1' [Hc1 [_ Hs1]]]].
  assert (H2 := channel_decoder_cells d1 e1 (f_data f) 26 (2 * 26) 50
                  ltac:(lia) ltac:(lia) ltac:(lia) ltac:(lia)).
  destruct (channel_decoder d1 e1 26 (f_data f) (2 * 26) 50) as [[d2 e2] errs2].
  destruct H2 as [Hl2 [Hl2' [Hc2 [Hk2 Hs2]]]].
  cbn [fst snd df_data df_err].
  split; [congruence|]. split; [congruence|]. split; [|split].
  - intros i Hi. destruct (Hk2 i ltac:(lia)) as [-> ->].
    specialize (Hc1 i Hi). rewrite Z.add_0_l in Hc1. exact Hc1.
  - intros i Hi. specialize (Hc2 (i - 26) ltac:(lia)).
    replace (26 + (i - 26)) with i in Hc2 by lia. exact Hc2.
  - rewrite Hs1, Hs2. reflexivity.
Qed.

Lemma frame_decode_data_errs f df :
  length (df_data df) = 76%nat -> length (df_err df) = 76%nat ->
  snd (frame_decode_data f df) = sum_flags (df_err (fst (frame_decode_data f df))).
Proof.
  intros Hd He.
  destruct (frame_decode_data_cells f df Hd He) as [_ [Hle [H1 [H2 Hs]]]].
  rewrite Hs. clear Hs.
  set (e2 := df_err (fst (frame_decode_data f df))) in *.
  assert (He2 : e2 = map (err_at (f_data f) 0 26) (zrange 26)
                       ++ map (err_at (f_data f) 52 50) (zrange 50)).
  { apply ld_ext with (d := 0%N).
    - rewrite length_app, !length_map, !length_zrange. lia.
    - intros k Hk. rewrite Hle in Hk. destruct (Z_lt_dec k 26) as [Hlt|Hge].
      + rewrite ld_app_l by (rewrite length_map, length_zrange; lia).
        rewrite ld_zrange_map by lia. apply H1. lia.
      + rewrite ld_app_r by (rewrite length_map, length_zrange; lia).
        rewrite length_map, length_zrange.
        rewrite ld_zrange_map by lia. apply H2. lia. }
  rewrite He2 at 1. now rewrite sum_flags_app.
Qed.

Lemma ld_xor_cells a b i :
  length a = length b -> ld8 (xor_cells a b) i = N.lxor (ld8 a i) (ld8 b i).
Proof.
  intros Hl. unfold xor_cells, ld. destruct (i <? 0); [reflexivity|].
  revert b Hl. generalize (Z.to_nat i) as n.
  induction a as [|x a IH]; intros n [|y b] Hl; try discriminate.
  - now destruct n.
  - destruct n as [|n]; cbn; [reflexivity|]. apply IH. now injection Hl.
Qed.

Lemma length_xor_cells a b : length a = length b -> length (xor_cells a b) = length a.
Proof.
  intros Hl. unfold xor_cells. rewrite length_map, length_combine. lia.
Qed.

Lemma lxor_swap (a b c d : N) :
  N.lxor (N.lxor a b) (N.lxor c d) = N.lxor (N.lxor a c) (N.lxor b d).
Proof.
  rewrite !N.lxor_assoc. f_equal.
  rewrite <- !N.lxor_assoc. f_equal. apply N.lxor_comm.
Qed.

Lemma res_at_xor a b ibase n i :
  length a = length b ->
  res_at (xor_cells a b) ibase n i = N.lxor (res_at a ibase n i) (res_at b ibase n i).
Proof.
  intros Hl. unfold res_at, get_in. rewrite !ld_xor_cells by assumption.
  apply lxor_swap.
Qed.

Lemma err_at_xor a b ibase n i :
  length a = length b ->
  err_at (xor_cells a b) ibase n i = N.lxor (err_at a ibase n i) (err_at b ibase n i).
Proof.
  intros Hl. unfold err_at. rewrite res_at_xor by assumption.
  unfold get_in. rewrite !ld_xor_cells by assumption.
  apply N.bits_inj. intros m. rewrite !N.lxor_spec.
  repeat match goal with
         | |- context [N.testbit ?x m] => destruct (N.testbit x m)
         end; reflexivity.
Qed.

(** The channel decoder is linear: the decoded bits and the erasure flags
    of the cell by cell XOR of two 152-bit frames are the XOR of their
    decoded bits and of their erasure flags. *)
Theorem frame_decode_data_linear (f g : frame_t) (df : decoded_frame_t) :
  length (f_data f) = 152%nat -> length (f_data g) = 152%nat ->
  length (df_data df) = 76%nat -> length (df_err df) = 76%nat ->
  let fg := mk_frame (f_frame_no f) (xor_cells (f_data f) (f_data g)) in
  df_data (fst (frame_decode_data fg df))
  = xor_cells (df_data (fst (frame_decode_data f df)))
              (df_data (fst (frame_decode_data g df))) /\
  df_err (fst (frame_decode_data fg df))
  = xor_cells (df_err (fst (frame_decode_data f df)))
              (df_err (fst (frame_decode_data g df))).
Proof.
  intros Hf Hg Hd He fg.
  destruct (frame_decode_data_cells f df Hd He) as [Hlf [Hlf' [Hf1 [Hf2 _]]]].
  destruct (frame_decode_data_cells g df Hd He) as [Hlg [Hlg' [Hg1 [Hg2 _]]]].
  destruct (frame_decode_data_cells fg df Hd He) as [Hlx [Hlx' [Hx1 [Hx2 _]]]].
  assert (Hfg : length (f_data f) = length (f_data g)) by congruence.
  split; apply ld_ext with (d := 0%N);
    try (rewrite length_xor_cells by congruence; congruence).
  - intros i Hi. rewrite Hlx in Hi. rewrite ld_xor_cells by congruence.
    destruct (Z_lt_dec i 26) as [Hlt|Hge].
    + destruct (Hx1 i ltac:(lia)) as [-> _]. destruct (Hf1 i ltac:(lia)) as [-> _].
      destruct (Hg1 i ltac:(lia)) as [-> _]. now apply res_at_xor.
    + destruct (Hx2 i ltac:(lia)) as [-> _]. destruct (Hf2 i ltac:(lia)) as [-> _].
      destruct (Hg2 i ltac:(lia)) as [-> _]. now apply res_at_xor.
  - intros i Hi. rewrite Hlx' in Hi. rewrite ld_xor_cells by congruence.
    destruct (Z_lt_dec i 26) as [Hlt|Hge].
    + destruct (Hx1 i ltac:(lia)) as [_ ->]. destruct (Hf1 i ltac:(lia)) as [_ ->].
      destruct (Hg1 i ltac:(lia)) as [_ ->]. now apply err_at_xor.
    + destruct (Hx2 i ltac:(lia)) as [_ ->]. destruct (Hf2 i ltac:(lia)) as [_ ->].
      destruct (Hg2 i ltac:(lia)) as [_ ->]. now apply err_at_xor.
Qed.

Lemma frame_decode_data_linear_witness :
  df_data (fst (frame_decode_data
                  (mk_frame (-1) (xor_cells (f_data sample_frame) (f_data zero_frame)))
                  df_local))
  = xor_cells (df_data (fst (frame_decode_data sample_frame df_local)))
              (df_data (fst (frame_decode_data zero_frame df_local))).
Proof.
  destruct (frame_decode_data_linear sample_frame zero_frame df_local
              eq_refl eq_refl eq_refl eq_refl) as [H _].
  exact H.
Defined.

(** ** Bits stay bits *)

Lemma all_bits_ld l i : all_bits l -> (ld8 l i <= 1)%N.
Proof.
  intros H. unfold ld. destruct (i <? 0); [lia|].
  destruct (Nat.lt_ge_cases (Z.to_nat i) (length l)) as [Hlt|Hge].
  - unfold all_bits in H. rewrite Forall_forall in H. apply H. now apply nth_In.
  - rewrite nth_overflow by assumption. lia.
Qed.

Lemma all_bits_of_ld l :
  (forall i, 0 <= i < Z.of_nat (length l) -> (ld8 l i <= 1)%N) -> all_bits l.
Proof.
  intros H. unfold all_bits. apply Forall_forall. intros x Hx.
  apply In_nth with (d := 0%N) in Hx as [n [Hn <-]].
  rewrite <- ld_nth. apply H. lia.
Qed.

Lemma all_bits_check l : forallb (fun b => (b <=? 1)%N) l = true -> all_bits l.
Proof.
  intros H. unfold all_bits. apply Forall_forall. intros x Hx.
  rewrite forallb_forall in H. specialize (H x Hx). now apply N.leb_le in H.
Qed.

Lemma lxor_bit (a b : N) : (a <= 1)%N -> (b <= 1)%N -> (N.lxor a b <= 1)%N.
Proof.
  intros Ha Hb.
  assert (Ha' : a = 0%N \/ a = 1%N) by lia.
  assert (Hb' : b = 0%N \/ b = 1%N) by lia.
  destruct Ha' as [-> | ->]; destruct Hb' as [-> | ->]; cbn; lia.
Qed.

Lemma scramble_bit_is_bit k i : (scramble_bit k i <= 1)%N.
Proof.
  unfold scramble_bit. destruct (k =? 0); [lia|].
  apply all_bits_ld. apply all_bits_check. reflexivity.
Qed.

Lemma differential_dec_bits d size seed :
  all_bits d -> (seed <= 1)%N ->
  all_bits (fst (differential_dec d size seed)) /\
  (snd (differential_dec d size seed) <= 1)%N.
Proof.
  revert size seed. induction d as [|x d IH]; intros size seed Hd Hs.
  - destruct size; cbn; split; auto.
  - destruct size as [|size]; [rewrite differential_dec_zero; now split|].
    rewrite differential_dec_cons. cbn [fst snd].
    unfold all_bits in Hd. inversion Hd as [|? ? Hx Hd']; subst.
    destruct (IH size (N.lxor x seed) Hd' (lxor_bit _ _ Hx Hs)) as [H1 H2].
    split; [|assumption]. constructor; [now apply lxor_bit | assumption].
Qed.

(** When the cells of a 152-cell payload hold bits, they still do after
    each step of the pipeline: descrambling with a key of [0,127], the
    inverse of the differential precoding, deinterleaving with a table
    of 152 entries below 152, and so do the decoded bits and erasure flags.
    The same holds for the differential decoding of up to 152 cells. *)
Theorem pipeline_keeps_bits (f : frame_t) (df : decoded_frame_t) :
  length (f_data f) = 152%nat -> all_bits (f_data f) ->
  length (df_data df) = 76%nat -> length (df_err df) = 76%nat ->
  (forall k, 0 <= k <= 127 -> all_bits (f_data (frame_descramble f k))) /\
  all_bits (f_data (frame_diff_dec f)) /\
  (forall tb, length tb = 152%nat ->
     (forall j, 0 <= j < 152 -> (ld8 tb j < 152)%N) ->
     all_bits (f_data (frame_deinterleave f tb))) /\
  all_bits (df_data (fst (frame_decode_data f df))) /\
  all_bits (df_err (fst (frame_decode_data f df))) /\
  (forall size seed, (size <= 152)%nat -> (seed <= 1)%N ->
     all_bits (fst (differential_dec (f_data f) size seed))).
Proof.
  intros Hlen Hb Hd He.
  assert (Hld := fun i => all_bits_ld (f_data f) i Hb).
  split; [|split; [|split; [|split; [|split]]]].
  - intros k Hk. destruct (frame_descramble_length f k Hlen) as [Hl _].
    apply all_bits_of_ld. intros i Hi. rewrite Hl in Hi.
    rewrite frame_descramble_bit by (auto; lia).
    apply lxor_bit; [apply Hld | apply scramble_bit_is_bit].
  - destruct (frame_diff_dec_ld f Hlen) as [_ [Hl [H0 Hj]]].
    apply all_bits_of_ld. intros i Hi. rewrite Hl in Hi.
    destruct (Z.eq_dec i 0) as [->|Hne]; [rewrite H0; apply Hld|].
    rewrite Hj by lia. apply lxor_bit; apply Hld.
  - intros tb _ _. destruct (frame_deinterleave_ld f tb Hlen) as [_ [Hl Hj]].
    apply all_bits_of_ld. intros i Hi. rewrite Hl in Hi.
    rewrite Hj by lia. apply Hld.
  - destruct (frame_decode_data_cells f df Hd He) as [Hl [_ [H1 [H2 _]]]].
    apply all_bits_of_ld. intros i Hi. rewrite Hl in Hi.
    destruct (Z_lt_dec i 26) as [Hlt|Hge].
    + destruct (H1 i ltac:(lia)) as [-> _]. unfold res_at, get_in.
      apply lxor_bit; apply Hld.
    + destruct (H2 i ltac:(lia)) as [-> _]. unfold res_at, get_in.
      apply lxor_bit; apply Hld.
  - destruct (frame_decode_data_cells f df Hd He) as [_ [Hl [H1 [H2 _]]]].
    apply all_bits_of_ld. intros i Hi. rewrite Hl in Hi.
    destruct (Z_lt_dec i 26) as [Hlt|Hge].
    + destruct (H1 i ltac:(lia)) as [_ ->]. unfold err_at, res_at, get_in.
      repeat apply lxor_bit; apply Hld.
    + destruct (H2 i ltac:(lia)) as [_ ->]. unfold err_at, res_at, get_in.
      repeat apply lxor_bit; apply Hld.
  - intros size seed _ Hs. now apply differential_dec_bits.
Qed.

Lemma pipeline_keeps_bits_witness :
  all_bits (f_data (frame_diff_dec sample_frame)) /\
  all_bits (f_data (frame_deinterleave sample_frame interleave_voice_UHF)) /\
  all_bits (df_err (fst (frame_decode_data sample_frame df_local))).
Proof.
  destruct (pipeline_keeps_bits sample_frame df_local eq_refl
              (all_bits_check (f_data sample_frame) eq_refl) eq_refl eq_refl)
    as [_ [H1 [Htb [_ [H2 _]]]]].
  split; [assumption|]. split; [|assumption].
  apply Htb; [reflexivity|].
  intros j Hj. apply N.ltb_lt.
  apply (range_check (fun i => (ld8 interleave_voice_UHF i <? 152)%N) 152);
    [vm_compute; reflexivity | exact Hj].
Defined.

Lemma sum_flags_bits l : all_bits l -> sum_flags l <= Z.of_nat (length l).
Proof.
  induction l as [|x l IH]; intros H; [cbn; lia|].
  unfold all_bits in H. inversion H as [|? ? Hx Hl]; subst.
  specialize (IH Hl). cbn [sum_flags fold_right length] in *.
  fold (sum_flags l). lia.
Qed.

Lemma sum_flags_zero l :
  sum_flags l = 0 <-> forall i, 0 <= i < Z.of_nat (length l) -> ld8 l i = 0%N.
Proof.
  induction l as [|x l IH].
  - cbn. split; [intros _ i Hi; lia | reflexivity].
  - cbn [sum_flags fold_right length]. fold (sum_flags l).
    assert (Hnn := sum_flags_nonneg l). split.
    + intros H i Hi. assert (Hx : x = 0%N) by lia.
      assert (Hs : sum_flags l = 0) by lia.
      destruct (Z.eq_dec i 0) as [->|Hne]; [exact Hx|].
      replace i with (Z.of_nat (S (Z.to_nat (i - 1)))) by lia.
      rewrite ld_nth. cbn [nth]. rewrite <- ld_nth.
      apply (proj1 IH Hs). lia.
    + intros H. assert (Hx : x = 0%N) by (apply (H 0); lia).
      assert (Hs : sum_flags l = 0).
      { apply IH. intros i Hi. specialize (H (i + 1) ltac:(lia)).
        replace (i + 1) with (Z.of_nat (S (Z.to_nat i))) in H by lia.
        rewrite ld_nth in H. cbn [nth] in H. rewrite <- ld_nth in H.
        now replace (Z.of_nat (Z.to_nat i)) with i in H by lia. }
      lia.
Qed.

(** The error count of the decoder is 0 exactly when none of the 76
    erasure flags is set, and is never negative; on a payload of bits it is
    at most 76. *)
Theorem frame_decode_data_error_count (f : frame_t) (df : decoded_frame_t) :
  length (f_data f) = 152%nat ->
  length (df_data df) = 76%nat -> length (df_err df) = 76%nat ->
  let df' := fst (frame_decode_data f df) in
  let errs := snd (frame_decode_data f df) in
  0 <= errs /\
  (errs = 0 <-> forall i, 0 <= i < 76 -> ld8 (df_err df') i = 0%N) /\
  (all_bits (f_data f) -> errs <= 76).
Proof.
  intros Hlen Hd He df' errs. subst df' errs.
  rewrite (frame_decode_data_errs f df Hd He).
  destruct (frame_decode_data_cells f df Hd He) as [_ [Hl [H1 [H2 _]]]].
  split; [apply sum_flags_nonneg|]. split.
  - rewrite sum_flags_zero, Hl. reflexivity.
  - intros Hb.
    assert (Hbits : all_bits (df_err (fst (frame_decode_data f df)))).
    { apply all_bits_of_ld. intros i Hi. rewrite Hl in Hi.
      assert (Hld := fun j => all_bits_ld (f_data f) j Hb).
      destruct (Z_lt_dec i 26) as [Hlt|Hge].
      - destruct (H1 i ltac:(lia)) as [_ ->]. unfold err_at, res_at, get_in.
        repeat apply lxor_bit; apply Hld.
      - destruct (H2 i ltac:(lia)) as [_ ->]. unfold err_at, res_at, get_in.
        repeat apply lxor_bit; apply Hld. }
    apply sum_flags_bits in Hbits. rewrite Hl in Hbits. exact Hbits.
Qed.

Lemma frame_decode_data_error_count_witness :
  snd (frame_decode_data sample_frame df_local) <= 76.
Proof.
  destruct (frame_decode_data_error_count sample_frame df_local
              eq_refl eq_refl eq_refl) as [_ [_ H]].
  apply H. apply all_bits_check. reflexivity.
Defined.

(** ** SCR detection: when a key can be committed *)

Section ScrCommit.
Context `{E : Externals}.

Lemma score_update_le band_ f stat k :
  0 <= ldi stat k -> score_update band_ f stat k <= ldi stat k + 1.
Proof.
  intros H. unfold score_update. destruct (scr_trial band_ f k) as [df errs].
  destruct ((errs >? 0) || negb (decoded_frame_check_crc df FRAME_TYPE_DATA)); lia.
Qed.

(** A frame raises no score by more than 1, and [detect_scr] changes [scr]
    only to the key it guesses and only when that key's score is above
    [scr_confidence]: a new detection needs more than [scr_confidence]
    frames in favour of the key. *)
Theorem detect_scr_commit_needs_score (p : phys_ch_t) (e : env_t) (f : frame_t) :
  scores_ok p ->
  let p' := fst (detect_scr p e f) in
  (forall k, 0 <= k < 128 -> ldi (scr_stat p') k <= ldi (scr_stat p) k + 1) /\
  (scr p' <> scr p ->
   scr p' = scr_guess p' /\
   scr_confidence p < ldi (scr_stat p') (scr_guess p')).
Proof.
  intros [Hlen Hnn] p'. subst p'.
  destruct (detect_scr_fields p e f) as [Hst [Hg [Hs _]]]. cbv zeta in Hs.
  rewrite Hst, Hg, Hs.
  destruct (detect_scr_stats_spec p f Hlen) as [_ Hupd].
  change SCR_STAT_LEN with 128 in Hnn.
  split.
  - intros k Hk. rewrite Hupd by assumption. apply score_update_le. now apply Hnn.
  - destruct (detect_scr_best_spec (detect_scr_stats p f)) as [Hb [Hb2 _]].
    set (stat := detect_scr_stats p f) in *.
    set (best := fst (detect_scr_best stat)) in *.
    set (second := snd (detect_scr_best stat)) in *.
    destruct (ldi stat best - scr_confidence p >? ldi stat second) eqn:Hc.
    + intros _. split; [reflexivity|]. apply Z.gtb_lt in Hc.
      assert (H2 : 0 <= ldi stat second).
      { unfold stat. rewrite Hupd by assumption.
        apply score_update_nonneg. now apply Hnn. }
      lia.
    + intros H. now elim H.
Qed.

End ScrCommit.

Lemma detect_scr_commit_needs_score_witness :
  ldi (scr_stat (fst (detect_scr close_race_channel sample_env sample_frame))) 0
  <= ldi (scr_stat close_race_channel) 0 + 1.
Proof.
  destruct (detect_scr_commit_needs_score close_race_channel sample_env sample_frame)
    as [H _].
  - split; [reflexivity|]. intros k Hk.
    assert (Hc := range_check (fun i => 0 <=? ldi (scr_stat close_race_channel) i)
                    128 eq_refl k Hk).
    now apply Z.leb_le in Hc.
  - apply H. lia.
Defined.

(** ** What [tetrapol_phys_ch_process] leaves alone *)

Section Configuration.
Context `{E : Externals}.

Lemma process_turn_key q e fr :
  let q' := turn_state (process_turn q e fr) in
  band q' = band q /\ rch_type q' = rch_type q /\
  scr_confidence q' = scr_confidence q /\
  (scr q <> PHYS_CH_SCR_DETECT ->
   scr q' = scr q /\ scr_guess q' = scr_guess q /\ scr_stat q' = scr_stat q).
Proof.
  unfold process_turn, turn_state.
  assert (Hg : let q1 := fst (fst (get_frame q fr)) in
               band q1 = band q /\ rch_type q1 = rch_type q /\
               scr_confidence q1 = scr_confidence q /\ scr q1 = scr q /\
               scr_guess q1 = scr_guess q /\ scr_stat q1 = scr_stat q).
  { destruct (Z_lt_dec (data_len q) FRAME_LEN) as [Hs|Hl].
    - rewrite get_frame_short by assumption. cbn. auto 10.
    - assert (H := get_frame_spec q fr ltac:(lia)). cbv zeta in H.
      destruct (get_frame q fr) as [[q1 f1] r]. cbn [fst]. intuition. }
  cbv zeta in Hg. destruct (get_frame q fr) as [[q1 f1] r]. cbn [fst] in Hg.
  destruct Hg as [Hb [Hr [Hc [Hs [Hsg Hst]]]]].
  destruct (r >? 0).
  - assert (Hp := process_frame_fields q1 e f1). cbv zeta in Hp.
    destruct (process_frame q1 e f1) as [[[q2 e2] f2] r2]. cbn [fst] in *.
    destruct Hp as [Heq [Hb2 [Hr2 [_ [_ [_ [_ [Hc2 _]]]]]]]].
    assert (Hkey : scr q <> PHYS_CH_SCR_DETECT ->
                   scr q2 = scr q /\ scr_guess q2 = scr_guess q /\
                   scr_stat q2 = scr_stat q).
    { intros Hne. rewrite <- Hs in Hne. apply Z.eqb_neq in Hne.
      rewrite Hne in Heq. subst q2. auto. }
    destruct (negb (f_frame_no f2 =? FRAME_NO_UNKNOWN));
      cbn [fst band rch_type scr_confidence scr scr_guess scr_stat set_frame_no];
      (split; [congruence|]); (split; [congruence|]); (split; [congruence|]);
      exact Hkey.
  - cbn [fst]. split; [assumption|]. split; [assumption|]. split; [assumption|].
    intros _. auto.
Qed.

(** A call never changes the band, the channel type or the confidence
    margin, and with a fixed key (any [scr] but [DETECT]) it changes neither
    the key nor the guess nor the scores: detection stays off until
    [set_scr] turns it on. *)
Theorem process_keeps_configuration (p : phys_ch_t) (e : env_t) :
  exists p' e',
    tetrapol_phys_ch_process p e = Some (p', e', 0) /\
    band p' = band p /\ rch_type p' = rch_type p /\
    scr_confidence p' = scr_confidence p /\
    (scr p <> PHYS_CH_SCR_DETECT ->
     scr p' = scr p /\ scr_guess p' = scr_guess p /\ scr_stat p' = scr_stat p).
Proof.
  set (I := fun q =>
    band q = band p /\ rch_type q = rch_type p /\
    scr_confidence q = scr_confidence p /\
    (scr p <> PHYS_CH_SCR_DETECT ->
     scr q = scr p /\ scr_guess q = scr_guess p /\ scr_stat q = scr_stat p)).
  destruct (process_invariant I) with (p := p) (e := e) as [p' [e' [Hp HI]]].
  - intros q e1 [Hb [Hr [Hc Hk]]].
    destruct (process_acquire_config q e1) as [Hb' [Hr' [Hs' [Hg' [Hc' Hst']]]]].
    unfold I. split; [congruence|]. split; [congruence|]. split; [congruence|].
    intros Hne. destruct (Hk Hne) as [H1 [H2 H3]].
    split; [congruence|]. split; congruence.
  - intros q e1 fr [Hb [Hr [Hc Hk]]].
    destruct (process_turn_key q e1 fr) as [Hb' [Hr' [Hc' Hk']]].
    unfold I. split; [congruence|]. split; [congruence|]. split; [congruence|].
    intros Hne. destruct (Hk Hne) as [H1 [H2 H3]].
    destruct Hk' as [H1' [H2' H3']]; [congruence|].
    split; [congruence|]. split; congruence.
  - intros q H. exact H.
  - unfold I. repeat split; reflexivity.
  - exists p', e'. split; [exact Hp | exact HI].
Qed.

End Configuration.

Lemma process_keeps_configuration_witness :
  exists p' e',
    tetrapol_phys_ch_process noisy_channel sample_env = Some (p', e', 0) /\
    scr p' = 0.
Proof.
  destruct (process_keeps_configuration noisy_channel sample_env)
    as [p' [e' [H1 [_ [_ [_ H2]]]]]].
  exists p', e'. split; [exact H1|].
  destruct H2 as [H _]; [vm_compute; discriminate | exact H].
Defined.

(** ** Intake in pieces *)

(** Offering a bit sequence in two calls of [recv] fills the buffer exactly
    as offering it in one: same bits, same fill level, and the two counts
    add up to the one. *)
Theorem tetrapol_recv2_app (p : phys_ch_t) (b1 b2 : list N) :
  buffer_ok p ->
  let n1 := Z.of_nat (length b1) in
  let n2 := Z.of_nat (length b2) in
  let p1 := fst (tetrapol_recv2 p b1 n1) in
  let p2 := fst (tetrapol_recv2 p1 b2 n2) in
  let q := fst (tetrapol_recv2 p (b1 ++ b2) (n1 + n2)) in
  buffer p2 = buffer q /\ data_len p2 = data_len q /\
  snd (tetrapol_recv2 p b1 n1) + snd (tetrapol_recv2 p1 b2 n2)
  = snd (tetrapol_recv2 p (b1 ++ b2) (n1 + n2)).
Proof.
  intros Hok n1 n2 p1 p2 q. subst p1 p2 q.
  destruct (tetrapol_recv2_spec p b1 n1 Hok ltac:(lia)) as [Hr1 [Hd1 [Hb1 Hok1]]].
  destruct (tetrapol_recv2_spec (fst (tetrapol_recv2 p b1 n1)) b2 n2 Hok1 ltac:(lia))
    as [Hr2 [Hd2 [Hb2 _]]].
  destruct (tetrapol_recv2_spec p (b1 ++ b2) (n1 + n2) Hok
              ltac:(rewrite length_app; lia)) as [Hr [Hd [Hb _]]].
  destruct Hok as [_ Hdl]. change DATA_SIZE with 1600 in *.
  set (r1 := snd (tetrapol_recv2 p b1 n1)) in *.
  set (r2 := snd (tetrapol_recv2 (fst (tetrapol_recv2 p b1 n1)) b2 n2)) in *.
  set (r := snd (tetrapol_recv2 p (b1 ++ b2) (n1 + n2))) in *.
  assert (Hsum : r1 + r2 = r) by lia.
  split; [|split; [lia | exact Hsum]].
  rewrite Hb2, Hb1, Hb, <- app_assoc. f_equal.
  rewrite firstn_app. f_equal.
  - destruct (Z_le_dec n1 (1600 - data_len p)) as [Hfit|Hfull].
    + rewrite !firstn_all2 by lia. reflexivity.
    + f_equal. lia.
  - f_equal. lia.
Qed.

Lemma tetrapol_recv2_app_witness :
  buffer (fill (fill sample_channel (repeat 1%N 1000)) (repeat 0%N 1000))
  = buffer (fst (tetrapol_recv2 sample_channel (repeat 1%N 1000 ++ repeat 0%N 1000)
                   (1000 + 1000))).
Proof.
  destruct (tetrapol_recv2_app sample_channel (repeat 1%N 1000) (repeat 0%N 1000))
    as [H _].
  - split; [vm_compute; reflexivity | vm_compute; split; discriminate].
  - rewrite !repeat_length in H. exact H.
Defined.

(** ** Control channel: frames that decode *)

Lemma cch_pipeline_bits f k :
  length (f_data f) = 152%nat -> all_bits (f_data f) -> 0 <= k <= 127 ->
  let f1 := frame_deinterleave (frame_diff_dec (frame_descramble f k))
              interleave_data_UHF in
  length (f_data f1) = 152%nat /\ all_bits (f_data f1).
Proof.
  intros Hlen Hb Hk f1. subst f1.
  destruct (frame_descramble_length f k Hlen) as [Hl1 _].
  assert (Hb1 : all_bits (f_data (frame_descramble f k))).
  { apply all_bits_of_ld. intros i Hi. rewrite Hl1 in Hi.
    rewrite frame_descramble_bit by (auto; lia).
    apply lxor_bit; [now apply all_bits_ld | apply scramble_bit_is_bit]. }
  destruct (frame_diff_dec_ld _ Hl1) as [_ [Hl2 [H0 Hj]]].
  assert (Hb2 : all_bits (f_data (frame_diff_dec (frame_descramble f k)))).
  { apply all_bits_of_ld. intros i Hi. rewrite Hl2 in Hi.
    destruct (Z.eq_dec i 0) as [->|Hne]; [rewrite H0; now apply all_bits_ld|].
    rewrite Hj by lia. apply lxor_bit; now apply all_bits_ld. }
  destruct (frame_deinterleave_ld _ interleave_data_UHF Hl2) as [_ [Hl3 Hd]].
  split; [assumption|].
  apply all_bits_of_ld. intros i Hi. rewrite Hl3 in Hi.
  rewrite Hd by lia. now apply all_bits_ld.
Qed.

Lemma frame_decode_data_bits f df :
  all_bits (f_data f) ->
  length (df_data df) = 76%nat -> length (df_err df) = 76%nat ->
  all_bits (df_data (fst (frame_decode_data f df))).
Proof.
  intros Hb Hd He.
  destruct (frame_decode_data_cells f df Hd He) as [Hl [_ [H1 [H2 _]]]].
  apply all_bits_of_ld. intros i Hi. rewrite Hl in Hi.
  destruct (Z_lt_dec i 26) as [Hlt|Hge].
  - destruct (H1 i ltac:(lia)) as [-> _]. unfold res_at, get_in.
    apply lxor_bit; now apply all_bits_ld.
  - destruct (H2 i ltac:(lia)) as [-> _]. unfold res_at, get_in.
    apply lxor_bit; now apply all_bits_ld.
Qed.

Section ControlChannelDelivery.
Context `{E : Externals}.

(** On a band that is handled, a frame that decodes without error, starts
    with [FRAME_TYPE_DATA] and passes the CRC is handed to
    [multiblock_process] once, with the block index [2*data[2] + data[1]],
    after one line of output and without any reset; the frame takes the
    frame number the multiblock layer left in the decoded frame, and the
    call returns 0.  When the payload holds bits and the key is one of
    [0,127], the block index is one of 0..3. *)
Theorem process_frame_cch_delivers (p : phys_ch_t) (e : env_t) (f : frame_t) :
  band p <> TETRAPOL_BAND_VHF ->
  let scr_ := if scr p =? PHYS_CH_SCR_DETECT then scr_guess p else scr p in
  let f1 := frame_deinterleave (frame_diff_dec (frame_descramble f scr_))
              interleave_data_UHF in
  let df := fst (frame_decode_data f1 df_local) in
  let errs := snd (frame_decode_data f1 df_local) in
  let fn0 := Z.of_N (ld8 (df_data df) 1) in
  let fn1 := Z.of_N (ld8 (df_data df) 2) in
  errs = 0 -> Z.of_N (ld8 (df_data df) 0) = FRAME_TYPE_DATA ->
  decoded_frame_check_crc df FRAME_TYPE_DATA = true ->
  let x := process_frame_cch p e f in
  snd x = 0 /\
  snd (fst x)
  = mk_frame (df_frame_no (snd (multiblock_process (ext e) df (2 * fn1 + fn0))))
      (f_data f1) /\
  ext (fst (fst x)) = fst (multiblock_process (ext e) df (2 * fn1 + fn0)) /\
  trace (fst (fst x))
  = trace e
    ++ [PrintOk (df_frame_no df) fn1 fn0
          (Z.of_N (ld8 (df_data df) 67)) (Z.of_N (ld8 (df_data df) 68)) scr_
          (firstn 64 (skipn 3 (df_data df)));
        CallMultiblockProcess df (2 * fn1 + fn0)] /\
  df_frame_no df = f_frame_no f /\
  (length (f_data f) = 152%nat -> all_bits (f_data f) -> 0 <= scr_ <= 127 ->
   0 <= 2 * fn1 + fn0 <= 3).
Proof.
  intros Hband scr_ f1 df errs fn0 fn1 Herr Htype Hcrc x. subst x.
  assert (Hfn : df_frame_no df = f_frame_no f).
  { unfold df, frame_decode_data.
    destruct (channel_decoder (df_data df_local) (df_err df_local) 0 (f_data f1) 0 26)
      as [[d1 e1] errs1].
    destruct (channel_decoder d1 e1 26 (f_data f1) (2 * 26) 50) as [[d2 e2] errs2].
    cbn [fst df_frame_no].
    unfold f1, frame_deinterleave, frame_diff_dec, frame_descramble.
    destruct (scr_ =? 0); reflexivity. }
  assert (Hrun : process_frame_cch p e f
                 = (fst (call_multiblock_process
                           (emit e (PrintOk (df_frame_no df) fn1 fn0
                                      (Z.of_N (ld8 (df_data df) 67))
                                      (Z.of_N (ld8 (df_data df) 68)) scr_
                                      (firstn 64 (skipn 3 (df_data df)))))
                           df (2 * fn1 + fn0)),
                    mk_frame
                      (df_frame_no
                         (snd (multiblock_process (ext e) df (2 * fn1 + fn0))))
                      (f_data f1), 0)).
  { unfold process_frame_cch. fold scr_.
    apply Z.eqb_neq in Hband. rewrite Hband. fold f1.
    subst fn0 fn1 df errs.
    destruct (frame_decode_data f1 df_local) as [df errs]. cbn [fst snd] in *.
    subst errs. change (0 =? 0) with true. cbn [negb].
    apply Z.eqb_eq in Htype. rewrite Htype, Hcrc. cbn [negb].
    unfold call_multiblock_process, emit. cbn [ext trace].
    destruct (multiblock_process (ext e) df
                (2 * Z.of_N (ld8 (df_data df) 2) + Z.of_N (ld8 (df_data df) 1)))
      as [w df2].
    reflexivity. }
  rewrite Hrun. cbn [fst snd].
  split; [reflexivity|]. split; [reflexivity|].
  unfold call_multiblock_process, emit. cbn [ext trace].
  destruct (multiblock_process (ext e) df (2 * fn1 + fn0)) as [w df2].
  cbn [fst snd ext trace].
  split; [reflexivity|]. split; [now rewrite <- app_assoc|].
  split; [exact Hfn|].
  intros Hlen Hbits Hk.
  destruct (cch_pipeline_bits f scr_ Hlen Hbits Hk) as [_ Hb1].
  fold f1 in Hb1.
  assert (Hdb := frame_decode_data_bits f1 df_local Hb1 eq_refl eq_refl).
  fold df in Hdb.
  assert (H1 := all_bits_ld (df_data df) 1 Hdb).
  assert (H2 := all_bits_ld (df_data df) 2 Hdb).
  subst fn0 fn1. lia.
Qed.

End ControlChannelDelivery.

Lemma process_frame_cch_delivers_witness :
  snd (process_frame_cch sample_channel sample_env data_frame) = 0 /\
  filter is_delivery
    (trace (fst (fst (process_frame_cch sample_channel sample_env data_frame))))
  <> [].
Proof.
  destruct (process_frame_cch_delivers sample_channel sample_env data_frame)
    as [H [_ [_ [Ht _]]]].
  - vm_compute. discriminate.
  - vm_compute. reflexivity.
  - vm_compute. reflexivity.
  - reflexivity.
  - split; [exact H|].
    rewrite Ht, filter_app. cbn [filter is_delivery app].
    intro Hn. apply app_eq_nil in Hn. destruct Hn as [_ Hn]. discriminate Hn.
Defined.


(** ** Channels that hand nothing on *)

Section NoDelivery.
Context `{E : Externals}.

Lemma get_frame_config q fr :
  let q1 := fst (fst (get_frame q fr)) in
  band q1 = band q /\ rch_type q1 = rch_type q.
Proof.
  destruct (Z_lt_dec (data_len q) FRAME_LEN) as [Hs|Hl].
  - rewrite get_frame_short by assumption. cbn. auto.
  - assert (H := get_frame_spec q fr ltac:(lia)). cbv zeta in H.
    destruct (get_frame q fr) as [[q1 f1] r]. cbn [fst]. intuition.
Qed.

Lemma detect_scr_trace p e f :
  filter is_delivery (trace (snd (detect_scr p e f)))
  = filter is_delivery (trace e).
Proof.
  unfold detect_scr. cbn [scr_stat set_scr_stat scr_confidence].
  destruct (detect_scr_best (detect_scr_stats p f)) as [m m2].
  destruct (ldi (detect_scr_stats p f) m - scr_confidence p
            >? ldi (detect_scr_stats p f) m2); cbn [snd]; [|reflexivity].
  unfold emit. cbn [trace]. rewrite filter_app. cbn [filter is_delivery].
  apply app_nil_r.
Qed.

Lemma process_frame_trace p e f :
  rch_type p <> TETRAPOL_RCH_CONTROL \/ band p = TETRAPOL_BAND_VHF ->
  filter is_delivery (trace (turn_env (process_frame p e f)))
  = filter is_delivery (trace e).
Proof.
  intros Hcfg. unfold process_frame, turn_env.
  assert (Hd := detect_scr_fields p e f). cbv zeta in Hd.
  destruct Hd as [_ [_ [_ [Hb [Hr _]]]]].
  assert (Ht := detect_scr_trace p e f).
  assert (Hpe : let pe := if scr p =? PHYS_CH_SCR_DETECT
                          then detect_scr p e f else (p, e) in
                band (fst pe) = band p /\ rch_type (fst pe) = rch_type p /\
                filter is_delivery (trace (snd pe)) = filter is_delivery (trace e)).
  { destruct (scr p =? PHYS_CH_SCR_DETECT); cbn [fst snd]; auto. }
  cbv zeta in Hpe.
  destruct (if scr p =? PHYS_CH_SCR_DETECT then detect_scr p e f else (p, e))
    as [p1 e1].
  cbn [fst snd] in Hpe. destruct Hpe as [Hb1 [Hr1 Ht1]].
  rewrite <- Ht1.
  destruct (rch_type p1 =? TETRAPOL_RCH_CONTROL) eqn:Hc.
  - apply Z.eqb_eq in Hc.
    destruct Hcfg as [Hne|Hvhf]; [congruence|].
    unfold process_frame_cch.
    replace (band p1 =? TETRAPOL_BAND_VHF) with true
      by (symmetry; apply Z.eqb_eq; congruence).
    cbn [fst snd]. unfold emit. cbn [trace]. rewrite filter_app.
    cbn [filter is_delivery]. apply app_nil_r.
  - unfold process_frame_traffic_ch. cbn [fst snd]. unfold emit. cbn [trace].
    rewrite filter_app. cbn [filter is_delivery]. apply app_nil_r.
Qed.

Lemma process_turn_trace p e fr :
  rch_type p <> TETRAPOL_RCH_CONTROL \/ band p = TETRAPOL_BAND_VHF ->
  filter is_delivery (trace (turn_env (process_turn p e fr)))
  = filter is_delivery (trace e).
Proof.
  intros Hcfg. unfold process_turn.
  assert (Hg := get_frame_config p fr). cbv zeta in Hg.
  destruct (get_frame p fr) as [[p1 f1] r]. cbn [fst] in Hg.
  destruct Hg as [Hb Hr].
  destruct (r >? 0); [|reflexivity].
  assert (Hf := process_frame_trace p1 e f1). unfold turn_env in *.
  destruct (process_frame p1 e f1) as [[[p2 e2] f2] r2]. cbn [fst snd] in *.
  rewrite <- Hf by (rewrite Hb, Hr; exact Hcfg).
  destruct (negb (f_frame_no f2 =? FRAME_NO_UNKNOWN)); reflexivity.
Qed.

Lemma process_loop_trace fuel :
  forall p e fr p' e' r,
    rch_type p <> TETRAPOL_RCH_CONTROL \/ band p = TETRAPOL_BAND_VHF ->
    process_loop fuel p e fr = Some (p', e', r) ->
    filter is_delivery (trace e') = filter is_delivery (trace e).
Proof.
  induction fuel as [|fuel IH]; intros p e fr p' e' r Hcfg Hrun; [discriminate|].
  cbn [process_loop] in Hrun.
  assert (Ht := process_turn_trace p e fr Hcfg).
  assert (Hk := process_turn_key p e fr). cbv zeta in Hk.
  destruct Hk as [Hb [Hr _]].
  destruct (process_turn p e fr) as [[[p1 e1] fr1] r1].
  unfold turn_env, turn_state in *. cbn [fst snd] in *.
  destruct (r1 >? 0).
  - rewrite <- Ht. apply (IH p1 e1 fr1 p' e' r); [|exact Hrun].
    rewrite Hb, Hr. exact Hcfg.
  - apply (f_equal (fun o => match o with
                             | Some x => trace (snd (fst x))
                             | None => []
                             end)) in Hrun.
    cbn [fst snd] in Hrun. rewrite <- Hrun. exact Ht.
Qed.

(** A traffic channel, or a channel on the VHF band, never hands a frame to
    the multiblock layer: whatever the buffer holds, a call ends and adds no
    call of [multiblock_process] to those made before. *)
Theorem process_never_delivers (p : phys_ch_t) (e : env_t) :
  rch_type p <> TETRAPOL_RCH_CONTROL \/ band p = TETRAPOL_BAND_VHF ->
  exists p' e',
    tetrapol_phys_ch_process p e = Some (p', e', 0) /\
    filter is_delivery (trace e') = filter is_delivery (trace e).
Proof.
  intros Hcfg.
  destruct (process_invariant (fun _ => True)) with (p := p) (e := e)
    as [p' [e' [Hrun _]]]; auto.
  exists p', e'. split; [exact Hrun|].
  unfold tetrapol_phys_ch_process in Hrun.
  assert (Ha := process_acquire_config p e). cbv zeta in Ha.
  destruct Ha as [Hb [Hr _]].
  assert (Hat : filter is_delivery (trace (snd (fst (process_acquire p e))))
                = filter is_delivery (trace e)).
  { unfold process_acquire.
    destruct (negb (has_frame_sync p)); [|reflexivity].
    destruct (find_frame_sync p) as [q found].
    destruct (negb (has_frame_sync (set_has_frame_sync q (negb (found =? 0)))));
      [reflexivity|].
    cbn [fst snd]. unfold call_segmentation_reset, call_multiblock_reset, emit.
    cbn [trace]. rewrite !filter_app. cbn [filter is_delivery].
    now rewrite !app_nil_r. }
  destruct (process_acquire p e) as [[p1 e1] go]. cbn [fst snd] in *.
  rewrite <- Hat.
  assert (Hcfg1 : rch_type p1 <> TETRAPOL_RCH_CONTROL \/ band p1 = TETRAPOL_BAND_VHF)
    by (rewrite Hb, Hr; exact Hcfg).
  destruct go.
  - unfold process_track in Hrun.
    destruct (process_loop (S (Z.to_nat (data_len p1))) p1 e1 frame_local)
      as [[[p2 e2] r2]|] eqn:Hloop; [|discriminate].
    assert (Ht := process_loop_trace _ _ _ _ _ _ _ Hcfg1 Hloop).
    rewrite <- Ht.
    destruct (r2 =? 0).
    + apply (f_equal (fun o => match o with
                               | Some x => trace (snd (fst x))
                               | None => []
                               end)) in Hrun.
      cbn [fst snd] in Hrun. now rewrite <- Hrun.
    + apply (f_equal (fun o => match o with
                               | Some x => trace (snd (fst x))
                               | None => []
                               end)) in Hrun.
      cbn [fst snd] in Hrun. rewrite <- Hrun. unfold emit. cbn [trace].
      rewrite filter_app. cbn [filter is_delivery]. apply app_nil_r.
  - apply (f_equal (fun o => match o with
                             | Some x => trace (snd (fst x))
                             | None => []
                             end)) in Hrun.
    cbn [fst snd] in Hrun. now rewrite <- Hrun.
Qed.

End NoDelivery.

Lemma process_never_delivers_witness :
  exists p' e',
    tetrapol_phys_ch_process traffic_channel sample_env = Some (p', e', 0) /\
    filter is_delivery (trace e') = [].
Proof.
  destruct (process_never_delivers traffic_channel sample_env) as [p' [e' [H1 H2]]].
  - left. vm_compute. discriminate.
  - exists p', e'. split; [exact H1 | exact H2].
Defined.

(** ** The frame counter *)

Section FrameCounter.
Context `{E : Externals}.

Lemma get_frame_frame_no p fr :
  let x := get_frame p fr in
  frame_no (fst (fst x)) = frame_no p /\
  (snd x > 0 -> f_frame_no (snd (fst x)) = frame_no p).
Proof.
  destruct (Z_lt_dec (data_len p) FRAME_LEN) as [Hs|Hl].
  - rewrite get_frame_short by assumption. cbn [fst snd]. split; [reflexivity | lia].
  - assert (H := get_frame_spec p fr ltac:(lia)). cbv zeta in H.
    destruct (get_frame p fr) as [[p1 f1] r]. cbn [fst snd].
    destruct H as [_ [Hc [_ [_ [_ [Hfn _]]]]]].
    split; [exact Hfn|].
    destruct ((if cmp_frame_sync (data p) 0 + last_sync_err p >? MAX_FRAME_SYNC_ERR
               then 1 + 2 * total_sync_err p else 0) >=? FRAME_LEN).
    + destruct Hc as [-> _]. lia.
    + destruct Hc as [_ [_ [_ [_ Hf]]]]. intros _. exact Hf.
Qed.

Lemma frame_pipeline_frame_no f k tb :
  f_frame_no (frame_descramble f k) = f_frame_no f /\
  f_frame_no (frame_deinterleave (frame_diff_dec (frame_descramble f k)) tb)
  = f_frame_no f.
Proof.
  unfold frame_deinterleave, frame_diff_dec, frame_descramble.
  destruct (k =? 0); split; reflexivity.
Qed.

Lemma filter_delivery_grows (l : list event) ev df fn :
  filter is_delivery ((l ++ [ev]) ++ [CallMultiblockProcess df fn])
  <> filter is_delivery l.
Proof.
  rewrite !filter_app. cbn [filter is_delivery]. intros H.
  apply (f_equal (@length event)) in H. rewrite !length_app in H.
  destruct (is_delivery ev); cbn [length] in H; lia.
Qed.

Lemma process_frame_cch_frame_no p e f :
  let x := process_frame_cch p e f in
  filter is_delivery (trace (fst (fst x))) = filter is_delivery (trace e) ->
  f_frame_no (snd (fst x)) = f_frame_no f.
Proof.
  unfold process_frame_cch.
  set (k := if scr p =? PHYS_CH_SCR_DETECT then scr_guess p else scr p).
  destruct (frame_pipeline_frame_no f k interleave_data_UHF) as [H1 H2].
  destruct (band p =? TETRAPOL_BAND_VHF); [intros _; exact H1|].
  destruct (frame_decode_data
              (frame_deinterleave (frame_diff_dec (frame_descramble f k))
                 interleave_data_UHF) df_local) as [df errs].
  destruct (negb (errs =? 0)); [intros _; exact H2|].
  destruct (negb (Z.of_N (ld8 (df_data df) 0) =? FRAME_TYPE_DATA));
    [intros _; exact H2|].
  destruct (negb (decoded_frame_check_crc df FRAME_TYPE_DATA));
    [intros _; exact H2|].
  unfold call_multiblock_process, emit. cbn [ext trace].
  destruct (multiblock_process (ext e) df
              (2 * Z.of_N (ld8 (df_data df) 2) + Z.of_N (ld8 (df_data df) 1)))
    as [w df2].
  cbn [fst snd trace]. intros H. exfalso.
  exact (filter_delivery_grows _ _ _ _ H).
Qed.

Lemma process_frame_frame_no p e f :
  let x := process_frame p e f in
  frame_no (turn_state x) = frame_no p /\
  (filter is_delivery (trace (turn_env x)) = filter is_delivery (trace e) ->
   f_frame_no (snd (fst x)) = f_frame_no f).
Proof.
  assert (Hf := process_frame_fields p e f). cbv zeta in Hf.
  destruct Hf as [_ [_ [_ [_ [_ [_ [Hfn _]]]]]]].
  unfold turn_state, turn_env. split; [exact Hfn|].
  unfold process_frame.
  assert (Ht : filter is_delivery
                 (trace (snd (if scr p =? PHYS_CH_SCR_DETECT
                              then detect_scr p e f else (p, e))))
               = filter is_delivery (trace e)).
  { destruct (scr p =? PHYS_CH_SCR_DETECT); [apply detect_scr_trace | reflexivity]. }
  destruct (if scr p =? PHYS_CH_SCR_DETECT then detect_scr p e f else (p, e))
    as [p1 e1].
  cbn [snd] in Ht. rewrite <- Ht.
  destruct (rch_type p1 =? TETRAPOL_RCH_CONTROL).
  - assert (Hc := process_frame_cch_frame_no p1 e1 f). cbv zeta in Hc.
    destruct (process_frame_cch p1 e1 f) as [[e2 f2] r2]. cbn [fst snd] in *.
    exact Hc.
  - unfold process_frame_traffic_ch. cbn [fst snd]. intros _. reflexivity.
Qed.

(** The frame counter across one turn of the frame loop.  A turn that
    yields no frame leaves the counter alone.  A turn that yields one
    leaves it alone or sets it to a remainder modulo 200; and when the frame
    is not handed to the multiblock layer (it fails to decode, or the
    channel is not a handled control channel), a known counter advances by
    one modulo 200 and an unknown one stays unknown. *)
Theorem process_turn_frame_no (p : phys_ch_t) (e : env_t) (fr : frame_t) :
  let x := process_turn p e fr in
  let n := frame_no (turn_state x) in
  (turn_r x <= 0 -> n = frame_no p) /\
  (turn_r x > 0 ->
   (n = frame_no p \/ -200 < n < 200) /\
   (filter is_delivery (trace (turn_env x)) = filter is_delivery (trace e) ->
    n = if frame_no p =? FRAME_NO_UNKNOWN then FRAME_NO_UNKNOWN
        else Z.rem (frame_no p + 1) 200)).
Proof.
  intros x n. subst x n. unfold process_turn, turn_state, turn_env, turn_r.
  assert (Hg := get_frame_frame_no p fr). cbv zeta in Hg.
  destruct (get_frame p fr) as [[p1 f1] r]. cbn [fst snd] in Hg.
  destruct Hg as [Hp1 Hf1].
  destruct (r >? 0) eqn:Hr.
  - apply Z.gtb_lt in Hr. specialize (Hf1 ltac:(lia)).
    assert (Hpf := process_frame_frame_no p1 e f1). cbv zeta in Hpf.
    unfold turn_state, turn_env in Hpf.
    destruct (process_frame p1 e f1) as [[[p2 e2] f2] r2]. cbn [fst snd] in *.
    destruct Hpf as [Hp2 Hf2].
    split; [lia|]. intros _.
    destruct (f_frame_no f2 =? FRAME_NO_UNKNOWN) eqn:Hu; cbn [negb].
    + split; [left; congruence|].
      intros Hno. specialize (Hf2 Hno).
      apply Z.eqb_eq in Hu.
      replace (frame_no p =? FRAME_NO_UNKNOWN) with true
        by (symmetry; apply Z.eqb_eq; congruence).
      congruence.
    + cbn [frame_no set_frame_no]. split.
      * right.
        assert (Hrem := Z.rem_bound_abs (f_frame_no f2 + 1) 200 ltac:(lia)).
        lia.
      * intros Hno. specialize (Hf2 Hno).
        replace (frame_no p) with (f_frame_no f2) by congruence.
        rewrite Hu. reflexivity.
  - rewrite Z.gtb_ltb in Hr. apply Z.ltb_ge in Hr. cbn [fst snd].
    split; [intros _; exact Hp1 | lia].
Qed.

End FrameCounter.

Lemma process_turn_frame_no_witness :
  frame_no (turn_state (process_turn counting_channel sample_env frame_local)) = 0.
Proof.
  assert (H := process_turn_frame_no counting_channel sample_env frame_local).
  cbv zeta in H. destruct H as [_ H].
  destruct H as [_ H]; [vm_compute; reflexivity|].
  etransitivity; [apply H; vm_compute; reflexivity | vm_compute; reflexivity].
Defined.
